(** * Health-insurance premium predictor: [app/helper.py]

    A shallow embedding of the feature encoder ([calculate_normalized_risk],
    [_ensure_scaler_format], [preprocess_input]), of the artifact loading done
    at import time and of [predict], followed by the properties of the
    specification that were checked against them.

    Conventions of the embedding.
    - Python [str] values are [string]s; the character functions cover the
      code points below 256.
    - Python [float]s are modelled by the real number they denote
      ([Finite q], with [q] rational) or by one of the non-finite values.
      Arithmetic is exact: rounding to binary64 is not modelled.  Every
      operation of [helper.py] on floats (a division by 14, a clip, a
      comparison, [int], [round]) is monotone or exact, so the statements
      below read the same on the rounded values.
    - Python [int]s are [Z].
    - The module globals ([model_young], [model_rest], [scaler_young],
      [scaler_rest]) are a record threaded through a state-and-exception
      monad.
    - The regressors and the scalers are opaque collaborators: a model is a
      function from the feature row to the scalar it predicts, a scaler a
      function from the selected cells to their transformed values; both may
      raise. *)

From Stdlib Require Import ZArith QArith Qround Qabs String Ascii List Lia.
From Stdlib Require Import Numbers.DecimalString.
From stdpp Require Import base gmap strings list fin_maps.

Open Scope Z_scope.
Open Scope string_scope.

(** ** Python values and exceptions *)

Inductive pyfloat : Type :=
| Finite (q : Q)
| Infinity (negative : bool)
| NaN.

(** Values an input dict may hold under a key. *)
Inductive pyval : Type :=
| VNone
| VBool (b : bool)
| VInt (z : Z)
| VFloat (f : pyfloat)
| VStr (s : string).

(** A cell of the one-row data frame: an integer or a float. *)
Inductive num : Type :=
| NInt (z : Z)
| NFloat (f : pyfloat).

Inductive exn : Type :=
| FileNotFoundError (msg : string)
| RuntimeError (msg : string)
| ValueError (msg : string) (detail : list string)
| TypeError
| AttributeError
| OverflowError
| KeyError (key : string)
| Foreign (what : string).

Inductive result (A : Type) : Type :=
| Ok (a : A)
| Raise (e : exn).
Arguments Ok {A} a.
Arguments Raise {A} e.

(** What a call into a collaborator (a model, a scaler, the unpickler)
    produces: a value, or an exception of its own. *)
Inductive outcome (A : Type) : Type :=
| Returns (a : A)
| Raises (what : string).
Arguments Returns {A} a.
Arguments Raises {A} what.

Definition lift_outcome {A} (o : outcome A) : result A :=
  match o with
  | Returns a => Ok a
  | Raises w => Raise (Foreign w)
  end.

(** The parts of the built-ins [int], [float] and [str] that read or print
    numeric literals.  They are left abstract: nothing below depends on
    which strings are numerals or on how a float is printed. *)
Record builtins : Type := {
  str_to_int : string -> option Z;
  str_to_float : string -> option pyfloat;
  float_to_str : pyfloat -> string
}.

(** ** String built-ins *)

Module Str.

(** [str.isspace] on one character (code points below 256). *)
Definition is_space (c : ascii) : bool :=
  let n := N_of_ascii c in
  (((9 <=? n) && (n <=? 13)) || ((28 <=? n) && (n <=? 32))
   || (n =? 133) || (n =? 160))%N.

Fixpoint lstrip (s : string) : string :=
  match s with
  | EmptyString => EmptyString
  | String c s' => if is_space c then lstrip s' else s
  end.

Fixpoint rstrip (s : string) : string :=
  match s with
  | EmptyString => EmptyString
  | String c s' =>
      match rstrip s' with
      | EmptyString => if is_space c then EmptyString else String c EmptyString
      | r => String c r
      end
  end.

(** [s.strip()] *)
Definition strip (s : string) : string := rstrip (lstrip s).

Definition lower_char (c : ascii) : ascii :=
  let n := N_of_ascii c in
  if (((65 <=? n) && (n <=? 90))
      || ((192 <=? n) && (n <=? 222) && negb (n =? 215)))%N
  then ascii_of_N (n + 32) else c.

(** [s.lower()] *)
Fixpoint lower (s : string) : string :=
  match s with
  | EmptyString => EmptyString
  | String c s' => String (lower_char c) (lower s')
  end.

(** [s.replace(old, new)] for a non-empty [old]: occurrences are found
    from the left and do not overlap.  [skip] counts the characters of a
    matched occurrence that are still to be passed over. *)
Fixpoint replace_from (old new : string) (skip : nat) (s : string) : string :=
  match s with
  | EmptyString => EmptyString
  | String c s' =>
      match skip with
      | S k => replace_from old new k s'
      | O =>
          if String.prefix old s
          then new ++ replace_from old new (String.length old - 1) s'
          else String c (replace_from old new 0 s')
      end
  end.

Definition replace (old new s : string) : string := replace_from old new 0 s.

(** [s.split(sep)] for a non-empty [sep]; [cur] is the piece being read. *)
Fixpoint split_from (sep : string) (skip : nat) (cur : string) (s : string)
  : list string :=
  match s with
  | EmptyString => [cur]
  | String c s' =>
      match skip with
      | S k => split_from sep k cur s'
      | O =>
          if String.prefix sep s
          then cur :: split_from sep (String.length sep - 1) EmptyString s'
          else split_from sep 0 (cur ++ String c EmptyString) s'
      end
  end.

Definition split (sep s : string) : list string := split_from sep 0 EmptyString s.

(** [str(n)] for an [int]. *)
Definition of_Z (z : Z) : string := NilZero.string_of_int (Z.to_int z).

End Str.

(** [str(v)] *)
Definition py_str (py : builtins) (v : pyval) : string :=
  match v with
  | VNone => "None"
  | VBool true => "True"
  | VBool false => "False"
  | VInt z => Str.of_Z z
  | VFloat f => float_to_str py f
  | VStr s => s
  end.

(** Truncation towards zero of a rational. *)
Definition Qtrunc (q : Q) : Z := Z.quot (Qnum q) (Zpos (Qden q)).

Definition int_of_float (f : pyfloat) : result Z :=
  match f with
  | Finite q => Ok (Qtrunc q)
  | Infinity _ => Raise OverflowError
  | NaN => Raise (ValueError "cannot convert float NaN to integer" [])
  end.

(** [int(v)] *)
Definition py_int (py : builtins) (v : pyval) : result Z :=
  match v with
  | VNone => Raise TypeError
  | VBool b => Ok (if b then 1 else 0)
  | VInt z => Ok z
  | VFloat f => int_of_float f
  | VStr s =>
      match str_to_int py s with
      | Some z => Ok z
      | None => Raise (ValueError "invalid literal for int()" [s])
      end
  end.

(** The integers up to [two53] in absolute value are floats; a float is
    below [float_limit] in absolute value. *)
Definition two53 : Z := 2 ^ 53.
Definition float_limit : Z := 2 ^ 1024.

(** The float nearest to a natural number: the number itself below
    [2 ^ 53], else its 53 leading bits, the dropped bits rounded to nearest
    with a tie going to the even neighbour. *)
Definition nearest_float (a : Z) : Z :=
  if (a <? two53)%Z then a
  else
    let unit := 2 ^ (Z.log2 a - 52) in
    let q := a / unit in
    match 2 * (a mod unit) ?= unit with
    | Lt => q * unit
    | Gt => (q + 1) * unit
    | Eq => if Z.even q then q * unit else (q + 1) * unit
    end.

(** [float(z)] for an [int]: the nearest float, [OverflowError] when that
    would be [2 ^ 1024] or more. *)
Definition float_of_int (z : Z) : result pyfloat :=
  let m := nearest_float (Z.abs z) in
  if (float_limit <=? m)%Z then Raise OverflowError
  else Ok (Finite (inject_Z (Z.sgn z * m))).

Arguments float_of_int z : simpl never.

(** [float(v)] *)
Definition py_float (py : builtins) (v : pyval) : result pyfloat :=
  match v with
  | VNone => Raise TypeError
  | VBool b => Ok (Finite (if b then 1 else 0))
  | VInt z => float_of_int z
  | VFloat f => Ok f
  | VStr s =>
      match str_to_float py s with
      | Some f => Ok f
      | None => Raise (ValueError "could not convert string to float" [s])
      end
  end.

(** [int(x)] for a cell read back from the frame. *)
Definition int_of_num (x : num) : result Z :=
  match x with
  | NInt z => Ok z
  | NFloat f => int_of_float f
  end.

(** ** The risk score *)

(** [_RISK_SCORES] *)
Definition _RISK_SCORES : gmap string Z :=
  <["diabetes" := 6]> (<["heart disease" := 8]> (<["high blood pressure" := 6]>
  (<["thyroid" := 5]> (<["no disease" := 0]> (<["none" := 0]> ∅))))).

(** Python's two-argument [max] and [min]: the first argument is kept unless
    the second is strictly larger (smaller). *)
Definition py_max (a b : Q) : Q := if Qle_bool b a then a else b.
Definition py_min (a b : Q) : Q := if Qle_bool a b then a else b.

Definition sum_Z (l : list Z) : Z := fold_right Z.add 0 l.

(** The tokens of a medical history: [p.strip().lower()] for each piece of
    [medical_history.replace(",", " & ").split(" & ")]. *)
Definition risk_parts (medical_history : string) : list string :=
  map (fun p => Str.lower (Str.strip p))
      (Str.split " & " (Str.replace "," " & " medical_history)).

Definition calculate_normalized_risk (medical_history : pyval) : Q :=
  match medical_history with
  | VStr s =>
      if String.eqb (Str.strip s) EmptyString then 0%Q
      else
        let parts := risk_parts s in
        let total := sum_Z (map (fun p => default 0 (_RISK_SCORES !! p)) parts) in
        let max_score := 14 in
        let normalized :=
          if (0 <? max_score)%Z then (inject_Z total / inject_Z max_score)%Q else 0%Q in
        py_min (py_max normalized 0%Q) 1%Q
  | _ => 0%Q
  end.

(** ** The feature frame *)

(** [_EXPECTED_COLUMNS], in training order. *)
Definition _EXPECTED_COLUMNS : list string :=
  [ "age"; "number_of_dependants"; "income_lakhs"; "insurance_plan";
    "genetical_risk"; "normalized_risk_score"; "gender_Male";
    "region_Northwest"; "region_Southeast"; "region_Southwest";
    "marital_status_Unmarried"; "bmi_category_Obesity";
    "bmi_category_Overweight"; "bmi_category_Underweight";
    "smoking_status_Occasional"; "smoking_status_Regular";
    "employment_status_Salaried"; "employment_status_Self-Employed" ].

(** The one-hot columns among them. *)
Definition one_hot_columns : list string :=
  [ "gender_Male"; "region_Northwest"; "region_Southeast"; "region_Southwest";
    "marital_status_Unmarried"; "bmi_category_Obesity";
    "bmi_category_Overweight"; "bmi_category_Underweight";
    "smoking_status_Occasional"; "smoking_status_Regular";
    "employment_status_Salaried"; "employment_status_Self-Employed" ].

(** [_INSURANCE_ENCODING] *)
Definition _INSURANCE_ENCODING : gmap string Z :=
  <["Bronze" := 1]> (<["Silver" := 2]> (<["Gold" := 3]> ∅)).

(** A one-row [DataFrame]: the cell of each column of the single row 0. *)
Abbreviation frame := (gmap string num).

(** [pd.DataFrame(0, index=[0], columns=cols)] *)
Definition DataFrame_zeros (cols : list string) : frame :=
  foldr (fun c df => <[c := NInt 0]> df) ∅ cols.

(** [df.at[0, c]] as a read. *)
Definition at_ (df : frame) (c : string) : result num :=
  match df !! c with
  | Some x => Ok x
  | None => Raise (KeyError c)
  end.

(** The row handed to a model: the cells in column order. *)
Definition row (df : frame) : list num :=
  omap (fun c => df !! c) _EXPECTED_COLUMNS.

(** ** Artifacts *)

(** Objects that are not dicts: a regressor with its [predict], a scaler
    with its [transform], a list of column names. *)
Inductive obj : Type :=
| Regressor (predict_ : list num -> outcome pyfloat)
| Scaler (transform : list num -> outcome (list pyfloat))
| Columns (names : list string).

(** What an artifact file unpickles to: an object, or a dict of objects. *)
Inductive artifact : Type :=
| Plain (o : obj)
| Dict (d : gmap string obj).

(** The artifacts directory: for each file that exists, what [joblib.load]
    does on it. *)
Abbreviation directory := (gmap string (outcome artifact)).

(** The module globals; [None] is Python's [None]. *)
Record globals : Type := {
  model_young : option artifact;
  model_rest : option artifact;
  scaler_young : option artifact;
  scaler_rest : option artifact
}.

Definition _load_artifact (dir : directory) (name : string) : result artifact :=
  match dir !! name with
  | None => Raise (FileNotFoundError ("Required artifact not found: artifacts/" ++ name))
  | Some content => lift_outcome content
  end.

(** The three [try]/[except Exception] blocks run when the module is
    imported. *)
Definition import_module (dir : directory) : globals :=
  let models :=
    match _load_artifact dir "model_young.joblib" with
    | Ok my =>
        match _load_artifact dir "model_rest.joblib" with
        | Ok mr => (Some my, Some mr)
        | Raise _ => (None, None)
        end
    | Raise _ => (None, None)
    end in
  let sy :=
    match _load_artifact dir "scaler_young.joblib" with
    | Ok s => Some s
    | Raise _ => None
    end in
  let sr :=
    match _load_artifact dir "scaler_rest.joblib" with
    | Ok s => Some s
    | Raise _ => None
    end in
  {| model_young := fst models; model_rest := snd models;
     scaler_young := sy; scaler_rest := sr |}.

Definition has_key {V} (k : string) (d : gmap string V) : bool :=
  match d !! k with Some _ => true | None => false end.

Definition scaler_dict_msg : string :=
  "Scaler dict must contain keys 'scaler' and 'cols_to_scale'".

Definition _ensure_scaler_format (scaler_obj : option artifact)
  : result (option (gmap string obj)) :=
  match scaler_obj with
  | None => Ok None
  | Some (Dict d) =>
      if has_key "scaler" d && has_key "cols_to_scale" d
      then Ok (Some d)
      else Raise (ValueError scaler_dict_msg [])
  | Some (Plain o) =>
      Ok (Some (<["scaler" := o]>
                (<["cols_to_scale" := Columns ["age"; "income_lakhs"]]> ∅)))
  end.

(** [d[k]] *)
Definition getitem {V} (d : gmap string V) (k : string) : result V :=
  match d !! k with
  | Some v => Ok v
  | None => Raise (KeyError k)
  end.

(** Iterating over an object as a list of column names. *)
Definition iter_columns (o : obj) : result (list string) :=
  match o with
  | Columns names => Ok names
  | _ => Raise TypeError
  end.

(** [o.transform(cells)] *)
Definition call_transform (o : obj) (cells : list num) : result (list pyfloat) :=
  match o with
  | Scaler transform => lift_outcome (transform cells)
  | _ => Raise AttributeError
  end.

(** [float(o.predict(df)[0])] *)
Definition call_predict (o : artifact) (cells : list num) : result pyfloat :=
  match o with
  | Plain (Regressor predict_) => lift_outcome (predict_ cells)
  | _ => Raise AttributeError
  end.

(** [df[cols]] once every name of [cols] is a column. *)
Definition select (df : frame) (cols : list string) : list num :=
  omap (fun c => df !! c) cols.

(** [df[cols] = values]: one value per named column, written in order. *)
Definition assign (df : frame) (cols : list string) (values : list pyfloat)
  : result frame :=
  if Nat.eqb (List.length cols) (List.length values)
  then Ok (foldl (fun d cv => <[fst cv := NFloat (snd cv)]> d) df (combine cols values))
  else Raise (ValueError "Columns must be same length as key" []).

(** ** The state-and-exception monad of the module *)

Definition M (A : Type) : Type := globals -> result A * globals.

Definition ret {A} (a : A) : M A := fun g => (Ok a, g).
Definition raise {A} (e : exn) : M A := fun g => (Raise e, g).
Definition lift {A} (r : result A) : M A := fun g => (r, g).
Definition read {A} (field : globals -> A) : M A := fun g => (Ok (field g), g).
Definition bind {A B} (m : M A) (k : A -> M B) : M B :=
  fun g =>
    match m g with
    | (Ok a, g') => k a g'
    | (Raise e, g') => (Raise e, g')
    end.

Notation "x <- m ;; k" := (bind m (fun x => k))
  (at level 100, m at next level, right associativity, only parsing).

(** The same sequencing for code that touches no global. *)
Definition and_then {A B} (r : result A) (k : A -> result B) : result B :=
  match r with
  | Ok a => k a
  | Raise e => Raise e
  end.

Notation "x <~ r ;; k" := (and_then r (fun x => k))
  (at level 100, r at next level, right associativity, only parsing).

(** ** [preprocess_input] and [predict] *)

Definition scaler_columns_msg : string :=
  "Scaler expects columns that are not in the input DataFrame: ".

Definition models_not_loaded_msg : string :=
  "Models not loaded. Ensure artifacts/model_young.joblib and model_rest.joblib exist in the artifacts folder.".

(** The two errors the specification names. *)
Definition ModelsUnavailable : exn := RuntimeError models_not_loaded_msg.
Definition SchemaMismatch (missing : list string) : exn :=
  ValueError scaler_columns_msg missing.

(** [round(x)] on a finite float: nearest integer, a tie going to the even
    neighbour. *)
Definition round_half_even (q : Q) : Z :=
  let n := Qnum q in
  let d := Zpos (Qden q) in
  let fl := n / d in
  match 2 * (n mod d) ?= d with
  | Lt => fl
  | Gt => fl + 1
  | Eq => if Z.even fl then fl else fl + 1
  end.

(** [round(val)] *)
Definition py_round (val : pyfloat) : result Z :=
  match val with
  | Finite q => Ok (round_half_even q)
  | Infinity _ => Raise OverflowError
  | NaN => Raise (ValueError "cannot convert float NaN to integer" [])
  end.

(** The one-hot blocks of [preprocess_input], one per category: lines
    140-141, 143-149, 151-152, 154-160, 162-166 and 168-172. *)
Definition set_gender (gender : string) (df : frame) : frame :=
  if String.eqb gender "male" then <["gender_Male" := NInt 1]> df else df.

Definition set_region (region : string) (df : frame) : frame :=
  if String.eqb region "Northwest" then <["region_Northwest" := NInt 1]> df
  else if String.eqb region "Southeast" then <["region_Southeast" := NInt 1]> df
  else if String.eqb region "Southwest" then <["region_Southwest" := NInt 1]> df
  else df.

Definition set_marital_status (status : string) (df : frame) : frame :=
  if String.eqb status "Unmarried"
  then <["marital_status_Unmarried" := NInt 1]> df else df.

Definition set_bmi_category (bmi : string) (df : frame) : frame :=
  if String.eqb bmi "Obesity" then <["bmi_category_Obesity" := NInt 1]> df
  else if String.eqb bmi "Overweight" then <["bmi_category_Overweight" := NInt 1]> df
  else if String.eqb bmi "Underweight" then <["bmi_category_Underweight" := NInt 1]> df
  else df.

Definition set_smoking_status (smoking : string) (df : frame) : frame :=
  if String.eqb smoking "Occasional" then <["smoking_status_Occasional" := NInt 1]> df
  else if String.eqb smoking "Regular" then <["smoking_status_Regular" := NInt 1]> df
  else df.

Definition set_employment_status (employment : string) (df : frame) : frame :=
  if String.eqb employment "Salaried"
  then <["employment_status_Salaried" := NInt 1]> df
  else if String.eqb employment "Self-Employed"
       then <["employment_status_Self-Employed" := NInt 1]> df
  else df.

Section Encoder.

Context (py : builtins).

(** [d.get(k, dflt)] on the input dict. *)
Definition get (d : gmap string pyval) (k : string) (dflt : pyval) : pyval :=
  default dflt (d !! k).

(** [_INSURANCE_ENCODING.get(v, 1)]: only a [str] can equal a key. *)
Definition insurance_code (v : pyval) : Z :=
  match v with
  | VStr s => default 1 (_INSURANCE_ENCODING !! s)
  | _ => 1
  end.

(** [v.lower()]: a method of [str] only. *)
Definition method_lower (v : pyval) : result string :=
  match v with
  | VStr s => Ok (Str.lower s)
  | _ => Raise AttributeError
  end.

(** [str(input_dict.get(k, "")).strip()] *)
Definition category (input_dict : gmap string pyval) (k : string) : string :=
  Str.strip (py_str py (get input_dict k (VStr EmptyString))).

(** Lines 126-177 of [preprocess_input]: the frame as it stands when the
    scaler is about to be selected.  The input is a dict by its type, so
    the [isinstance] test of line 123 always passes. *)
Definition encode_fields (input_dict : gmap string pyval) : result frame :=
  let df := DataFrame_zeros _EXPECTED_COLUMNS in
  age <~ py_int py (get input_dict "Age" (VInt 0)) ;;
  let df := <["age" := NInt age]> df in
  dependants <~ py_int py (get input_dict "Number of Dependants" (VInt 0)) ;;
  let df := <["number_of_dependants" := NInt dependants]> df in
  income <~ py_float py (get input_dict "Income in Lakhs" (VFloat (Finite 0))) ;;
  let df := <["income_lakhs" := NFloat income]> df in
  risk <~ py_float py (get input_dict "Genetical Risk" (VFloat (Finite 0))) ;;
  let df := <["genetical_risk" := NFloat risk]> df in
  let df := <["insurance_plan" :=
                NInt (insurance_code (get input_dict "Insurance Plan" (VStr "Bronze")))]> df in
  gender <~ method_lower (get input_dict "Gender" (VStr EmptyString)) ;;
  let df := set_gender gender df in
  let df := set_region (category input_dict "Region") df in
  let df := set_marital_status (category input_dict "Marital Status") df in
  let df := set_bmi_category (category input_dict "BMI Category") df in
  let df := set_smoking_status (category input_dict "Smoking Status") df in
  let df := set_employment_status (category input_dict "Employment Status") df in
  let history := py_str py (get input_dict "Medical History" (VStr EmptyString)) in
  Ok (<["normalized_risk_score" :=
          NFloat (Finite (calculate_normalized_risk (VStr history)))]> df).

(** [int(df.at[0, "age"])] *)
Definition age_of (df : frame) : result Z :=
  cell <~ at_ df "age" ;; int_of_num cell.

(** The global the age band selects: [scaler_young] up to 25,
    [scaler_rest] above. *)
Definition scaler_for (age : Z) : globals -> option artifact :=
  if (age <=? 25)%Z then scaler_young else scaler_rest.

(** Lines 179-197: scaling of the frame built so far. *)
Definition apply_scaler (df : frame) : M frame :=
  age <- lift (age_of df) ;;
  loaded <- read (scaler_for age) ;;
  scaler_obj <- lift (_ensure_scaler_format loaded) ;;
  match scaler_obj with
  | None => ret df
  | Some d =>
      cols_obj <- lift (getitem d "cols_to_scale") ;;
      scaler <- lift (getitem d "scaler") ;;
      cols <- lift (iter_columns cols_obj) ;;
      match List.filter (fun c => negb (has_key c df)) cols with
      | [] =>
          values <- lift (call_transform scaler (select df cols)) ;;
          lift (assign df cols values)
      | missing => raise (SchemaMismatch missing)
      end
  end.

Definition preprocess_input (input_dict : gmap string pyval) : M frame :=
  df <- lift (encode_fields input_dict) ;;
  apply_scaler df.

(** The global the age band dispatches to. *)
Definition model_for (age : Z) : globals -> option artifact :=
  if (age <=? 25)%Z then model_young else model_rest.

Definition predict (input_dict : gmap string pyval) : M Z :=
  my <- read model_young ;;
  mr <- read model_rest ;;
  match my, mr with
  | Some _, Some _ =>
      df <- preprocess_input input_dict ;;
      age <- lift (age_of df) ;;
      model <- read (model_for age) ;;
      val <- lift (match model with
                   | Some m => call_predict m (row df)
                   | None => Raise AttributeError
                   end) ;;
      rounded <- lift (py_round val) ;;
      ret (Z.max 0 rounded)
  | _, _ => raise ModelsUnavailable
  end.

End Encoder.

(** ** Running the monad *)

(** A computation that hands back the globals it was given. *)
Definition read_only {A} (m : M A) : Prop := forall g, snd (m g) = g.

(** The result of a computation, its final state dropped. *)
Definition run {A} (m : M A) (g : globals) : result A := fst (m g).

Lemma read_only_ret {A} (a : A) : read_only (ret a).
Proof. intros g; reflexivity. Qed.

Lemma read_only_raise {A} (e : exn) : read_only (@raise A e).
Proof. intros g; reflexivity. Qed.

Lemma read_only_lift {A} (r : result A) : read_only (lift r).
Proof. intros g; reflexivity. Qed.

Lemma read_only_read {A} (field : globals -> A) : read_only (read field).
Proof. intros g; reflexivity. Qed.

Lemma read_only_bind {A B} (m : M A) (k : A -> M B) :
  read_only m -> (forall a, read_only (k a)) -> read_only (bind m k).
Proof.
  intros Hm Hk g. unfold bind.
  specialize (Hm g). destruct (m g) as [[a|e] g']; simpl in *; subst g'.
  - apply Hk.
  - reflexivity.
Qed.

Lemma run_bind {A B} (m : M A) (k : A -> M B) (g : globals) :
  read_only m ->
  run (bind m k) g = and_then (run m g) (fun a => run (k a) g).
Proof.
  intros Hm. unfold run, bind. specialize (Hm g).
  destruct (m g) as [[a|e] g']; simpl in *; subst; reflexivity.
Qed.

Lemma run_lift {A} (r : result A) g : run (lift r) g = r.
Proof. reflexivity. Qed.

Lemma run_read {A} (field : globals -> A) g : run (read field) g = Ok (field g).
Proof. reflexivity. Qed.

Lemma read_only_eq {A} (m : M A) g : read_only m -> m g = (run m g, g).
Proof. intros H. unfold run. rewrite <- (H g) at 3. destruct (m g); reflexivity. Qed.

Ltac read_only_steps :=
  repeat first
    [ apply read_only_ret | apply read_only_raise | apply read_only_lift
    | apply read_only_read | apply read_only_bind; [|intros ?]
    | match goal with |- read_only (match ?x with _ => _ end) => destruct x end ].

Lemma apply_scaler_read_only (df : frame) : read_only (apply_scaler df).
Proof. unfold apply_scaler. read_only_steps. Qed.

Lemma preprocess_input_read_only py input : read_only (preprocess_input py input).
Proof.
  unfold preprocess_input. apply read_only_bind; [apply read_only_lift|].
  intros df. apply apply_scaler_read_only.
Qed.

Lemma predict_read_only py input : read_only (predict py input).
Proof.
  unfold predict.
  apply read_only_bind; [apply read_only_read|]. intros my.
  apply read_only_bind; [apply read_only_read|]. intros mr.
  destruct my, mr; try apply read_only_raise.
  apply read_only_bind; [apply preprocess_input_read_only|]. intros df.
  read_only_steps.
Qed.

(** [apply_scaler], [preprocess_input] and [predict] as functions of the
    globals they read. *)
Lemma run_apply_scaler (df : frame) g :
  run (apply_scaler df) g =
  (age <~ age_of df ;;
   scaler_obj <~ _ensure_scaler_format (scaler_for age g) ;;
   match scaler_obj with
   | None => Ok df
   | Some d =>
       cols_obj <~ getitem d "cols_to_scale" ;;
       scaler <~ getitem d "scaler" ;;
       cols <~ iter_columns cols_obj ;;
       match List.filter (fun c => negb (has_key c df)) cols with
       | [] =>
           values <~ call_transform scaler (select df cols) ;;
           assign df cols values
       | missing => Raise (SchemaMismatch missing)
       end
   end).
Proof.
  unfold apply_scaler, run, bind, lift, read, ret, raise, and_then. simpl.
  destruct (age_of df) as [age|]; simpl; [|reflexivity].
  destruct (_ensure_scaler_format (scaler_for age g)) as [[d|]|]; simpl; try reflexivity.
  destruct (getitem d "cols_to_scale") as [cols_obj|]; simpl; [|reflexivity].
  destruct (getitem d "scaler") as [scaler|]; simpl; [|reflexivity].
  destruct (iter_columns cols_obj) as [cols|]; simpl; [|reflexivity].
  destruct (List.filter _ cols); simpl; [|reflexivity].
  destruct (call_transform scaler (select df cols)); reflexivity.
Qed.

Lemma run_preprocess_input py input g :
  run (preprocess_input py input) g =
  (df <~ encode_fields py input ;; run (apply_scaler df) g).
Proof.
  unfold preprocess_input. rewrite run_bind by apply read_only_lift.
  reflexivity.
Qed.

Lemma run_predict py input g :
  run (predict py input) g =
  match model_young g, model_rest g with
  | Some _, Some _ =>
      df <~ run (preprocess_input py input) g ;;
      age <~ age_of df ;;
      val <~ match model_for age g with
             | Some m => call_predict m (row df)
             | None => Raise AttributeError
             end ;;
      rounded <~ py_round val ;;
      Ok (Z.max 0 rounded)
  | _, _ => Raise ModelsUnavailable
  end.
Proof.
  unfold predict.
  rewrite run_bind by apply read_only_read. rewrite run_read. simpl.
  rewrite run_bind by apply read_only_read. rewrite run_read. simpl.
  destruct (model_young g), (model_rest g); try reflexivity.
  rewrite run_bind by apply preprocess_input_read_only.
  destruct (run (preprocess_input py input) g) as [df|]; simpl; [|reflexivity].
  unfold run, bind, lift, read, ret, and_then. simpl.
  destruct (age_of df) as [age|]; simpl; [|reflexivity].
  destruct (match model_for age g with Some m => call_predict m (row df) | None => _ end)
    as [val|]; simpl; [|reflexivity].
  destruct (py_round val); reflexivity.
Qed.

(** ** Rounding *)

(** Modelled from the words of the specification (section 4.3, "treat as
    half-up"): nearest integer, a tie going up. *)
Definition spec_round_half_up (q : Q) : Z :=
  Qfloor (q + (1 # 2))%Q.

Lemma round_half_even_nearest (q : Q) :
  let r := round_half_even q in
  (Qabs (q - inject_Z r) <= 1 # 2)%Q /\
  ((Qabs (q - inject_Z r) == 1 # 2)%Q -> Z.even r = true).
Proof.
  destruct q as [n d]. cbv zeta. unfold round_half_even. simpl Qnum. simpl Qden.
  pose proof (Z.div_mod n (Zpos d) ltac:(lia)) as Hdm.
  pose proof (Z.mod_pos_bound n (Zpos d) ltac:(lia)) as Hb.
  set (fl := n / Zpos d) in *. set (m := n mod Zpos d) in *.
  assert (Habs : forall r : Z,
             (Qabs ((n # d) - inject_Z r) == Z.abs (n - r * Zpos d) # d)%Q).
  { intros r. rewrite Qabs_wd with (y := ((n - r * Zpos d) # d)%Q).
    - reflexivity.
    - unfold Qeq, Qminus, Qplus, Qopp, inject_Z. simpl. lia. }
  assert (Hle : forall k : Z, ((k # d) <= 1 # 2)%Q <-> 2 * k <= Zpos d).
  { intros k. unfold Qle. simpl. lia. }
  assert (Heq : forall k : Z, ((k # d) == 1 # 2)%Q <-> 2 * k = Zpos d).
  { intros k. unfold Qeq. simpl. lia. }
  destruct (Z.compare_spec (2 * m) (Zpos d)) as [He|Hl|Hg].
  - destruct (Z.even fl) eqn:Hev.
    + split.
      * rewrite Habs, Hle. lia.
      * intros _. exact Hev.
    + split.
      * rewrite Habs, Hle. lia.
      * intros _. rewrite Z.even_add. rewrite Hev. reflexivity.
  - split.
    + rewrite Habs, Hle. lia.
    + rewrite Habs, Heq. lia.
  - split.
    + rewrite Habs, Hle. lia.
    + rewrite Habs, Heq. lia.
Qed.

(** ** Sample data *)

(** Built-ins that read no string as a number. *)
Definition plain_builtins : builtins :=
  {| str_to_int := fun _ => None;
     str_to_float := fun _ => None;
     float_to_str := fun _ => "nan" |}.

(** The record of the [__main__] block, with the age left open. *)
Definition sample (age : Z) : gmap string pyval :=
  <["Age" := VInt age]> (<["Number of Dependants" := VInt 0]>
  (<["Income in Lakhs" := VInt 12]> (<["Genetical Risk" := VInt 1]>
  (<["Insurance Plan" := VStr "Silver"]> (<["Employment Status" := VStr "Salaried"]>
  (<["Gender" := VStr "Male"]> (<["Marital Status" := VStr "Unmarried"]>
  (<["BMI Category" := VStr "Normal"]> (<["Smoking Status" := VStr "No Smoking"]>
  (<["Region" := VStr "Northwest"]> (<["Medical History" := VStr "No Disease"]> ∅))))))))))).

(** A regressor that answers [q] whatever the row. *)
Definition constant_model (q : Q) : artifact :=
  Plain (Regressor (fun _ => Returns (Finite q))).

(** A scaler that divides every cell by 100. *)
Definition percent (cells : list num) : outcome (list pyfloat) :=
  Returns (map (fun c => match c with
                         | NInt z => Finite (inject_Z z / 100)%Q
                         | NFloat (Finite q) => Finite (q / 100)%Q
                         | NFloat f => f
                         end) cells).

(** The frame [preprocess_input] builds from a record, empty if it raises. *)
Definition frame_of py (input : gmap string pyval) (g : globals) : frame :=
  match run (preprocess_input py input) g with
  | Ok df => df
  | Raise _ => ∅
  end.

Definition is_ok {A} (r : result A) : bool :=
  match r with Ok _ => true | Raise _ => false end.

Lemma frame_of_ok py input g :
  is_ok (run (preprocess_input py input) g) = true ->
  run (preprocess_input py input) g = Ok (frame_of py input g).
Proof.
  unfold frame_of. destruct (run (preprocess_input py input) g); simpl.
  - reflexivity.
  - discriminate.
Qed.

(** Two recognisable models and no scaler. *)
Definition unscaled_globals : globals :=
  {| model_young := Some (constant_model 111);
     model_rest := Some (constant_model 222);
     scaler_young := None;
     scaler_rest := None |}.

(** The same models, and a bare scaler for the band above 25. *)
Definition scaled_globals : globals :=
  {| model_young := Some (constant_model 111);
     model_rest := Some (constant_model 222);
     scaler_young := None;
     scaler_rest := Some (Plain (Scaler percent)) |}.

(** Both models answer the tie 5/2. *)
Definition tie_globals : globals :=
  {| model_young := Some (constant_model (5 # 2));
     model_rest := Some (constant_model (5 # 2));
     scaler_young := None;
     scaler_rest := None |}.

(** A bundle for the band above 25 that names a column the frame lacks. *)
Definition drifted_globals : globals :=
  {| model_young := Some (constant_model 111);
     model_rest := Some (constant_model 222);
     scaler_young := None;
     scaler_rest :=
       Some (Dict (<["scaler" := Scaler percent]>
                   (<["cols_to_scale" := Columns ["age"; "income_level"]]> ∅))) |}.

(** ** Properties of [predict] *)

Lemma predict_success py input g df age m q :
  model_young g <> None -> model_rest g <> None ->
  run (preprocess_input py input) g = Ok df ->
  age_of df = Ok age ->
  model_for age g = Some m ->
  call_predict m (row df) = Ok (Finite q) ->
  run (predict py input) g = Ok (Z.max 0 (round_half_even q)).
Proof.
  intros Hy Hr Hdf Hage Hm Hcall. rewrite run_predict.
  destruct (model_young g); [|congruence].
  destruct (model_rest g); [|congruence].
  rewrite Hdf. simpl. rewrite Hage. simpl. rewrite Hm, Hcall. reflexivity.
Qed.

Lemma predict_value_nonnegative py input g v :
  run (predict py input) g = Ok v -> 0 <= v.
Proof.
  rewrite run_predict.
  destruct (model_young g); [|discriminate].
  destruct (model_rest g); [|discriminate].
  destruct (run (preprocess_input py input) g) as [df|]; simpl; [|discriminate].
  destruct (age_of df) as [age|]; simpl; [|discriminate].
  destruct (match model_for age g with Some m => _ | None => _ end) as [val|];
    simpl; [|discriminate].
  destruct (py_round val) as [r|]; simpl; [|discriminate].
  intros [= <-]. lia.
Qed.

(** C1. Whenever [predict] returns, the value it returns is a non-negative
    integer; and it does return one when both models are loaded, the
    encoding goes through and the selected model answers a finite number. *)
Theorem predict_returns_nonnegative py input g :
  (forall v, run (predict py input) g = Ok v -> 0 <= v) /\
  (forall df age m q,
      model_young g <> None -> model_rest g <> None ->
      run (preprocess_input py input) g = Ok df ->
      age_of df = Ok age ->
      model_for age g = Some m ->
      call_predict m (row df) = Ok (Finite q) ->
      exists v, run (predict py input) g = Ok v /\ 0 <= v).
Proof.
  split.
  - intros v. apply predict_value_nonnegative.
  - intros df age m q Hy Hr Hdf Hage Hm Hcall.
    exists (Z.max 0 (round_half_even q)). split; [|lia].
    eapply predict_success; eassumption.
Qed.

Lemma predict_returns_nonnegative_witness :
  0 <= 222 /\
  exists v, run (predict plain_builtins (sample 30)) unscaled_globals = Ok v /\ 0 <= v.
Proof.
  split.
  - apply (proj1 (predict_returns_nonnegative plain_builtins (sample 30) unscaled_globals) 222).
    vm_compute. reflexivity.
  - eapply (proj2 (predict_returns_nonnegative plain_builtins (sample 30) unscaled_globals)
              (frame_of plain_builtins (sample 30) unscaled_globals)
              30 (constant_model 222) 222%Q).
    + discriminate.
    + discriminate.
    + apply frame_of_ok. vm_compute. reflexivity.
    + vm_compute. reflexivity.
    + reflexivity.
    + reflexivity.
Defined.

Lemma round_half_even_off_tie (q : Q) :
  2 * (Qnum q mod Zpos (Qden q)) <> Zpos (Qden q) ->
  round_half_even q = spec_round_half_up q.
Proof.
  destruct q as [n d]. unfold round_half_even, spec_round_half_up. simpl.
  intros Hne.
  pose proof (Z.div_mod n (Zpos d) ltac:(lia)) as Hdm.
  pose proof (Z.mod_pos_bound n (Zpos d) ltac:(lia)) as Hb.
  set (fl := n / Zpos d) in *. set (m := n mod Zpos d) in *.
  replace (Zpos (d * 2)) with (2 * Zpos d) by lia.
  destruct (Z.compare_spec (2 * m) (Zpos d)) as [He|Hl|Hg]; [lia| |].
  - apply Z.div_unique with (r := 2 * m + Zpos d); lia.
  - apply Z.div_unique with (r := 2 * m - Zpos d); lia.
Qed.

(** C3, as the code has it. The value a finite model output [q] is turned
    into is [max 0 r], where [r] is the integer nearest to [q] and, when [q]
    lies halfway between two integers, the even one of the two. *)
Theorem predict_rounds_half_even py input g df age m q :
  model_young g <> None -> model_rest g <> None ->
  run (preprocess_input py input) g = Ok df ->
  age_of df = Ok age ->
  model_for age g = Some m ->
  call_predict m (row df) = Ok (Finite q) ->
  let r := round_half_even q in
  run (predict py input) g = Ok (Z.max 0 r) /\
  (Qabs (q - inject_Z r) <= 1 # 2)%Q /\
  ((Qabs (q - inject_Z r) == 1 # 2)%Q -> Z.even r = true) /\
  (2 * (Qnum q mod Zpos (Qden q)) <> Zpos (Qden q) -> r = spec_round_half_up q).
Proof.
  intros Hy Hr Hdf Hage Hm Hcall r. split; [|split; [|split]].
  - eapply predict_success; eassumption.
  - apply round_half_even_nearest.
  - apply round_half_even_nearest.
  - apply round_half_even_off_tie.
Qed.

Lemma predict_rounds_half_even_witness :
  run (predict plain_builtins (sample 30)) tie_globals = Ok 2.
Proof.
  edestruct (predict_rounds_half_even plain_builtins (sample 30) tie_globals
               (frame_of plain_builtins (sample 30) tie_globals)
               30 (constant_model (5 # 2)) (5 # 2)%Q) as [H _].
  - discriminate.
  - discriminate.
  - apply frame_of_ok. vm_compute. reflexivity.
  - vm_compute. reflexivity.
  - reflexivity.
  - reflexivity.
  - exact H.
Defined.

(** C3, as stated, fails: the model answers 5/2, half-up rounding gives 3,
    [predict] returns 2. *)
Lemma half_up_fails_on_tie :
  model_for 30 tie_globals = Some (constant_model (5 # 2)) /\
  run (predict plain_builtins (sample 30)) tie_globals = Ok 2 /\
  Z.max 0 (spec_round_half_up (5 # 2)) = 3.
Proof. vm_compute. repeat split; reflexivity. Qed.

(** C4. With a scaler that covers the age column, [predict] compares the
    scaled age with 25: the record aged 26 gets the scaler of the band above
    25 and then the model of the band up to 25, the same model as the record
    aged 25.  Without a scaler the two records reach different models. *)
Theorem dispatch_reads_scaled_age :
  scaler_for 26 scaled_globals = scaler_rest scaled_globals /\
  model_for 26 scaled_globals = Some (constant_model 222) /\
  run (predict plain_builtins (sample 26)) scaled_globals = Ok 111 /\
  run (predict plain_builtins (sample 25)) scaled_globals = Ok 111 /\
  run (predict plain_builtins (sample 26)) unscaled_globals = Ok 222 /\
  run (predict plain_builtins (sample 25)) unscaled_globals = Ok 111.
Proof. vm_compute. repeat split; reflexivity. Qed.

(** ** Where [RuntimeError] can come from *)

(** A result that is not a [RuntimeError]. *)
Definition quiet {A} (r : result A) : Prop :=
  forall msg, r <> Raise (RuntimeError msg).

Lemma quiet_Ok {A} (a : A) : quiet (Ok a).
Proof. intros msg; discriminate. Qed.

Lemma quiet_and_then {A B} (r : result A) (k : A -> result B) :
  quiet r -> (forall a, quiet (k a)) -> quiet (and_then r k).
Proof.
  intros Hr Hk msg. destruct r as [a|e]; simpl.
  - apply Hk.
  - intros [= ->]. apply (Hr msg). reflexivity.
Qed.

Lemma quiet_lift_outcome {A} (o : outcome A) : quiet (lift_outcome o).
Proof. destruct o; intros msg; discriminate. Qed.

Lemma quiet_int_of_float f : quiet (int_of_float f).
Proof. destruct f; intros msg; discriminate. Qed.

Lemma quiet_py_int py v : quiet (py_int py v).
Proof.
  destruct v; simpl; try (intros msg; discriminate).
  - apply quiet_int_of_float.
  - destruct (str_to_int py s); intros msg; discriminate.
Qed.

Lemma quiet_py_float py v : quiet (py_float py v).
Proof.
  destruct v; simpl; try (intros msg; discriminate).
  - unfold float_of_int.
    destruct (float_limit <=? nearest_float (Z.abs z))%Z; intros msg; discriminate.
  - destruct (str_to_float py s); intros msg; discriminate.
Qed.

Lemma quiet_method_lower v : quiet (method_lower v).
Proof. destruct v; intros msg; discriminate. Qed.

Lemma quiet_encode_fields py input : quiet (encode_fields py input).
Proof.
  unfold encode_fields.
  apply quiet_and_then; [apply quiet_py_int|intros age].
  apply quiet_and_then; [apply quiet_py_int|intros dependants].
  apply quiet_and_then; [apply quiet_py_float|intros income].
  apply quiet_and_then; [apply quiet_py_float|intros risk].
  apply quiet_and_then; [apply quiet_method_lower|intros gender].
  apply quiet_Ok.
Qed.

Lemma quiet_age_of (df : frame) : quiet (age_of df).
Proof.
  unfold age_of, at_. destruct (df !! "age") as [[z|f]|]; simpl;
    try (intros msg; discriminate).
  apply quiet_int_of_float.
Qed.

Lemma quiet_ensure_scaler_format o : quiet (_ensure_scaler_format o).
Proof.
  destruct o as [[o|d]|]; simpl; try (intros msg; discriminate).
  destruct (has_key "scaler" d && has_key "cols_to_scale" d);
    intros msg; discriminate.
Qed.

Lemma quiet_getitem {V} (d : gmap string V) k : quiet (getitem d k).
Proof. unfold getitem. destruct (d !! k); intros msg; discriminate. Qed.

Lemma quiet_apply_scaler (df : frame) g : quiet (run (apply_scaler df) g).
Proof.
  rewrite run_apply_scaler.
  apply quiet_and_then; [apply quiet_age_of|intros age].
  apply quiet_and_then; [apply quiet_ensure_scaler_format|intros [d|]];
    [|apply quiet_Ok].
  apply quiet_and_then; [apply quiet_getitem|intros cols_obj].
  apply quiet_and_then; [apply quiet_getitem|intros scaler].
  apply quiet_and_then; [destruct cols_obj; intros msg; discriminate|intros cols].
  destruct (List.filter _ cols); [|intros msg; discriminate].
  apply quiet_and_then.
  - destruct scaler; simpl; try (intros msg; discriminate). apply quiet_lift_outcome.
  - intros values. unfold assign.
    destruct (Nat.eqb _ _); intros msg; discriminate.
Qed.

Lemma quiet_preprocess_input py input g : quiet (run (preprocess_input py input) g).
Proof.
  rewrite run_preprocess_input.
  apply quiet_and_then; [apply quiet_encode_fields|intros df].
  apply quiet_apply_scaler.
Qed.

Lemma quiet_predict_loaded py input g :
  model_young g <> None -> model_rest g <> None ->
  quiet (run (predict py input) g).
Proof.
  intros Hy Hr. rewrite run_predict.
  destruct (model_young g); [|congruence].
  destruct (model_rest g); [|congruence].
  apply quiet_and_then; [apply quiet_preprocess_input|intros df].
  apply quiet_and_then; [apply quiet_age_of|intros age].
  apply quiet_and_then.
  - destruct (model_for age g) as [[[f|t|c]|d]|]; simpl;
      try (intros msg; discriminate).
    apply quiet_lift_outcome.
  - intros val. apply quiet_and_then; [|intros r; apply quiet_Ok].
    destruct val; intros msg; discriminate.
Qed.

Lemma import_module_models dir :
  match _load_artifact dir "model_young.joblib",
        _load_artifact dir "model_rest.joblib" with
  | Ok my, Ok mr =>
      model_young (import_module dir) = Some my /\
      model_rest (import_module dir) = Some mr
  | _, _ =>
      model_young (import_module dir) = None /\
      model_rest (import_module dir) = None
  end.
Proof.
  unfold import_module.
  destruct (_load_artifact dir "model_young.joblib");
    destruct (_load_artifact dir "model_rest.joblib"); simpl; auto.
Qed.

(** C7. Importing the module never raises: it yields globals in which both
    models are [None] as soon as one of the two fails to load.  [predict]
    on those globals raises [ModelsUnavailable] exactly when one of the two
    model files failed to load; what the scaler files hold plays no part, and
    with both models loaded no scaler state leads to that error. *)
Theorem models_unavailable_iff py input :
  (forall dir,
      run (predict py input) (import_module dir) = Raise ModelsUnavailable <->
      (exists e, _load_artifact dir "model_young.joblib" = Raise e) \/
      (exists e, _load_artifact dir "model_rest.joblib" = Raise e)) /\
  (forall g,
      model_young g <> None -> model_rest g <> None ->
      run (predict py input) g <> Raise ModelsUnavailable).
Proof.
  split.
  - intros dir. pose proof (import_module_models dir) as Hm. split.
    + intros Hraise.
      destruct (_load_artifact dir "model_young.joblib") as [my|ey]; [|eauto].
      destruct (_load_artifact dir "model_rest.joblib") as [mr|er]; [|eauto].
      destruct Hm as [Hy Hr]. exfalso.
      apply (quiet_predict_loaded py input (import_module dir)) in Hraise;
        [assumption|congruence|congruence].
    + intros Hfail. rewrite run_predict.
      assert (Hnone : model_young (import_module dir) = None /\
                      model_rest (import_module dir) = None).
      { destruct Hfail as [[e He]|[e He]]; rewrite He in Hm.
        - exact Hm.
        - destruct (_load_artifact dir "model_young.joblib"); exact Hm. }
      destruct Hnone as [Hy _]. rewrite Hy. reflexivity.
  - intros g Hy Hr. apply quiet_predict_loaded; assumption.
Qed.

Lemma models_unavailable_iff_witness :
  run (predict plain_builtins (sample 30)) (import_module ∅) = Raise ModelsUnavailable /\
  run (predict plain_builtins (sample 30)) unscaled_globals <> Raise ModelsUnavailable.
Proof.
  split.
  - apply (proj1 (models_unavailable_iff plain_builtins (sample 30))).
    left. eexists. vm_compute. reflexivity.
  - apply (proj2 (models_unavailable_iff plain_builtins (sample 30))).
    + discriminate.
    + discriminate.
Defined.

(** ** The scaler bundle *)

(** The dict a bare scaler is wrapped in. *)
Definition default_bundle (o : obj) : gmap string obj :=
  <["scaler" := o]> (<["cols_to_scale" := Columns ["age"; "income_lakhs"]]> ∅).

Lemma has_key_true {V} k (d : gmap string V) : has_key k d = true <-> is_Some (d !! k).
Proof.
  unfold has_key. destruct (d !! k); split; intros H; try reflexivity.
  - eauto.
  - discriminate.
  - destruct H; discriminate.
Qed.

Lemma has_key_false {V} k (d : gmap string V) : has_key k d = false <-> d !! k = None.
Proof.
  unfold has_key. destruct (d !! k); split; intros H; try reflexivity; discriminate.
Qed.

(** C10. [_ensure_scaler_format] decides every loaded value by one of four
    cases: [None] stays [None], and [apply_scaler] then returns the frame
    untouched; an object that is not a dict becomes the bundle of that object
    with the columns [age] and [income_lakhs] and nothing else; a dict holding
    both keys is returned as it is; a dict lacking one of them raises the
    [ValueError] of the function. *)
Theorem ensure_scaler_format_cases :
  (_ensure_scaler_format None = Ok None /\
   forall (df : frame) age g,
     age_of df = Ok age -> scaler_for age g = None ->
     run (apply_scaler df) g = Ok df) /\
  (forall o,
     exists d, _ensure_scaler_format (Some (Plain o)) = Ok (Some d) /\
               d !! "scaler" = Some o /\
               d !! "cols_to_scale" = Some (Columns ["age"; "income_lakhs"]) /\
               forall k, k <> "scaler" -> k <> "cols_to_scale" -> d !! k = None) /\
  (forall d,
     is_Some (d !! "scaler") -> is_Some (d !! "cols_to_scale") ->
     _ensure_scaler_format (Some (Dict d)) = Ok (Some d)) /\
  (forall d,
     d !! "scaler" = None \/ d !! "cols_to_scale" = None ->
     _ensure_scaler_format (Some (Dict d)) = Raise (ValueError scaler_dict_msg [])) /\
  (forall scaler_obj,
     scaler_obj = None \/
     (exists o, scaler_obj = Some (Plain o)) \/
     (exists d, scaler_obj = Some (Dict d) /\
                is_Some (d !! "scaler") /\ is_Some (d !! "cols_to_scale")) \/
     (exists d, scaler_obj = Some (Dict d) /\
                (d !! "scaler" = None \/ d !! "cols_to_scale" = None))).
Proof.
  split; [|split; [|split; [|split]]].
  - split; [reflexivity|].
    intros df age g Hage Hnone. rewrite run_apply_scaler, Hage. simpl.
    rewrite Hnone. reflexivity.
  - intros o. exists (default_bundle o). unfold default_bundle.
    split; [reflexivity|]. split; [|split].
    + apply lookup_insert_eq.
    + rewrite lookup_insert_ne by discriminate. apply lookup_insert_eq.
    + intros k Hs Hc. rewrite !lookup_insert_ne by congruence. apply lookup_empty.
  - intros d Hs Hc. simpl.
    apply has_key_true in Hs. apply has_key_true in Hc. rewrite Hs, Hc. reflexivity.
  - intros d [H|H]; simpl; apply has_key_false in H; rewrite H.
    + reflexivity.
    + rewrite andb_false_r. reflexivity.
  - intros [[o|d]|]; [right; left; eauto| |left; reflexivity].
    right; right.
    destruct (d !! "scaler") as [s|] eqn:Hs;
      destruct (d !! "cols_to_scale") as [c|] eqn:Hc.
    + left. exists d. rewrite Hs, Hc. eauto.
    + right. exists d. rewrite Hc. eauto.
    + right. exists d. rewrite Hs. eauto.
    + right. exists d. rewrite Hs. eauto.
Qed.

Lemma ensure_scaler_format_cases_witness :
  run (apply_scaler (frame_of plain_builtins (sample 30) unscaled_globals))
      unscaled_globals
  = Ok (frame_of plain_builtins (sample 30) unscaled_globals) /\
  _ensure_scaler_format (Some (Dict (default_bundle (Scaler percent))))
  = Ok (Some (default_bundle (Scaler percent))) /\
  _ensure_scaler_format (Some (Dict ∅)) = Raise (ValueError scaler_dict_msg []).
Proof.
  pose proof ensure_scaler_format_cases as [[_ H1] [_ [H3 [H4 _]]]].
  split; [|split].
  - apply (H1 _ 30).
    + vm_compute. reflexivity.
    + reflexivity.
  - apply H3.
    + eexists. vm_compute. reflexivity.
    + eexists. vm_compute. reflexivity.
  - apply H4. left. reflexivity.
Defined.

(** ** The frame [encode_fields] builds *)

(** The frame of lines 126-177 for given coerced numeric fields and a given
    lowercased gender. *)
Definition encoded py (input_dict : gmap string pyval)
    (age dependants : Z) (income risk : pyfloat) (gender : string) : frame :=
  <["normalized_risk_score" :=
      NFloat (Finite (calculate_normalized_risk
                        (VStr (py_str py (get input_dict "Medical History"
                                              (VStr EmptyString))))))]>
  (set_employment_status (category py input_dict "Employment Status")
  (set_smoking_status (category py input_dict "Smoking Status")
  (set_bmi_category (category py input_dict "BMI Category")
  (set_marital_status (category py input_dict "Marital Status")
  (set_region (category py input_dict "Region")
  (set_gender gender
  (<["insurance_plan" :=
       NInt (insurance_code (get input_dict "Insurance Plan" (VStr "Bronze")))]>
  (<["genetical_risk" := NFloat risk]>
  (<["income_lakhs" := NFloat income]>
  (<["number_of_dependants" := NInt dependants]>
  (<["age" := NInt age]> (DataFrame_zeros _EXPECTED_COLUMNS)))))))))))).

Lemma Ok_inj {A} (a b : A) : Ok a = Ok b -> a = b.
Proof. intros [= H]. exact H. Qed.

Lemma encode_fields_inv py input df :
  encode_fields py input = Ok df ->
  exists age dependants income risk gender,
    py_int py (get input "Age" (VInt 0)) = Ok age /\
    py_int py (get input "Number of Dependants" (VInt 0)) = Ok dependants /\
    py_float py (get input "Income in Lakhs" (VFloat (Finite 0))) = Ok income /\
    py_float py (get input "Genetical Risk" (VFloat (Finite 0))) = Ok risk /\
    get input "Gender" (VStr EmptyString) = VStr gender /\
    df = encoded py input age dependants income risk (Str.lower gender).
Proof.
  unfold encode_fields.
  destruct (py_int py (get input "Age" (VInt 0))) as [age|]; [|discriminate].
  destruct (py_int py (get input "Number of Dependants" (VInt 0)))
    as [dependants|]; [|discriminate].
  destruct (py_float py (get input "Income in Lakhs" (VFloat (Finite 0))))
    as [income|]; [|discriminate].
  destruct (py_float py (get input "Genetical Risk" (VFloat (Finite 0))))
    as [risk|]; [|discriminate].
  destruct (get input "Gender" (VStr EmptyString)) as [| | | |gender];
    try discriminate.
  cbv beta iota delta [and_then method_lower]. intros Heq.
  exists age, dependants, income, risk, gender.
  repeat (split; [reflexivity|]).
  symmetry. apply Ok_inj. exact Heq.
Qed.

Lemma encode_fields_complete py input age dependants income risk gender :
  py_int py (get input "Age" (VInt 0)) = Ok age ->
  py_int py (get input "Number of Dependants" (VInt 0)) = Ok dependants ->
  py_float py (get input "Income in Lakhs" (VFloat (Finite 0))) = Ok income ->
  py_float py (get input "Genetical Risk" (VFloat (Finite 0))) = Ok risk ->
  get input "Gender" (VStr EmptyString) = VStr gender ->
  encode_fields py input =
  Ok (encoded py input age dependants income risk (Str.lower gender)).
Proof.
  intros Ha Hd Hi Hr Hg. unfold encode_fields.
  rewrite Ha, Hd, Hi, Hr, Hg. reflexivity.
Qed.

(** Each block leaves the columns of the other groups alone. *)
Lemma set_gender_other v (df : frame) k :
  k <> "gender_Male" -> set_gender v df !! k = df !! k.
Proof.
  intros H. unfold set_gender. destruct (String.eqb v "male"); [|reflexivity].
  apply lookup_insert_ne. congruence.
Qed.

Lemma set_region_other v (df : frame) k :
  k <> "region_Northwest" -> k <> "region_Southeast" -> k <> "region_Southwest" ->
  set_region v df !! k = df !! k.
Proof.
  intros H1 H2 H3. unfold set_region.
  repeat (destruct (String.eqb v _); [apply lookup_insert_ne; congruence|]).
  reflexivity.
Qed.

Lemma set_marital_status_other v (df : frame) k :
  k <> "marital_status_Unmarried" -> set_marital_status v df !! k = df !! k.
Proof.
  intros H. unfold set_marital_status.
  destruct (String.eqb v "Unmarried"); [|reflexivity].
  apply lookup_insert_ne. congruence.
Qed.

Lemma set_bmi_category_other v (df : frame) k :
  k <> "bmi_category_Obesity" -> k <> "bmi_category_Overweight" ->
  k <> "bmi_category_Underweight" ->
  set_bmi_category v df !! k = df !! k.
Proof.
  intros H1 H2 H3. unfold set_bmi_category.
  repeat (destruct (String.eqb v _); [apply lookup_insert_ne; congruence|]).
  reflexivity.
Qed.

Lemma set_smoking_status_other v (df : frame) k :
  k <> "smoking_status_Occasional" -> k <> "smoking_status_Regular" ->
  set_smoking_status v df !! k = df !! k.
Proof.
  intros H1 H2. unfold set_smoking_status.
  repeat (destruct (String.eqb v _); [apply lookup_insert_ne; congruence|]).
  reflexivity.
Qed.

Lemma set_employment_status_other v (df : frame) k :
  k <> "employment_status_Salaried" -> k <> "employment_status_Self-Employed" ->
  set_employment_status v df !! k = df !! k.
Proof.
  intros H1 H2. unfold set_employment_status.
  repeat (destruct (String.eqb v _); [apply lookup_insert_ne; congruence|]).
  reflexivity.
Qed.

(** A block sets the flag of a category exactly for the name of that
    category.  [chain] is the shape every block has: the first test that
    passes writes its column. *)
Lemma flag_of_chain (b : bool) (hit else_ : frame) k :
  (if b then hit else else_) !! k = if b then hit !! k else else_ !! k.
Proof. destruct b; reflexivity. Qed.

Ltac flag_cases v :=
  repeat match goal with
         | |- context [String.eqb v ?name] =>
             destruct (String.eqb_spec v name); subst
         end;
  try discriminate;
  rewrite ?lookup_insert_eq; rewrite ?lookup_insert_ne by discriminate;
  try reflexivity; try congruence.

Lemma set_gender_flag v (df : frame) :
  set_gender v df !! "gender_Male" =
  if String.eqb v "male" then Some (NInt 1) else df !! "gender_Male".
Proof. unfold set_gender. flag_cases v. Qed.

Lemma set_region_flag v (df : frame) name :
  name = "Northwest" \/ name = "Southeast" \/ name = "Southwest" ->
  set_region v df !! ("region_" ++ name) =
  if String.eqb v name then Some (NInt 1) else df !! ("region_" ++ name).
Proof.
  intros [-> | [-> | ->]]; unfold set_region; simpl; flag_cases v.
Qed.

Lemma set_marital_status_flag v (df : frame) :
  set_marital_status v df !! "marital_status_Unmarried" =
  if String.eqb v "Unmarried" then Some (NInt 1)
  else df !! "marital_status_Unmarried".
Proof. unfold set_marital_status. flag_cases v. Qed.

Lemma set_bmi_category_flag v (df : frame) name :
  name = "Obesity" \/ name = "Overweight" \/ name = "Underweight" ->
  set_bmi_category v df !! ("bmi_category_" ++ name) =
  if String.eqb v name then Some (NInt 1) else df !! ("bmi_category_" ++ name).
Proof.
  intros [-> | [-> | ->]]; unfold set_bmi_category; simpl; flag_cases v.
Qed.

Lemma set_smoking_status_flag v (df : frame) name :
  name = "Occasional" \/ name = "Regular" ->
  set_smoking_status v df !! ("smoking_status_" ++ name) =
  if String.eqb v name then Some (NInt 1) else df !! ("smoking_status_" ++ name).
Proof.
  intros [-> | ->]; unfold set_smoking_status; simpl; flag_cases v.
Qed.

Lemma set_employment_status_flag v (df : frame) name :
  name = "Salaried" \/ name = "Self-Employed" ->
  set_employment_status v df !! ("employment_status_" ++ name) =
  if String.eqb v name then Some (NInt 1)
  else df !! ("employment_status_" ++ name).
Proof.
  intros [-> | ->]; unfold set_employment_status; simpl; flag_cases v.
Qed.

(** The columns of the frame never change. *)
Definition expected_set : gset string := list_to_set _EXPECTED_COLUMNS.

Lemma dom_zeros (cols : list string) :
  dom (DataFrame_zeros cols) = (list_to_set cols : gset string).
Proof.
  induction cols as [|c cols IH]; simpl.
  - apply dom_empty_L.
  - rewrite dom_insert_L, IH. reflexivity.
Qed.

Lemma in_expected_set k : k ∈ _EXPECTED_COLUMNS -> k ∈ expected_set.
Proof. intros H. unfold expected_set. apply elem_of_list_to_set. exact H. Qed.

Lemma union_absorbs (D : gset string) (k : string) : k ∈ D -> {[k]} ∪ D = D.
Proof.
  intros H. apply set_eq. intros x. rewrite elem_of_union, elem_of_singleton.
  split; [intros [->|]; assumption | auto].
Qed.

Lemma dom_insert_expected (df : frame) k v :
  dom df = expected_set -> k ∈ _EXPECTED_COLUMNS ->
  dom (<[k := v]> df) = expected_set.
Proof.
  intros Hd Hk. apply in_expected_set in Hk. rewrite dom_insert_L, Hd.
  apply union_absorbs, Hk.
Qed.

Ltac expected_column := refine (bool_decide_unpack _ _); vm_compute; exact I.

Ltac dom_block :=
  repeat match goal with
         | |- context [if ?b then _ else _] => destruct b
         end;
  first [ assumption
        | apply dom_insert_expected; [assumption | expected_column] ].

Lemma dom_encoded py input age dependants income risk gender :
  dom (encoded py input age dependants income risk gender) = expected_set.
Proof.
  unfold encoded.
  apply dom_insert_expected; [|expected_column].
  assert (H0 : dom (DataFrame_zeros _EXPECTED_COLUMNS) = expected_set)
    by apply dom_zeros.
  set (f0 := DataFrame_zeros _EXPECTED_COLUMNS) in *.
  assert (H1 : dom (<["age" := NInt age]> f0) = expected_set)
    by (apply dom_insert_expected; [assumption | expected_column]).
  set (f1 := <["age" := NInt age]> f0) in *.
  assert (H2 : dom (<["number_of_dependants" := NInt dependants]> f1) = expected_set)
    by (apply dom_insert_expected; [assumption | expected_column]).
  set (f2 := <["number_of_dependants" := NInt dependants]> f1) in *.
  assert (H3 : dom (<["income_lakhs" := NFloat income]> f2) = expected_set)
    by (apply dom_insert_expected; [assumption | expected_column]).
  set (f3 := <["income_lakhs" := NFloat income]> f2) in *.
  assert (H4 : dom (<["genetical_risk" := NFloat risk]> f3) = expected_set)
    by (apply dom_insert_expected; [assumption | expected_column]).
  set (f4 := <["genetical_risk" := NFloat risk]> f3) in *.
  match goal with
  | |- context [<["insurance_plan" := ?v]> f4] =>
      assert (H5 : dom (<["insurance_plan" := v]> f4) = expected_set)
        by (apply dom_insert_expected; [assumption | expected_column]);
      set (f5 := <["insurance_plan" := v]> f4) in *
  end.
  assert (H6 : dom (set_gender gender f5) = expected_set)
    by (unfold set_gender; dom_block).
  set (f6 := set_gender gender f5) in *.
  assert (H7 : dom (set_region (category py input "Region") f6) = expected_set)
    by (unfold set_region; dom_block).
  set (f7 := set_region _ f6) in *.
  assert (H8 : dom (set_marital_status (category py input "Marital Status") f7)
               = expected_set)
    by (unfold set_marital_status; dom_block).
  set (f8 := set_marital_status _ f7) in *.
  assert (H9 : dom (set_bmi_category (category py input "BMI Category") f8)
               = expected_set)
    by (unfold set_bmi_category; dom_block).
  set (f9 := set_bmi_category _ f8) in *.
  assert (H10 : dom (set_smoking_status (category py input "Smoking Status") f9)
                = expected_set)
    by (unfold set_smoking_status; dom_block).
  set (f10 := set_smoking_status _ f9) in *.
  unfold set_employment_status; dom_block.
Qed.

Lemma has_key_encoded py input age dependants income risk gender c :
  has_key c (encoded py input age dependants income risk gender) = true
  <-> c ∈ _EXPECTED_COLUMNS.
Proof.
  rewrite has_key_true, <- elem_of_dom, dom_encoded.
  unfold expected_set. apply elem_of_list_to_set.
Qed.

(** ** Cells of the encoded frame *)

Ltac skip_blocks :=
  repeat first
    [ rewrite lookup_insert_ne by discriminate
    | rewrite set_employment_status_other by discriminate
    | rewrite set_smoking_status_other by discriminate
    | rewrite set_bmi_category_other by discriminate
    | rewrite set_marital_status_other by discriminate
    | rewrite set_region_other by discriminate
    | rewrite set_gender_other by discriminate ].

Lemma zeros_lookup k :
  k ∈ _EXPECTED_COLUMNS -> DataFrame_zeros _EXPECTED_COLUMNS !! k = Some (NInt 0).
Proof.
  intros H. apply list_elem_of_In in H. simpl in H.
  repeat (destruct H as [<-|H]; [vm_compute; reflexivity|]).
  destruct H.
Qed.

Lemma encoded_age py input age dependants income risk gender :
  encoded py input age dependants income risk gender !! "age" = Some (NInt age).
Proof. unfold encoded. skip_blocks. apply lookup_insert_eq. Qed.

Lemma encoded_insurance_plan py input age dependants income risk gender :
  encoded py input age dependants income risk gender !! "insurance_plan" =
  Some (NInt (insurance_code (get input "Insurance Plan" (VStr "Bronze")))).
Proof. unfold encoded. skip_blocks. apply lookup_insert_eq. Qed.

Lemma age_of_encoded py input age dependants income risk gender :
  age_of (encoded py input age dependants income risk gender) = Ok age.
Proof. unfold age_of, at_. rewrite encoded_age. reflexivity. Qed.

(** [d.get(s, 1)] on [_INSURANCE_ENCODING], key by key. *)
Lemma insurance_lookup (s : string) :
  default 1 (_INSURANCE_ENCODING !! s) =
  if String.eqb s "Bronze" then 1
  else if String.eqb s "Silver" then 2
  else if String.eqb s "Gold" then 3
  else 1.
Proof.
  unfold _INSURANCE_ENCODING.
  destruct (String.eqb_spec s "Bronze") as [->|Hb]; [reflexivity|].
  rewrite lookup_insert_ne by congruence.
  destruct (String.eqb_spec s "Silver") as [->|Hs]; [reflexivity|].
  rewrite lookup_insert_ne by congruence.
  destruct (String.eqb_spec s "Gold") as [->|Hg]; [reflexivity|].
  rewrite lookup_insert_ne by congruence.
  reflexivity.
Qed.

(** The columns the selected bundle names, [[]] when there is none. *)
Definition scaled_columns (age : Z) (g : globals) : list string :=
  match _ensure_scaler_format (scaler_for age g) with
  | Ok (Some d) =>
      match d !! "cols_to_scale" with
      | Some (Columns cols) => cols
      | _ => []
      end
  | _ => []
  end.

Lemma assign_other (cols : list string) :
  forall (values : list pyfloat) (df df' : frame) k,
    assign df cols values = Ok df' -> k ∉ cols -> df' !! k = df !! k.
Proof.
  unfold assign. intros values df df' k.
  destruct (Nat.eqb (List.length cols) (List.length values)); [|discriminate].
  intros H. apply Ok_inj in H. subst df'. revert values df.
  induction cols as [|c cols IH]; intros values df Hk; [reflexivity|].
  destruct values as [|v values]; [reflexivity|].
  simpl. rewrite IH by (intros Hin; apply Hk; right; exact Hin).
  apply lookup_insert_ne. intros ->. apply Hk. left.
Qed.

Lemma apply_scaler_other (df df' : frame) g age k :
  age_of df = Ok age ->
  run (apply_scaler df) g = Ok df' ->
  k ∉ scaled_columns age g ->
  df' !! k = df !! k.
Proof.
  intros Hage. rewrite run_apply_scaler, Hage. unfold scaled_columns. simpl.
  destruct (_ensure_scaler_format (scaler_for age g)) as [[d|]|]; simpl;
    [| intros H _; apply Ok_inj in H; subst; reflexivity | discriminate].
  unfold getitem.
  destruct (d !! "cols_to_scale") as [cols_obj|]; simpl; [|discriminate].
  destruct (d !! "scaler") as [scaler|]; simpl; [|discriminate].
  destruct cols_obj as [f|t|cols]; simpl; try discriminate.
  destruct (List.filter _ cols); [|discriminate].
  destruct (call_transform scaler (select df cols)) as [values|]; simpl;
    [|discriminate].
  intros Hassign Hk. eapply assign_other; eassumption.
Qed.

(** ** The insurance plan *)

(** Modelled from the words of the specification (section 4.2): the lookup
    Bronze 1, Silver 2, Gold 3, and 1 for a value that is not recognised or
    not there. *)
Definition spec_insurance_code (plan : option pyval) : Z :=
  match plan with
  | Some (VStr s) =>
      if String.eqb s "Bronze" then 1
      else if String.eqb s "Silver" then 2
      else if String.eqb s "Gold" then 3
      else 1
  | _ => 1
  end.

Lemma insurance_code_spec (input : gmap string pyval) :
  insurance_code (get input "Insurance Plan" (VStr "Bronze")) =
  spec_insurance_code (input !! "Insurance Plan").
Proof.
  unfold get, spec_insurance_code.
  destruct (input !! "Insurance Plan") as [[| | | |s]|]; simpl; try reflexivity.
  apply insurance_lookup.
Qed.

(** C8. The insurance-plan cell written by the encoding is 1 for "Bronze",
    2 for "Silver", 3 for "Gold" and 1 for any other value or none; the frame
    [preprocess_input] returns still holds it unless the selected scaler
    bundle names that column. *)
Theorem insurance_plan_encoding py input :
  (forall df,
      encode_fields py input = Ok df ->
      df !! "insurance_plan" =
      Some (NInt (spec_insurance_code (input !! "Insurance Plan")))) /\
  (forall g df age,
      run (preprocess_input py input) g = Ok df ->
      py_int py (get input "Age" (VInt 0)) = Ok age ->
      "insurance_plan" ∉ scaled_columns age g ->
      df !! "insurance_plan" =
      Some (NInt (spec_insurance_code (input !! "Insurance Plan")))).
Proof.
  assert (Henc : forall df,
             encode_fields py input = Ok df ->
             df !! "insurance_plan" =
             Some (NInt (spec_insurance_code (input !! "Insurance Plan")))).
  { intros df H.
    apply encode_fields_inv in H as (a & d & i & r & gd & _ & _ & _ & _ & _ & ->).
    rewrite encoded_insurance_plan, insurance_code_spec. reflexivity. }
  split; [exact Henc|].
  intros g df age Hrun Hage Hcols.
  rewrite run_preprocess_input in Hrun.
  destruct (encode_fields py input) as [df0|] eqn:Hdf0; [|discriminate].
  simpl in Hrun.
  assert (Hage0 : age_of df0 = Ok age).
  { apply encode_fields_inv in Hdf0
      as (a & d & i & r & gd & Ha & _ & _ & _ & _ & ->).
    rewrite age_of_encoded. congruence. }
  rewrite (apply_scaler_other df0 df g age _ Hage0 Hrun Hcols).
  apply Henc. reflexivity.
Qed.

Lemma insurance_plan_encoding_witness :
  exists df,
    encode_fields plain_builtins (sample 30) = Ok df /\
    df !! "insurance_plan" = Some (NInt 2).
Proof.
  assert (He : encode_fields plain_builtins (sample 30) =
               Ok (encoded plain_builtins (sample 30) 30 0
                     (Finite (inject_Z 12)) (Finite (inject_Z 1))
                     (Str.lower "Male"))).
  { apply encode_fields_complete; vm_compute; reflexivity. }
  eexists. split; [exact He|].
  rewrite (proj1 (insurance_plan_encoding plain_builtins (sample 30)) _ He).
  vm_compute. reflexivity.
Defined.

(** ** One-hot flags *)

(** The cell of a flag. *)
Definition flag (b : bool) : num := NInt (if b then 1 else 0).

(** The groups coerced with [str(...).strip()]: the input key, the prefix of
    the columns, the category names that have a column. *)
Definition one_hot_groups : list (string * string * list string) :=
  [ ("Region", "region_", ["Northwest"; "Southeast"; "Southwest"]);
    ("Marital Status", "marital_status_", ["Unmarried"]);
    ("BMI Category", "bmi_category_", ["Obesity"; "Overweight"; "Underweight"]);
    ("Smoking Status", "smoking_status_", ["Occasional"; "Regular"]);
    ("Employment Status", "employment_status_", ["Salaried"; "Self-Employed"]) ].

(** Modelled from the words of the specification (section 4.2): the value
    under a key is matched by exact, case-sensitive string comparison. *)
Definition spec_exact_match (input : gmap string pyval) (key name : string) : bool :=
  match input !! key with
  | Some (VStr s) => String.eqb s name
  | _ => false
  end.

Ltac own_flag blk v :=
  unfold encoded; skip_blocks; unfold blk; flag_cases v; skip_blocks;
  try (apply zeros_lookup; expected_column).

Lemma encoded_gender_flag py input age dependants income risk gender :
  encoded py input age dependants income risk gender !! "gender_Male" =
  Some (flag (String.eqb gender "male")).
Proof. unfold flag. own_flag set_gender gender. Qed.

Lemma encoded_group_flag py input age dependants income risk gender
    key prefix names name :
  (key, prefix, names) ∈ one_hot_groups -> name ∈ names ->
  encoded py input age dependants income risk gender !! (prefix ++ name) =
  Some (flag (String.eqb (category py input key) name)).
Proof.
  intros Hg Hn. unfold flag.
  apply list_elem_of_In in Hg. simpl in Hg.
  destruct Hg as [Hg|[Hg|[Hg|[Hg|[Hg|[]]]]]];
    injection Hg as <- <- <-;
    apply list_elem_of_In in Hn; simpl in Hn.
  - destruct Hn as [<-|[<-|[<-|[]]]]; cbn [String.append];
      own_flag set_region (category py input "Region").
  - destruct Hn as [<-|[]]; cbn [String.append];
      own_flag set_marital_status (category py input "Marital Status").
  - destruct Hn as [<-|[<-|[<-|[]]]]; cbn [String.append];
      own_flag set_bmi_category (category py input "BMI Category").
  - destruct Hn as [<-|[<-|[]]]; cbn [String.append];
      own_flag set_smoking_status (category py input "Smoking Status").
  - destruct Hn as [<-|[<-|[]]]; cbn [String.append];
      own_flag set_employment_status (category py input "Employment Status").
Qed.

Ltac zero_flag Hgrp key prefix names name C :=
  apply (Hgrp key prefix names name _
           ltac:(expected_column) ltac:(expected_column) C);
  reflexivity.

Lemma category_of_str py (input : gmap string pyval) key s :
  input !! key = Some (VStr s) -> category py input key = Str.strip s.
Proof. intros H. unfold category, get. rewrite H. reflexivity. Qed.

Lemma category_missing py (input : gmap string pyval) key :
  input !! key = None -> category py input key = EmptyString.
Proof. intros H. unfold category, get. rewrite H. reflexivity. Qed.

(** The record of the [__main__] block with a region that carries a
    trailing blank. *)
Definition padded_region_sample : gmap string pyval :=
  <["Region" := VStr "Northwest "]> (sample 30).

(** C5, as the code has it.  In the frame the encoding builds, the gender
    flag is 1 exactly when the gender, lowercased, is "male"; the flag of
    every other category is 1 exactly when the value under its key, turned
    into a string and stripped of surrounding whitespace, is the name of the
    category, compared as it is written; a value that is none of the names
    of its group, or no value, leaves the flags of the group at 0.  The
    encoding raises nothing for the categories once the numeric fields are
    read and the gender is a string or absent, and the baseline record has
    every flag at 0. *)
Theorem one_hot_flags py input :
  (forall df,
      encode_fields py input = Ok df ->
      (exists gender,
          get input "Gender" (VStr EmptyString) = VStr gender /\
          df !! "gender_Male" = Some (flag (String.eqb (Str.lower gender) "male"))) /\
      (forall key prefix names name,
          (key, prefix, names) ∈ one_hot_groups -> name ∈ names ->
          df !! (prefix ++ name) =
          Some (flag (String.eqb (category py input key) name))) /\
      (forall key prefix names name,
          (key, prefix, names) ∈ one_hot_groups ->
          category py input key ∉ names -> name ∈ names ->
          df !! (prefix ++ name) = Some (NInt 0))) /\
  (forall age dependants income risk,
      py_int py (get input "Age" (VInt 0)) = Ok age ->
      py_int py (get input "Number of Dependants" (VInt 0)) = Ok dependants ->
      py_float py (get input "Income in Lakhs" (VFloat (Finite 0))) = Ok income ->
      py_float py (get input "Genetical Risk" (VFloat (Finite 0))) = Ok risk ->
      (input !! "Gender" = None \/ exists s, input !! "Gender" = Some (VStr s)) ->
      exists df, encode_fields py input = Ok df) /\
  (forall df,
      input !! "Gender" = Some (VStr "Female") ->
      input !! "Region" = Some (VStr "Northeast") ->
      input !! "Marital Status" = Some (VStr "Married") ->
      input !! "BMI Category" = Some (VStr "Normal") ->
      input !! "Smoking Status" = Some (VStr "No Smoking") ->
      input !! "Employment Status" = Some (VStr "Freelancer") ->
      encode_fields py input = Ok df ->
      forall c, c ∈ one_hot_columns -> df !! c = Some (NInt 0)).
Proof.
  split; [|split].
  - intros df H.
    apply encode_fields_inv in H as (a & d & i & r & gd & _ & _ & _ & _ & Hg & ->).
    split; [|split].
    + exists gd. split; [exact Hg|]. apply encoded_gender_flag.
    + intros key prefix names name. apply encoded_group_flag.
    + intros key prefix names name Hgrp Hnot Hin.
      rewrite (encoded_group_flag _ _ _ _ _ _ _ key prefix names name Hgrp Hin).
      destruct (String.eqb_spec (category py input key) name) as [Heq|Hne];
        [|reflexivity].
      exfalso. apply Hnot. rewrite Heq. exact Hin.
  - intros age dependants income risk Ha Hd Hi Hr Hg.
    assert (Hgender : exists s, get input "Gender" (VStr EmptyString) = VStr s).
    { unfold get. destruct Hg as [->|[s ->]]; simpl; eauto. }
    destruct Hgender as [s Hs]. eexists.
    apply encode_fields_complete; eassumption.
  - intros df Hgender Hregion Hmarital Hbmi Hsmoking Hemployment H c Hc.
    apply encode_fields_inv in H as (a & d & i & r & gd & _ & _ & _ & _ & Hg & ->).
    unfold get in Hg. rewrite Hgender in Hg. simpl in Hg.
    injection Hg as <-.
    pose proof (category_of_str py input _ _ Hregion) as Cr.
    pose proof (category_of_str py input _ _ Hmarital) as Cm.
    pose proof (category_of_str py input _ _ Hbmi) as Cb.
    pose proof (category_of_str py input _ _ Hsmoking) as Cs.
    pose proof (category_of_str py input _ _ Hemployment) as Ce.
    apply list_elem_of_In in Hc. simpl in Hc.
    assert (Hgrp : forall key prefix names name v,
               (key, prefix, names) ∈ one_hot_groups -> name ∈ names ->
               category py input key = v ->
               String.eqb v name = false ->
               encoded py input a d i r (Str.lower "Female") !! (prefix ++ name)
               = Some (NInt 0)).
    { intros key prefix names name v Hk Hn Hv Hne.
      rewrite (encoded_group_flag _ _ _ _ _ _ _ key prefix names name Hk Hn).
      rewrite Hv, Hne. reflexivity. }
    destruct Hc as [<-|Hc]; [rewrite encoded_gender_flag; reflexivity|].
    destruct Hc as [<-|Hc];
      [zero_flag Hgrp "Region" "region_" ["Northwest"; "Southeast"; "Southwest"] "Northwest" Cr|].
    destruct Hc as [<-|Hc];
      [zero_flag Hgrp "Region" "region_" ["Northwest"; "Southeast"; "Southwest"] "Southeast" Cr|].
    destruct Hc as [<-|Hc];
      [zero_flag Hgrp "Region" "region_" ["Northwest"; "Southeast"; "Southwest"] "Southwest" Cr|].
    destruct Hc as [<-|Hc];
      [zero_flag Hgrp "Marital Status" "marital_status_" ["Unmarried"] "Unmarried" Cm|].
    destruct Hc as [<-|Hc];
      [zero_flag Hgrp "BMI Category" "bmi_category_" ["Obesity"; "Overweight"; "Underweight"] "Obesity" Cb|].
    destruct Hc as [<-|Hc];
      [zero_flag Hgrp "BMI Category" "bmi_category_" ["Obesity"; "Overweight"; "Underweight"] "Overweight" Cb|].
    destruct Hc as [<-|Hc];
      [zero_flag Hgrp "BMI Category" "bmi_category_" ["Obesity"; "Overweight"; "Underweight"] "Underweight" Cb|].
    destruct Hc as [<-|Hc];
      [zero_flag Hgrp "Smoking Status" "smoking_status_" ["Occasional"; "Regular"] "Occasional" Cs|].
    destruct Hc as [<-|Hc];
      [zero_flag Hgrp "Smoking Status" "smoking_status_" ["Occasional"; "Regular"] "Regular" Cs|].
    destruct Hc as [<-|Hc];
      [zero_flag Hgrp "Employment Status" "employment_status_" ["Salaried"; "Self-Employed"] "Salaried" Ce|].
    destruct Hc as [<-|Hc];
      [zero_flag Hgrp "Employment Status" "employment_status_" ["Salaried"; "Self-Employed"] "Self-Employed" Ce|].
    destruct Hc.
Qed.

Lemma sample_encoded :
  encode_fields plain_builtins (sample 30) =
  Ok (encoded plain_builtins (sample 30) 30 0
        (Finite (inject_Z 12)) (Finite (inject_Z 1)) (Str.lower "Male")).
Proof. apply encode_fields_complete; vm_compute; reflexivity. Qed.

Lemma one_hot_flags_witness :
  exists df,
    encode_fields plain_builtins (sample 30) = Ok df /\
    df !! ("region_" ++ "Northwest") =
    Some (flag (String.eqb (category plain_builtins (sample 30) "Region") "Northwest")).
Proof.
  eexists. split; [exact sample_encoded|].
  apply (proj1 (proj2 (proj1 (one_hot_flags plain_builtins (sample 30))
                         _ sample_encoded))
           "Region" "region_" ["Northwest"; "Southeast"; "Southwest"]).
  - expected_column.
  - expected_column.
Defined.

(** C5, as stated, fails: the region "Northwest " with a trailing blank is
    not the string "Northwest", yet its flag is set. *)
Lemma exact_match_fails_on_padding :
  exists df,
    encode_fields plain_builtins padded_region_sample = Ok df /\
    df !! "region_Northwest" = Some (NInt 1) /\
    spec_exact_match padded_region_sample "Region" "Northwest" = false.
Proof.
  exists (encoded plain_builtins padded_region_sample 30 0
            (Finite (inject_Z 12)) (Finite (inject_Z 1)) (Str.lower "Male")).
  split; [|split].
  - apply encode_fields_complete; vm_compute; reflexivity.
  - change "region_Northwest" with ("region_" ++ "Northwest").
    rewrite (encoded_group_flag _ _ _ _ _ _ _ "Region" "region_"
               ["Northwest"; "Southeast"; "Southwest"] "Northwest")
      by expected_column.
    vm_compute. reflexivity.
  - vm_compute. reflexivity.
Qed.

(** ** Schema drift *)

Lemma filter_missing py input age dependants income risk gender cols :
  List.filter
    (fun c => negb (has_key c (encoded py input age dependants income risk gender)))
    cols =
  List.filter (fun c => negb (bool_decide (c ∈ _EXPECTED_COLUMNS))) cols.
Proof.
  apply List.filter_ext. intros c. f_equal.
  destruct (bool_decide (c ∈ _EXPECTED_COLUMNS)) eqn:Hd.
  - apply bool_decide_eq_true in Hd. apply has_key_encoded. exact Hd.
  - apply bool_decide_eq_false in Hd.
    destruct (has_key c _) eqn:Hk; [|reflexivity].
    exfalso. apply Hd. eapply has_key_encoded. exact Hk.
Qed.

(** C6. Let the encoding of a record succeed and its age select a band.  If
    the bundle of that band is a dict whose column list names a column that
    is not one of the 18 expected ones, [preprocess_input] raises
    [SchemaMismatch] with exactly the names that are not expected, in the
    order of the list, and nothing is scaled; if the band has no bundle,
    [preprocess_input] returns the encoded frame as it is. *)
Theorem schema_mismatch_raised py input g df age :
  encode_fields py input = Ok df ->
  py_int py (get input "Age" (VInt 0)) = Ok age ->
  (forall d cols scaler,
      scaler_for age g = Some (Dict d) ->
      d !! "cols_to_scale" = Some (Columns cols) ->
      d !! "scaler" = Some scaler ->
      (exists c, c ∈ cols /\ c ∉ _EXPECTED_COLUMNS) ->
      let missing :=
        List.filter (fun c => negb (bool_decide (c ∈ _EXPECTED_COLUMNS))) cols in
      missing <> [] /\
      preprocess_input py input g = (Raise (SchemaMismatch missing), g)) /\
  (scaler_for age g = None -> preprocess_input py input g = (Ok df, g)).
Proof.
  intros Hdf Hage.
  pose proof Hdf as Hinv.
  apply encode_fields_inv in Hinv
    as (a & dp & i & r & gd & Ha & _ & _ & _ & _ & ->).
  assert (a = age) by congruence. subst a.
  split.
  - intros d cols scaler Hsel Hcols Hsc [c [Hin Hout]] missing.
    assert (Hne : missing <> []).
    { intros Hnil.
      assert (Hc : In c missing).
      { apply List.filter_In. split; [apply list_elem_of_In; exact Hin|].
        apply negb_true_iff, bool_decide_eq_false. exact Hout. }
      rewrite Hnil in Hc. destruct Hc. }
    split; [exact Hne|].
    rewrite (read_only_eq _ g (preprocess_input_read_only py input)).
    f_equal. rewrite run_preprocess_input, Hdf. simpl.
    rewrite run_apply_scaler, age_of_encoded. simpl. rewrite Hsel. simpl.
    unfold has_key at 1 2. rewrite Hsc, Hcols. simpl.
    unfold getitem. rewrite Hcols, Hsc. simpl.
    rewrite filter_missing. fold missing.
    destruct missing; [congruence|reflexivity].
  - intros Hnone.
    rewrite (read_only_eq _ g (preprocess_input_read_only py input)).
    f_equal. rewrite run_preprocess_input, Hdf. simpl.
    rewrite run_apply_scaler, age_of_encoded. simpl. rewrite Hnone. reflexivity.
Qed.

Lemma sample_age : py_int plain_builtins (get (sample 30) "Age" (VInt 0)) = Ok 30.
Proof. vm_compute. reflexivity. Qed.

Lemma schema_mismatch_raised_witness :
  preprocess_input plain_builtins (sample 30) drifted_globals =
  (Raise (SchemaMismatch ["income_level"]), drifted_globals).
Proof.
  edestruct (proj1 (schema_mismatch_raised plain_builtins (sample 30)
                      drifted_globals _ 30 sample_encoded sample_age))
    as [_ H].
  - reflexivity.
  - vm_compute. reflexivity.
  - vm_compute. reflexivity.
  - exists "income_level". split.
    + refine (bool_decide_unpack _ _). vm_compute. exact I.
    + refine (bool_decide_unpack _ _). vm_compute. exact I.
  - exact H.
Defined.

(** ** The risk score against its description *)

(** Modelled from the words of the specification (section 4.2, step 1): the
    pieces of a string between the separators " & " and ",", both read
    directly on the string, from the left. *)
Fixpoint spec_split_from (skip : nat) (cur : string) (s : string) : list string :=
  match s with
  | EmptyString => [cur]
  | String c s' =>
      match skip with
      | S k => spec_split_from k cur s'
      | O =>
          if String.prefix " & " s
          then cur :: spec_split_from 2 EmptyString s'
          else if Ascii.eqb c ","
               then cur :: spec_split_from 0 EmptyString s'
               else spec_split_from 0 (cur ++ String c EmptyString) s'
      end
  end.

(** Step 1: split, then trim and lowercase each token. *)
Definition spec_tokens (s : string) : list string :=
  map (fun p => Str.lower (Str.strip p)) (spec_split_from 0 EmptyString s).

(** Step 2: the severity table; any other token scores 0. *)
Definition spec_token_score (p : string) : Z :=
  if String.eqb p "diabetes" then 6
  else if String.eqb p "heart disease" then 8
  else if String.eqb p "high blood pressure" then 6
  else if String.eqb p "thyroid" then 5
  else if String.eqb p "no disease" then 0
  else if String.eqb p "none" then 0
  else 0.

(** Step 4: the clip to the closed interval from 0 to 1. *)
Definition spec_clip01 (q : Q) : Q :=
  if Qlt_le_dec q 0 then 0%Q else if Qlt_le_dec 1 q then 1%Q else q.

(** Steps 1 to 4 together. *)
Definition spec_normalized_risk (s : string) : Q :=
  spec_clip01 (inject_Z (sum_Z (map spec_token_score (spec_tokens s))) / 14)%Q.

(** Whether " &," occurs in a string. *)
Fixpoint has_amp_comma (s : string) : bool :=
  match s with
  | EmptyString => false
  | String _ s' => String.prefix " &," s || has_amp_comma s'
  end.

Lemma risk_lookup (p : string) :
  default 0 (_RISK_SCORES !! p) = spec_token_score p.
Proof.
  unfold _RISK_SCORES, spec_token_score.
  repeat match goal with
         | |- context [String.eqb p ?k] =>
             destruct (String.eqb_spec p k) as [->|?];
             [reflexivity | rewrite lookup_insert_ne by congruence]
         end.
  reflexivity.
Qed.

Lemma py_clip_spec (q : Q) : (py_min (py_max q 0) 1 == spec_clip01 q)%Q.
Proof.
  unfold py_min, py_max, spec_clip01.
  destruct (Qlt_le_dec q 0) as [Hlt|Hge].
  - destruct (Qle_bool 0 q) eqn:H0.
    + apply Qle_bool_iff in H0. exfalso. apply (Qlt_not_le _ _ Hlt H0).
    + reflexivity.
  - destruct (Qle_bool 0 q) eqn:H0.
    2:{ exfalso. apply Qle_bool_iff in Hge. congruence. }
    destruct (Qlt_le_dec 1 q) as [Hgt|Hle].
    + destruct (Qle_bool q 1) eqn:H1; [|reflexivity].
      apply Qle_bool_iff in H1. exfalso. apply (Qlt_not_le _ _ Hgt H1).
    + destruct (Qle_bool q 1) eqn:H1; [reflexivity|].
      exfalso. apply Qle_bool_iff in Hle. congruence.
Qed.

Lemma spec_clip01_bounds (q : Q) : (0 <= spec_clip01 q <= 1)%Q.
Proof.
  unfold spec_clip01.
  destruct (Qlt_le_dec q 0) as [Hlt|Hge]; [split; discriminate|].
  destruct (Qlt_le_dec 1 q) as [Hgt|Hle]; [split; discriminate|].
  split; assumption.
Qed.

(** *** Blank strings *)

Fixpoint all_space (s : string) : bool :=
  match s with
  | EmptyString => true
  | String c s' => Str.is_space c && all_space s'
  end.

Lemma rstrip_empty s : Str.rstrip s = EmptyString -> all_space s = true.
Proof.
  induction s as [|c s IH]; [reflexivity|]. simpl.
  destruct (Str.rstrip s) eqn:Hr; [|discriminate].
  destruct (Str.is_space c); [|discriminate].
  intros _. apply IH. reflexivity.
Qed.

Lemma lstrip_all_space s :
  all_space (Str.lstrip s) = true -> Str.lstrip s = EmptyString.
Proof.
  induction s as [|c s IH]; [reflexivity|]. simpl.
  destruct (Str.is_space c) eqn:Hc; [exact IH|].
  simpl. rewrite Hc. discriminate.
Qed.

Lemma lstrip_empty s : Str.lstrip s = EmptyString -> all_space s = true.
Proof.
  induction s as [|c s IH]; [reflexivity|]. simpl.
  destruct (Str.is_space c); [exact IH|discriminate].
Qed.

Lemma strip_empty s : Str.strip s = EmptyString -> all_space s = true.
Proof.
  unfold Str.strip. intros H.
  apply lstrip_empty, lstrip_all_space, rstrip_empty, H.
Qed.

(** *** One step of [replace] and of the two splits *)

Lemma prefix_cons a b s1 s2 :
  String.prefix (String a s1) (String b s2) =
  if ascii_dec a b then String.prefix s1 s2 else false.
Proof. reflexivity. Qed.

Lemma prefix_same c s1 s2 :
  String.prefix (String c s1) (String c s2) = String.prefix s1 s2.
Proof. rewrite prefix_cons. destruct (ascii_dec c c); [reflexivity|congruence]. Qed.

Lemma prefix_empty s : String.prefix EmptyString s = true.
Proof. destruct s; reflexivity. Qed.

Lemma prefix_amp rest : String.prefix " & " (" & " ++ rest) = true.
Proof.
  change (" & " ++ rest) with (String " " (String "&" (String " " rest))).
  change " & " with (String " " (String "&" (String " " EmptyString))).
  rewrite !prefix_same. apply prefix_empty.
Qed.

Lemma replace_step c s :
  Str.replace "," " & " (String c s) =
  if String.prefix "," (String c s)
  then " & " ++ Str.replace "," " & " s
  else String c (Str.replace "," " & " s).
Proof. reflexivity. Qed.

Lemma split_step cur c s :
  Str.split_from " & " 0 cur (String c s) =
  if String.prefix " & " (String c s)
  then cur :: Str.split_from " & " 2 EmptyString s
  else Str.split_from " & " 0 (cur ++ String c EmptyString) s.
Proof. reflexivity. Qed.

Lemma spec_split_step cur c s :
  spec_split_from 0 cur (String c s) =
  if String.prefix " & " (String c s)
  then cur :: spec_split_from 2 EmptyString s
  else if Ascii.eqb c ","
       then cur :: spec_split_from 0 EmptyString s
       else spec_split_from 0 (cur ++ String c EmptyString) s.
Proof. reflexivity. Qed.

Lemma replace_comma s :
  Str.replace "," " & " (String "," s) = " & " ++ Str.replace "," " & " s.
Proof. rewrite replace_step, prefix_same, prefix_empty. reflexivity. Qed.

Lemma replace_other c s :
  c <> ","%char ->
  Str.replace "," " & " (String c s) = String c (Str.replace "," " & " s).
Proof.
  intros Hc. rewrite replace_step, prefix_cons.
  destruct (ascii_dec "," c) as [Heq|_]; [congruence|reflexivity].
Qed.

Lemma split_cut cur rest :
  Str.split_from " & " 0 cur (" & " ++ rest) =
  cur :: Str.split_from " & " 0 EmptyString rest.
Proof.
  change (" & " ++ rest) with (String " " (String "&" (String " " rest))) at 1.
  rewrite split_step.
  change (String " " (String "&" (String " " rest))) with (" & " ++ rest).
  rewrite prefix_amp. reflexivity.
Qed.

Lemma split_keep cur c s :
  String.prefix " & " (String c s) = false ->
  Str.split_from " & " 0 cur (String c s) =
  Str.split_from " & " 0 (cur ++ String c EmptyString) s.
Proof. intros H. rewrite split_step, H. reflexivity. Qed.

Lemma spec_split_cut cur rest :
  spec_split_from 0 cur (" & " ++ rest) = cur :: spec_split_from 0 EmptyString rest.
Proof.
  change (" & " ++ rest) with (String " " (String "&" (String " " rest))) at 1.
  rewrite spec_split_step.
  change (String " " (String "&" (String " " rest))) with (" & " ++ rest).
  rewrite prefix_amp. reflexivity.
Qed.

Lemma spec_split_comma cur s :
  spec_split_from 0 cur (String "," s) = cur :: spec_split_from 0 EmptyString s.
Proof.
  rewrite spec_split_step, prefix_cons.
  destruct (ascii_dec " " ","); [discriminate|reflexivity].
Qed.

Lemma spec_split_keep cur c s :
  String.prefix " & " (String c s) = false -> c <> ","%char ->
  spec_split_from 0 cur (String c s) =
  spec_split_from 0 (cur ++ String c EmptyString) s.
Proof.
  intros H Hc. rewrite spec_split_step, H.
  destruct (Ascii.eqb_spec c ","); [congruence|reflexivity].
Qed.

(** How a string starts, as far as the separators go. *)
Inductive start : string -> Type :=
| start_empty : start EmptyString
| start_comma s : start (String "," s)
| start_amp rest : start (" & " ++ rest)
| start_other c s :
    c <> ","%char -> String.prefix " & " (String c s) = false ->
    start (String c s).

Lemma start_of (s : string) : start s.
Proof.
  destruct s as [|c s]; [constructor|].
  destruct (ascii_dec c ",") as [->|Hc]; [constructor|].
  destruct (String.prefix " & " (String c s)) eqn:Hp; [|constructor; assumption].
  rewrite prefix_cons in Hp.
  destruct (ascii_dec " " c) as [<-|]; [|discriminate].
  destruct s as [|c2 s]; [discriminate|].
  rewrite prefix_cons in Hp.
  destruct (ascii_dec "&" c2) as [<-|]; [|discriminate].
  destruct s as [|c3 s]; [discriminate|].
  rewrite prefix_cons in Hp.
  destruct (ascii_dec " " c3) as [<-|]; [|discriminate].
  apply (start_amp s).
Qed.

(** *** A blank string is one token *)

Lemma append_empty (s : string) : s ++ EmptyString = s.
Proof.
  induction s as [|c s IH]; [reflexivity|].
  change (String c (s ++ EmptyString) = String c s). rewrite IH. reflexivity.
Qed.

Lemma append_append (s1 s2 s3 : string) : (s1 ++ s2) ++ s3 = s1 ++ (s2 ++ s3).
Proof.
  induction s1 as [|c s1 IH]; [reflexivity|].
  change (String c ((s1 ++ s2) ++ s3) = String c (s1 ++ (s2 ++ s3))).
  rewrite IH. reflexivity.
Qed.

Lemma all_space_not_comma c : Str.is_space c = true -> c <> ","%char.
Proof. intros H ->. discriminate. Qed.

Lemma all_space_no_amp c s :
  all_space (String c s) = true -> String.prefix " & " (String c s) = false.
Proof.
  intros H. simpl in H. apply andb_prop in H as [Hc Hs]. rewrite prefix_cons.
  destruct (ascii_dec " " c); [|reflexivity].
  destruct s as [|c2 s]; [reflexivity|].
  rewrite prefix_cons. destruct (ascii_dec "&" c2) as [<-|]; [|reflexivity].
  simpl in Hs. discriminate.
Qed.

Lemma replace_all_space s :
  all_space s = true -> Str.replace "," " & " s = s.
Proof.
  induction s as [|c s IH]; [reflexivity|]. intros H.
  pose proof H as H'. simpl in H'. apply andb_prop in H' as [Hc Hs].
  rewrite (replace_other c s (all_space_not_comma c Hc)), (IH Hs). reflexivity.
Qed.

Lemma split_all_space s cur :
  all_space s = true -> Str.split_from " & " 0 cur s = [cur ++ s].
Proof.
  revert cur. induction s as [|c s IH]; intros cur H.
  - rewrite append_empty. reflexivity.
  - rewrite (split_keep cur c s (all_space_no_amp c s H)).
    simpl in H. apply andb_prop in H as [_ Hs]. rewrite (IH _ Hs).
    rewrite append_append. reflexivity.
Qed.

Lemma blank_parts s : Str.strip s = EmptyString -> risk_parts s = [EmptyString].
Proof.
  intros H. pose proof (strip_empty s H) as Hs. unfold risk_parts, Str.split.
  rewrite (replace_all_space s Hs), (split_all_space s EmptyString Hs).
  change (EmptyString ++ s) with s. cbn [map]. rewrite H. reflexivity.
Qed.

(** *** Where the two ways of splitting agree *)

Lemma has_amp_comma_tail c s :
  has_amp_comma (String c s) = false ->
  String.prefix " &," (String c s) = false /\ has_amp_comma s = false.
Proof. intros H. simpl in H. apply orb_false_elim in H. exact H. Qed.

(** Turning the commas behind a character into separators makes no
    separator start at that character, unless " &," does. *)
Lemma replace_no_new_amp c s :
  c <> ","%char ->
  String.prefix " & " (String c s) = false ->
  String.prefix " &," (String c s) = false ->
  String.prefix " & " (String c (Str.replace "," " & " s)) = false.
Proof.
  intros Hc Hamp Hcomma. rewrite prefix_cons in *.
  destruct (ascii_dec " " c) as [<-|]; [|reflexivity].
  destruct s as [|c2 s]; [reflexivity|].
  destruct (ascii_dec c2 ",") as [->|Hc2].
  { rewrite replace_comma. reflexivity. }
  rewrite (replace_other c2 s Hc2). rewrite prefix_cons in *.
  destruct (ascii_dec "&" c2) as [<-|]; [|reflexivity].
  destruct s as [|c3 s]; [reflexivity|].
  destruct (ascii_dec c3 ",") as [->|Hc3].
  { rewrite prefix_same, prefix_empty in Hcomma. discriminate. }
  rewrite (replace_other c3 s Hc3). rewrite prefix_cons in *.
  destruct (ascii_dec " " c3) as [<-|]; [|reflexivity].
  rewrite prefix_empty in Hamp. discriminate.
Qed.

Lemma replace_amp rest :
  Str.replace "," " & " (" & " ++ rest) = " & " ++ Str.replace "," " & " rest.
Proof.
  change (" & " ++ rest) with (String " " (String "&" (String " " rest))).
  rewrite !replace_other by discriminate. reflexivity.
Qed.

Lemma split_agrees_upto (n : nat) : forall s cur,
  (String.length s <= n)%nat -> has_amp_comma s = false ->
  Str.split_from " & " 0 cur (Str.replace "," " & " s) = spec_split_from 0 cur s.
Proof.
  induction n as [|n IH]; intros s cur Hlen Hs.
  - destruct s; [reflexivity|simpl in Hlen; lia].
  - destruct (start_of s) as [|s|rest|c s Hc Hamp].
    + reflexivity.
    + rewrite replace_comma, split_cut, spec_split_comma. f_equal.
      apply IH; [simpl in Hlen; lia|apply (has_amp_comma_tail _ _ Hs)].
    + rewrite replace_amp, split_cut, spec_split_cut. f_equal.
      change (" & " ++ rest)
        with (String " " (String "&" (String " " rest))) in Hlen, Hs.
      apply IH; [simpl in Hlen; lia|].
      apply has_amp_comma_tail in Hs as [_ Hs].
      apply has_amp_comma_tail in Hs as [_ Hs].
      apply has_amp_comma_tail in Hs as [_ Hs]. exact Hs.
    + destruct (has_amp_comma_tail _ _ Hs) as [Hcomma Hs'].
      rewrite (replace_other c s Hc).
      rewrite (split_keep _ _ _ (replace_no_new_amp c s Hc Hamp Hcomma)).
      rewrite (spec_split_keep _ _ _ Hamp Hc).
      apply IH; [simpl in Hlen; lia|exact Hs'].
Qed.

Lemma parts_agree s : has_amp_comma s = false -> risk_parts s = spec_tokens s.
Proof.
  intros H. unfold risk_parts, spec_tokens, Str.split.
  rewrite (split_agrees_upto (String.length s) s EmptyString (le_n _) H).
  reflexivity.
Qed.

Lemma scores_spec (parts : list string) :
  map (fun p => default 0 (_RISK_SCORES !! p)) parts = map spec_token_score parts.
Proof. apply map_ext. intros p. apply risk_lookup. Qed.

Lemma normalized_risk_parts (s : string) :
  (calculate_normalized_risk (VStr s)
   == spec_clip01 (inject_Z (sum_Z (map spec_token_score (risk_parts s))) / 14))%Q.
Proof.
  unfold calculate_normalized_risk.
  destruct (String.eqb_spec (Str.strip s) EmptyString) as [Hblank|_].
  - rewrite (blank_parts s Hblank). vm_compute. reflexivity.
  - cbv zeta. change (0 <? 14)%Z with true. cbv iota.
    rewrite scores_spec. apply py_clip_spec.
Qed.

(** C2. The docstring of [calculate_normalized_risk] has a compound history
    separated by " & " or ",", which is the split of the specification.  The
    code turns every comma into " & " and then cuts at " & ": its score is
    the sum of the table scores of the pieces of
    [medical_history.replace(",", " & ").split(" & ")], trimmed and
    lowercased, divided by 14 and clipped to the interval from 0 to 1, a
    blank history being one empty token.  In "Thyroid &,Diabetes" the comma
    is the only separator, so the tokens are "thyroid &" and "diabetes" and
    the score is 6/14; the code cuts at the " & " that starts before the
    comma, reads "thyroid" and "& diabetes", and returns 5/14.  For every
    history in which no comma follows " &" directly the tokens and the score
    are those of the split at " & " or ",".  The score lies between 0 and 1;
    "Heart disease" gives 8/14, "Diabetes & High blood pressure" 12/14,
    "No Disease" 0, and a history that is one token outside the table 0. *)
Theorem normalized_risk_formula (s : string) :
  (risk_parts "Thyroid &,Diabetes" = ["thyroid"; "& diabetes"] /\
   spec_tokens "Thyroid &,Diabetes" = ["thyroid &"; "diabetes"] /\
   calculate_normalized_risk (VStr "Thyroid &,Diabetes") = (5 # 14)%Q /\
   spec_normalized_risk "Thyroid &,Diabetes" = (6 # 14)%Q /\
   ~ (5 # 14 == 6 # 14)%Q) /\
  (calculate_normalized_risk (VStr s)
   == spec_clip01 (inject_Z (sum_Z (map spec_token_score (risk_parts s))) / 14))%Q /\
  (has_amp_comma s = false ->
   risk_parts s = spec_tokens s /\
   (calculate_normalized_risk (VStr s) == spec_normalized_risk s)%Q) /\
  (0 <= calculate_normalized_risk (VStr s) <= 1)%Q /\
  (calculate_normalized_risk (VStr "Heart disease") == 8 # 14)%Q /\
  (calculate_normalized_risk (VStr "Diabetes & High blood pressure") == 12 # 14)%Q /\
  (calculate_normalized_risk (VStr "No Disease") == 0)%Q /\
  (forall p, risk_parts s = [p] -> _RISK_SCORES !! p = None ->
             (calculate_normalized_risk (VStr s) == 0)%Q).
Proof.
  split.
  { split; [vm_compute; reflexivity|].
    split; [vm_compute; reflexivity|].
    split; [vm_compute; reflexivity|].
    split; [vm_compute; reflexivity|].
    unfold Qeq. simpl. discriminate. }
  split; [apply normalized_risk_parts|].
  split.
  { intros H. pose proof (parts_agree s H) as Hparts. split; [exact Hparts|].
    rewrite normalized_risk_parts, Hparts. reflexivity. }
  split.
  { rewrite normalized_risk_parts. apply spec_clip01_bounds. }
  split; [vm_compute; reflexivity|].
  split; [vm_compute; reflexivity|].
  split; [vm_compute; reflexivity|].
  intros p Hp Hnone. rewrite normalized_risk_parts, Hp.
  cbn [map sum_Z fold_right]. rewrite <- risk_lookup, Hnone.
  vm_compute. reflexivity.
Qed.

Lemma normalized_risk_formula_witness :
  has_amp_comma "Diabetes, Thyroid" = false /\
  risk_parts "Diabetes, Thyroid" = spec_tokens "Diabetes, Thyroid" /\
  (calculate_normalized_risk (VStr "Diabetes, Thyroid")
   == spec_normalized_risk "Diabetes, Thyroid")%Q.
Proof.
  split; [reflexivity|].
  apply (proj1 (proj2 (proj2 (normalized_risk_formula "Diabetes, Thyroid")))).
  reflexivity.
Defined.


(** * Shared state: the objects behind the globals *)

(** [predict] once more, over a store of objects, to see what a call
    writes to.  The globals hold references to the objects the artifact
    files unpickled to; a collaborator keeps a state of its own, which its
    method may change; a dict holds references, so that the dict
    [_ensure_scaler_format] hands back is the very dict a global refers to;
    and the [DataFrame] of a call is an object that the call creates and
    then writes to.  No function of [helper.py] has a [global] statement or
    an assignment to an item of a dict, so the monad below has no operation
    for either.  The values of the input record are immutable and the record
    is only read with [get]: it is passed as the map it is. *)

Module Store.

(** An object that is not a dict.  [hidden] is whatever a collaborator keeps
    between calls: its method gets it and hands back the next one. *)
Inductive object : Type :=
| Regressor (hidden : Z) (predict_ : Z -> list num -> outcome pyfloat * Z)
| Scaler (hidden : Z) (transform : Z -> list num -> outcome (list pyfloat) * Z)
| Columns (names : list string).

(** A reference to what an artifact file unpickled to: an object, or a dict
    whose values are references to objects. *)
Inductive ref : Type :=
| Plain (a : nat)
| Dict (a : nat).

(** The module globals; [None] is Python's [None]. *)
Record globals : Type := {
  model_young : option ref;
  model_rest : option ref;
  scaler_young : option ref;
  scaler_rest : option ref
}.

(** The memory of the process: the globals of the module and the objects,
    dicts and data frames that exist, by address. *)
Record world : Type := {
  module_ : globals;
  objects : gmap nat object;
  dicts : gmap nat (gmap string nat);
  frames : gmap nat frame
}.

Definition set_objects (w : world) (os : gmap nat object) : world :=
  {| module_ := module_ w; objects := os; dicts := dicts w; frames := frames w |}.

Definition set_dicts (w : world) (ds : gmap nat (gmap string nat)) : world :=
  {| module_ := module_ w; objects := objects w; dicts := ds; frames := frames w |}.

Definition set_frames (w : world) (fs : gmap nat frame) : world :=
  {| module_ := module_ w; objects := objects w; dicts := dicts w; frames := fs |}.

Definition M (A : Type) : Type := world -> result A * world.

Definition ret {A} (a : A) : M A := fun w => (Ok a, w).
Definition raise {A} (e : exn) : M A := fun w => (Raise e, w).
Definition lift {A} (r : result A) : M A := fun w => (r, w).
Definition read {A} (field : globals -> A) : M A :=
  fun w => (Ok (field (module_ w)), w).
Definition bind {A B} (m : M A) (k : A -> M B) : M B :=
  fun w =>
    match m w with
    | (Ok a, w') => k a w'
    | (Raise e, w') => (Raise e, w')
    end.

Declare Scope store_scope.
Notation "x <- m ;; k" := (bind m (fun x => k))
  (at level 100, m at next level, right associativity, only parsing)
  : store_scope.
Notation "m ;; k" := (bind m (fun _ => k))
  (at level 100, right associativity, only parsing) : store_scope.
Local Open Scope store_scope.

(** Following a reference to nothing; no Python reference is one. *)
Definition dangling : exn := Foreign "dangling reference".

Definition deref {A} (heap : world -> gmap nat A) (a : nat) : M A :=
  fun w =>
    match heap w !! a with
    | Some x => (Ok x, w)
    | None => (Raise dangling, w)
    end.

(** Creating an object: it gets an address no object has. *)
Definition new_object (o : object) : M nat :=
  fun w =>
    let a := fresh (dom (objects w)) in
    (Ok a, set_objects w (<[a := o]> (objects w))).

Definition new_dict (d : gmap string nat) : M nat :=
  fun w =>
    let a := fresh (dom (dicts w)) in
    (Ok a, set_dicts w (<[a := d]> (dicts w))).

Definition new_frame (df : frame) : M nat :=
  fun w =>
    let a := fresh (dom (frames w)) in
    (Ok a, set_frames w (<[a := df]> (frames w))).

(** Writing to an object that exists. *)
Definition put_object (a : nat) (o : object) : M unit :=
  fun w => (Ok tt, set_objects w (<[a := o]> (objects w))).

Definition put_frame (a : nat) (df : frame) : M unit :=
  fun w => (Ok tt, set_frames w (<[a := df]> (frames w))).

(** A write to the frame at [df], as [df.at[0, c] = v] is.  An
    [if]/[elif] block of such writes is one update; where no branch of it is
    taken, the frame is put back as it was. *)
Definition update (df : nat) (f : frame -> frame) : M unit :=
  d <- deref frames df ;;
  put_frame df (f d).

(** [o.predict(cells)] and [o.transform(cells)]: the method runs on the
    state the object holds, and the object holds the next state afterwards. *)
Definition call_predict (m : ref) (cells : list num) : M pyfloat :=
  match m with
  | Plain a =>
      o <- deref objects a ;;
      match o with
      | Regressor hidden predict_ =>
          put_object a (Regressor (snd (predict_ hidden cells)) predict_) ;;
          lift (lift_outcome (fst (predict_ hidden cells)))
      | _ => raise AttributeError
      end
  | Dict _ => raise AttributeError
  end.

Definition call_transform (a : nat) (cells : list num) : M (list pyfloat) :=
  o <- deref objects a ;;
  match o with
  | Scaler hidden transform =>
      put_object a (Scaler (snd (transform hidden cells)) transform) ;;
      lift (lift_outcome (fst (transform hidden cells)))
  | _ => raise AttributeError
  end.

(** A dict that has both keys is handed back as it is, the same object the
    global refers to; a bare scaler is wrapped in a dict made for the call. *)
Definition _ensure_scaler_format (scaler_obj : option ref) : M (option nat) :=
  match scaler_obj with
  | None => ret None
  | Some (Dict a) =>
      d <- deref dicts a ;;
      if has_key "scaler" d && has_key "cols_to_scale" d
      then ret (Some a)
      else raise (ValueError scaler_dict_msg [])
  | Some (Plain a) =>
      cols <- new_object (Columns ["age"; "income_lakhs"]) ;;
      wrapped <- new_dict (<["scaler" := a]> (<["cols_to_scale" := cols]> ∅)) ;;
      ret (Some wrapped)
  end.

(** [d[k]] on a dict of the store. *)
Definition getitem (d : nat) (k : string) : M nat :=
  entries <- deref dicts d ;;
  lift (getitem entries k).

(** Iterating over the object at [a] as a list of column names. *)
Definition iter_columns (a : nat) : M (list string) :=
  o <- deref objects a ;;
  match o with
  | Columns names => ret names
  | _ => raise TypeError
  end.

(** [int(df.at[0, "age"])] *)
Definition age_of (df : nat) : M Z :=
  d <- deref frames df ;;
  lift (age_of d).

Definition scaler_for (age : Z) : globals -> option ref :=
  if (age <=? 25)%Z then scaler_young else scaler_rest.

Definition model_for (age : Z) : globals -> option ref :=
  if (age <=? 25)%Z then model_young else model_rest.

Section Encoder.

Context (py : builtins).

(** Lines 126-177 of [preprocess_input]: the frame is created, then written
    to cell by cell. *)
Definition encode_fields (input_dict : gmap string pyval) : M nat :=
  df <- new_frame (DataFrame_zeros _EXPECTED_COLUMNS) ;;
  age <- lift (py_int py (get input_dict "Age" (VInt 0))) ;;
  update df <["age" := NInt age]> ;;
  dependants <- lift (py_int py (get input_dict "Number of Dependants" (VInt 0))) ;;
  update df <["number_of_dependants" := NInt dependants]> ;;
  income <- lift (py_float py (get input_dict "Income in Lakhs" (VFloat (Finite 0)))) ;;
  update df <["income_lakhs" := NFloat income]> ;;
  risk <- lift (py_float py (get input_dict "Genetical Risk" (VFloat (Finite 0)))) ;;
  update df <["genetical_risk" := NFloat risk]> ;;
  update df <["insurance_plan" :=
                NInt (insurance_code (get input_dict "Insurance Plan" (VStr "Bronze")))]> ;;
  gender <- lift (method_lower (get input_dict "Gender" (VStr EmptyString))) ;;
  update df (set_gender gender) ;;
  update df (set_region (category py input_dict "Region")) ;;
  update df (set_marital_status (category py input_dict "Marital Status")) ;;
  update df (set_bmi_category (category py input_dict "BMI Category")) ;;
  update df (set_smoking_status (category py input_dict "Smoking Status")) ;;
  update df (set_employment_status (category py input_dict "Employment Status")) ;;
  update df <["normalized_risk_score" :=
                NFloat (Finite (calculate_normalized_risk
                                  (VStr (py_str py (get input_dict "Medical History"
                                                        (VStr EmptyString))))))]> ;;
  ret df.

(** Lines 179-197: the scaler of the band, applied to the frame at [df]. *)
Definition apply_scaler (df : nat) : M unit :=
  age <- age_of df ;;
  loaded <- read (scaler_for age) ;;
  scaler_obj <- _ensure_scaler_format loaded ;;
  match scaler_obj with
  | None => ret tt
  | Some bundle =>
      cols_obj <- getitem bundle "cols_to_scale" ;;
      scaler <- getitem bundle "scaler" ;;
      cols <- iter_columns cols_obj ;;
      d <- deref frames df ;;
      match List.filter (fun c => negb (has_key c d)) cols with
      | [] =>
          values <- call_transform scaler (select d cols) ;;
          d <- deref frames df ;;
          scaled <- lift (assign d cols values) ;;
          put_frame df scaled
      | missing => raise (SchemaMismatch missing)
      end
  end.

Definition preprocess_input (input_dict : gmap string pyval) : M nat :=
  df <- encode_fields input_dict ;;
  apply_scaler df ;;
  ret df.

Definition predict (input_dict : gmap string pyval) : M Z :=
  my <- read model_young ;;
  mr <- read model_rest ;;
  match my, mr with
  | Some _, Some _ =>
      df <- preprocess_input input_dict ;;
      age <- age_of df ;;
      model <- read (model_for age) ;;
      d <- deref frames df ;;
      val <- match model with
             | Some m => call_predict m (row d)
             | None => raise AttributeError
             end ;;
      rounded <- lift (py_round val) ;;
      ret (Z.max 0 rounded)
  | _, _ => raise ModelsUnavailable
  end.

End Encoder.


(** ** What a call may change *)

(** The objects a collaborator can turn into by its own method calls. *)
Inductive evolves : object -> object -> Prop :=
| evolves_refl o : evolves o o
| evolves_predict hidden predict_ cells o :
    evolves (Regressor (snd (predict_ hidden cells)) predict_) o ->
    evolves (Regressor hidden predict_) o
| evolves_transform hidden transform cells o :
    evolves (Scaler (snd (transform hidden cells)) transform) o ->
    evolves (Scaler hidden transform) o.

(** The contract of a collaborator: its method hands back the state it was
    given. *)
Definition settled (o : object) : Prop :=
  match o with
  | Regressor hidden predict_ => forall cells, snd (predict_ hidden cells) = hidden
  | Scaler hidden transform => forall cells, snd (transform hidden cells) = hidden
  | Columns _ => True
  end.

Definition stateless (w : world) : Prop :=
  forall a o, objects w !! a = Some o -> settled o.

(** [w] is [w0] some steps later: the globals are bound as they were, the
    dicts and frames of [w0] are as they were, its objects have changed by
    their own methods only, and the objects made since are lists of column
    names. *)
Record keeps (w0 w : world) : Prop := {
  keeps_module : module_ w = module_ w0;
  keeps_objects : forall a o,
    objects w0 !! a = Some o -> exists o', objects w !! a = Some o' /\ evolves o o';
  keeps_new_objects : forall a o,
    objects w0 !! a = None -> objects w !! a = Some o -> exists names, o = Columns names;
  keeps_dicts : forall a d, dicts w0 !! a = Some d -> dicts w !! a = Some d;
  keeps_frames : forall a d, frames w0 !! a = Some d -> frames w !! a = Some d
}.

(** A computation that keeps [w0], and whose value satisfies [Q]. *)
Definition local (w0 : world) {A} (m : M A) (Q : A -> Prop) : Prop :=
  forall w, keeps w0 w ->
            keeps w0 (snd (m w)) /\ forall a, fst (m w) = Ok a -> Q a.

Lemma evolves_trans o1 o2 o3 : evolves o1 o2 -> evolves o2 o3 -> evolves o1 o3.
Proof.
  intros H12 H23. induction H12.
  - exact H23.
  - eapply evolves_predict. apply IHevolves, H23.
  - eapply evolves_transform. apply IHevolves, H23.
Qed.

Lemma evolves_settled o o' : settled o -> evolves o o' -> o' = o.
Proof.
  intros Hs He. induction He.
  - reflexivity.
  - simpl in Hs. rewrite Hs in IHHe. apply IHHe. exact Hs.
  - simpl in Hs. rewrite Hs in IHHe. apply IHHe. exact Hs.
Qed.

Lemma keeps_refl w : keeps w w.
Proof.
  split; try (intros; assumption).
  - reflexivity.
  - intros a o H. exists o. split; [exact H|apply evolves_refl].
  - intros a o H1 H2. congruence.
Qed.

Lemma local_ret w0 {A} (a : A) (Q : A -> Prop) : Q a -> local w0 (ret a) Q.
Proof. intros H w Hw. split; [exact Hw|]. intros a' [= <-]. exact H. Qed.

Lemma local_raise w0 {A} e (Q : A -> Prop) : local w0 (raise e) Q.
Proof. intros w Hw. split; [exact Hw|]. intros a' [=]. Qed.

Lemma local_lift w0 {A} (r : result A) : local w0 (lift r) (fun _ => True).
Proof. intros w Hw. split; [exact Hw|]. intros; exact I. Qed.

Lemma local_read w0 {A} (field : globals -> A) : local w0 (read field) (fun _ => True).
Proof. intros w Hw. split; [exact Hw|]. intros; exact I. Qed.

Lemma local_deref w0 {A} (heap : world -> gmap nat A) a :
  local w0 (deref heap a) (fun _ => True).
Proof.
  intros w Hw. unfold deref. destruct (heap w !! a); (split; [exact Hw|]);
    intros; exact I.
Qed.

Lemma local_bind w0 {A B} (m : M A) (k : A -> M B) (P : A -> Prop) (Q : B -> Prop) :
  local w0 m P -> (forall a, P a -> local w0 (k a) Q) -> local w0 (bind m k) Q.
Proof.
  intros Hm Hk w Hw. unfold bind.
  destruct (Hm w Hw) as [Hw' HP]. destruct (m w) as [[a|e] w']; simpl in *.
  - apply (Hk a (HP a eq_refl) w' Hw').
  - split; [exact Hw'|]. intros a [=].
Qed.

(** A new frame is none of the frames of [w0]. *)
Lemma local_new_frame w0 df :
  local w0 (new_frame df) (fun a => frames w0 !! a = None).
Proof.
  intros w Hw. unfold new_frame. simpl.
  pose proof (is_fresh (dom (frames w))) as Hfresh.
  apply not_elem_of_dom in Hfresh.
  assert (Hold : frames w0 !! fresh (dom (frames w)) = None).
  { destruct (frames w0 !! fresh (dom (frames w))) as [d|] eqn:Hd; [|reflexivity].
    apply (keeps_frames _ _ Hw) in Hd. congruence. }
  split.
  - destruct Hw as [Hm Ho Hn Hd Hf]. split; simpl; try assumption.
    intros a d Ha. rewrite lookup_insert_ne by congruence. apply Hf, Ha.
  - intros a [= <-]. exact Hold.
Qed.

Lemma local_new_columns w0 names :
  local w0 (new_object (Columns names)) (fun _ => True).
Proof.
  intros w Hw. unfold new_object. simpl.
  pose proof (is_fresh (dom (objects w))) as Hfresh.
  apply not_elem_of_dom in Hfresh.
  split; [|intros; exact I].
  destruct Hw as [Hm Ho Hn Hd Hf]. split; simpl; try assumption.
  - intros a o Ha. destruct (Ho a o Ha) as (o' & Ho' & He).
    exists o'. split; [|exact He].
    rewrite lookup_insert_ne by congruence. exact Ho'.
  - intros a o Ha Hnew.
    destruct (decide (fresh (dom (objects w)) = a)) as [<-|Hne].
    + rewrite lookup_insert_eq in Hnew. exists names. congruence.
    + rewrite lookup_insert_ne in Hnew by exact Hne. apply (Hn a o Ha Hnew).
Qed.

Lemma local_new_dict w0 d : local w0 (new_dict d) (fun _ => True).
Proof.
  intros w Hw. unfold new_dict. simpl.
  pose proof (is_fresh (dom (dicts w))) as Hfresh.
  apply not_elem_of_dom in Hfresh.
  split; [|intros; exact I].
  destruct Hw as [Hm Ho Hn Hd Hf]. split; simpl; try assumption.
  intros a d' Ha. rewrite lookup_insert_ne; [apply Hd, Ha|].
  intros <-. apply Hd in Ha. congruence.
Qed.

(** A write to a frame that is none of the frames of [w0]. *)
Lemma local_put_frame w0 a df :
  frames w0 !! a = None -> local w0 (put_frame a df) (fun _ => True).
Proof.
  intros Hnew w Hw. split; [|intros; exact I].
  destruct Hw as [Hm Ho Hn Hd Hf]. split; simpl; try assumption.
  intros a' d Ha. rewrite lookup_insert_ne by congruence. apply Hf, Ha.
Qed.

Lemma local_update w0 a f :
  frames w0 !! a = None -> local w0 (update a f) (fun _ => True).
Proof.
  intros Hnew. unfold update.
  eapply local_bind; [apply local_deref|]. intros d _.
  apply local_put_frame, Hnew.
Qed.

(** The object at [a] after one more call of its method. *)
Lemma keeps_step w0 w a o o' :
  keeps w0 w -> objects w !! a = Some o -> evolves o o' ->
  (forall names, o <> Columns names) ->
  keeps w0 (set_objects w (<[a := o']> (objects w))).
Proof.
  intros [Hm Ho Hn Hd Hf] Ha He Hcol. split; simpl; try assumption.
  - intros a' o0 Ha'. destruct (Ho a' o0 Ha') as (o1 & Ho1 & He1).
    destruct (decide (a = a')) as [<-|Hne].
    + exists o'. rewrite lookup_insert_eq. split; [reflexivity|].
      assert (o1 = o) by congruence. subst o1.
      eapply evolves_trans; eassumption.
    + exists o1. rewrite lookup_insert_ne by exact Hne. split; assumption.
  - intros a' o0 Ha' Hnew.
    destruct (decide (a = a')) as [<-|Hne].
    + destruct (Hn a o Ha' Ha) as [names ->]. exfalso. apply (Hcol names eq_refl).
    + rewrite lookup_insert_ne in Hnew by exact Hne. apply (Hn a' o0 Ha' Hnew).
Qed.

Lemma local_call_predict w0 m cells :
  local w0 (call_predict m cells) (fun _ => True).
Proof.
  intros w Hw. split; [|intros; exact I].
  destruct m as [a|a]; [|exact Hw].
  unfold call_predict, bind, deref.
  destruct (objects w !! a) as [[hidden predict_|hidden transform|names]|] eqn:Ha;
    simpl; try exact Hw.
  unfold lift, put_object. simpl.
  apply (keeps_step w0 w a (Regressor hidden predict_));
    [exact Hw|exact Ha|eapply evolves_predict, evolves_refl|discriminate].
Qed.

Lemma local_call_transform w0 a cells :
  local w0 (call_transform a cells) (fun _ => True).
Proof.
  intros w Hw. split; [|intros; exact I].
  unfold call_transform, bind, deref.
  destruct (objects w !! a) as [[hidden predict_|hidden transform|names]|] eqn:Ha;
    simpl; try exact Hw.
  unfold lift, put_object. simpl.
  apply (keeps_step w0 w a (Scaler hidden transform));
    [exact Hw|exact Ha|eapply evolves_transform, evolves_refl|discriminate].
Qed.

(** One step of a footprint proof: the rule of the operation at hand. *)
Ltac local_step :=
  first
    [ apply local_lift | apply local_read | apply local_deref
    | apply local_raise | apply local_new_columns | apply local_new_dict
    | apply local_call_predict | apply local_call_transform
    | apply local_ret; exact I
    | apply local_update; assumption
    | apply local_put_frame; assumption ].

Ltac local_steps :=
  repeat first
    [ local_step
    | eapply local_bind; [local_step|intros ? _] ].

Lemma local_ensure_scaler_format w0 scaler_obj :
  local w0 (_ensure_scaler_format scaler_obj) (fun _ => True).
Proof.
  unfold _ensure_scaler_format. destruct scaler_obj as [[a|a]|].
  - local_steps.
  - eapply local_bind; [local_step|intros d _].
    destruct (has_key "scaler" d && has_key "cols_to_scale" d); local_steps.
  - local_steps.
Qed.

Lemma local_getitem w0 d k : local w0 (getitem d k) (fun _ => True).
Proof. unfold getitem. local_steps. Qed.

Lemma local_iter_columns w0 a : local w0 (iter_columns a) (fun _ => True).
Proof.
  unfold iter_columns. eapply local_bind; [local_step|intros o _].
  destruct o; local_steps.
Qed.

Lemma local_age_of w0 df : local w0 (age_of df) (fun _ => True).
Proof. unfold age_of. local_steps. Qed.

(** The frame of a call is none of the frames of [w0]. *)
Lemma local_encode_fields w0 py input :
  local w0 (encode_fields py input) (fun df => frames w0 !! df = None).
Proof.
  unfold encode_fields.
  eapply local_bind; [apply local_new_frame|]. intros df Hdf.
  repeat (eapply local_bind; [local_step|intros ? _]).
  apply local_ret. exact Hdf.
Qed.

Lemma local_apply_scaler w0 df :
  frames w0 !! df = None -> local w0 (apply_scaler df) (fun _ => True).
Proof.
  intros Hdf. unfold apply_scaler.
  eapply local_bind; [apply local_age_of|intros age _].
  eapply local_bind; [local_step|intros loaded _].
  eapply local_bind; [apply local_ensure_scaler_format|intros scaler_obj _].
  destruct scaler_obj as [bundle|]; [|local_steps].
  eapply local_bind; [apply local_getitem|intros cols_obj _].
  eapply local_bind; [apply local_getitem|intros scaler _].
  eapply local_bind; [apply local_iter_columns|intros cols _].
  eapply local_bind; [local_step|intros d _].
  destruct (List.filter _ cols); local_steps.
Qed.

Lemma local_preprocess_input w0 py input :
  local w0 (preprocess_input py input) (fun df => frames w0 !! df = None).
Proof.
  unfold preprocess_input.
  eapply local_bind; [apply local_encode_fields|]. intros df Hdf.
  eapply local_bind; [apply local_apply_scaler, Hdf|intros ? _].
  apply local_ret. exact Hdf.
Qed.

Lemma local_predict w0 py input :
  local w0 (predict py input) (fun _ => True).
Proof.
  unfold predict.
  eapply local_bind; [local_step|intros my _].
  eapply local_bind; [local_step|intros mr _].
  destruct my, mr; try apply local_raise.
  eapply local_bind; [apply local_preprocess_input|intros df Hdf].
  eapply local_bind; [apply local_age_of|intros age _].
  eapply local_bind; [local_step|intros model _].
  eapply local_bind; [local_step|intros d _].
  eapply local_bind; [destruct model; local_step|intros val _].
  local_steps.
Qed.

(** Under the contract of the collaborators nothing of [w0] changes at all,
    and the contract still holds. *)
Lemma keeps_stateless w0 w :
  stateless w0 -> keeps w0 w ->
  stateless w /\
  (forall a o, objects w0 !! a = Some o -> objects w !! a = Some o).
Proof.
  intros Hs [Hm Ho Hn Hd Hf].
  assert (Hsame : forall a o, objects w0 !! a = Some o -> objects w !! a = Some o).
  { intros a o Ha. destruct (Ho a o Ha) as (o' & Ho' & He).
    rewrite (evolves_settled o o' (Hs a o Ha) He) in Ho'. exact Ho'. }
  split; [|exact Hsame].
  intros a o Ha. destruct (objects w0 !! a) as [o0|] eqn:H0.
  - pose proof (Hsame a o0 H0) as H1. assert (o = o0) by congruence. subst o0.
    apply (Hs a o H0).
  - destruct (Hn a o H0 Ha) as [names ->]. exact I.
Qed.

End Store.

(** ** The store and the globals it stands for *)

(** A collaborator as the function it is while its state stays the same. *)
Definition obj_of (o : Store.object) : obj :=
  match o with
  | Store.Regressor hidden predict_ => Regressor (fun cells => fst (predict_ hidden cells))
  | Store.Scaler hidden transform => Scaler (fun cells => fst (transform hidden cells))
  | Store.Columns names => Columns names
  end.

Definition holds (w : Store.world) (a : nat) (o : obj) : Prop :=
  obj_of <$> Store.objects w !! a = Some o.

Definition represents_ref (w : Store.world) (r : option Store.ref)
    (loaded : option artifact) : Prop :=
  match r, loaded with
  | None, None => True
  | Some (Store.Plain a), Some (Plain o) => holds w a o
  | Some (Store.Dict a), Some (Dict d) =>
      exists entries,
        Store.dicts w !! a = Some entries /\
        forall k, option_Forall2 (holds w) (entries !! k) (d !! k)
  | _, _ => False
  end.

(** The globals [g] of the functional model are what the globals of [w]
    refer to. *)
Definition represents (w : Store.world) (g : globals) : Prop :=
  represents_ref w (Store.model_young (Store.module_ w)) (model_young g) /\
  represents_ref w (Store.model_rest (Store.module_ w)) (model_rest g) /\
  represents_ref w (Store.scaler_young (Store.module_ w)) (scaler_young g) /\
  represents_ref w (Store.scaler_rest (Store.module_ w)) (scaler_rest g).

Lemma bind_new_frame {B} d (k : nat -> Store.M B) w :
  Store.bind (Store.new_frame d) k w
  = k (fresh (dom (Store.frames w)))
      (Store.set_frames w (<[fresh (dom (Store.frames w)) := d]> (Store.frames w))).
Proof. reflexivity. Qed.

Lemma bind_lift {A B} (r : result A) (k : A -> Store.M B) w :
  Store.bind (Store.lift r) k w
  = match r with Ok a => k a w | Raise e => (Raise e, w) end.
Proof. destruct r; reflexivity. Qed.

Lemma bind_update {B} df f d fs (k : unit -> Store.M B) w :
  Store.bind (Store.update df f) k (Store.set_frames w (<[df := d]> fs))
  = k tt (Store.set_frames w (<[df := f d]> fs)).
Proof.
  unfold Store.update, Store.bind, Store.deref, Store.put_frame, Store.set_frames.
  cbn [Store.frames Store.module_ Store.objects Store.dicts].
  rewrite lookup_insert_eq. cbn [Store.frames Store.module_ Store.objects Store.dicts].
  rewrite insert_insert_eq. reflexivity.
Qed.

Lemma encode_fields_raises py input e :
  (py_int py (get input "Age" (VInt 0)) = Raise e) \/
  (exists age, py_int py (get input "Age" (VInt 0)) = Ok age /\
     (py_int py (get input "Number of Dependants" (VInt 0)) = Raise e \/
      exists dependants,
        py_int py (get input "Number of Dependants" (VInt 0)) = Ok dependants /\
        (py_float py (get input "Income in Lakhs" (VFloat (Finite 0))) = Raise e \/
         exists income,
           py_float py (get input "Income in Lakhs" (VFloat (Finite 0))) = Ok income /\
           (py_float py (get input "Genetical Risk" (VFloat (Finite 0))) = Raise e \/
            exists risk,
              py_float py (get input "Genetical Risk" (VFloat (Finite 0))) = Ok risk /\
              method_lower (get input "Gender" (VStr EmptyString)) = Raise e)))) ->
  encode_fields py input = Raise e.
Proof.
  intros [Ha|(age & Ha & [Hd|(dependants & Hd & [Hi|(income & Hi & [Hr|(risk & Hr & Hg)])])])];
    unfold encode_fields.
  - rewrite Ha. reflexivity.
  - rewrite Ha, Hd. reflexivity.
  - rewrite Ha, Hd, Hi. reflexivity.
  - rewrite Ha, Hd, Hi, Hr. reflexivity.
  - rewrite Ha, Hd, Hi, Hr, Hg. reflexivity.
Qed.

Lemma store_encode_fields py input w :
  exists d,
    Store.encode_fields py input w
    = (match encode_fields py input with
       | Ok _ => Ok (fresh (dom (Store.frames w)))
       | Raise e => Raise e
       end,
       Store.set_frames w (<[fresh (dom (Store.frames w)) := d]> (Store.frames w))) /\
    forall d', encode_fields py input = Ok d' -> d' = d.
Proof.
  unfold Store.encode_fields. rewrite bind_new_frame.
  set (df := fresh (dom (Store.frames w))). set (fs := Store.frames w).
  rewrite bind_lift.
  destruct (py_int py (get input "Age" (VInt 0))) as [age|e] eqn:Ha.
  2: { rewrite (encode_fields_raises py input e) by auto.
       eexists. split; [reflexivity|discriminate]. }
  rewrite bind_update, bind_lift.
  destruct (py_int py (get input "Number of Dependants" (VInt 0)))
    as [dependants|e] eqn:Hd.
  2: { rewrite (encode_fields_raises py input e) by eauto 10.
       eexists. split; [reflexivity|discriminate]. }
  rewrite bind_update, bind_lift.
  destruct (py_float py (get input "Income in Lakhs" (VFloat (Finite 0))))
    as [income|e] eqn:Hi.
  2: { rewrite (encode_fields_raises py input e) by eauto 10.
       eexists. split; [reflexivity|discriminate]. }
  rewrite bind_update, bind_lift.
  destruct (py_float py (get input "Genetical Risk" (VFloat (Finite 0))))
    as [risk|e] eqn:Hr.
  2: { rewrite (encode_fields_raises py input e) by eauto 15.
       eexists. split; [reflexivity|discriminate]. }
  rewrite !bind_update, bind_lift.
  destruct (method_lower (get input "Gender" (VStr EmptyString)))
    as [gender|e] eqn:Hg.
  2: { rewrite (encode_fields_raises py input e) by eauto 20.
       eexists. split; [reflexivity|discriminate]. }
  rewrite !bind_update.
  assert (Hpure : encode_fields py input
                  = Ok (encoded py input age dependants income risk gender)).
  { unfold encode_fields. rewrite Ha, Hd, Hi, Hr, Hg. reflexivity. }
  rewrite Hpure. exists (encoded py input age dependants income risk gender).
  split; [reflexivity|]. intros d' H. apply Ok_inj in H. symmetry. exact H.
Qed.

(** ** The calls that leave the store as it is *)

Lemma bind_eq {A B} (m : Store.M A) (k : A -> Store.M B) w r w' :
  m w = (r, w') ->
  Store.bind m k w = match r with Ok a => k a w' | Raise e => (Raise e, w') end.
Proof. intros H. unfold Store.bind. rewrite H. destruct r; reflexivity. Qed.

Lemma bind_read {A B} (field : Store.globals -> A) (k : A -> Store.M B) w :
  Store.bind (Store.read field) k w = k (field (Store.module_ w)) w.
Proof. reflexivity. Qed.

Lemma store_deref {A} (heap : Store.world -> gmap nat A) a x w :
  heap w !! a = Some x -> Store.deref heap a w = (Ok x, w).
Proof. intros H. unfold Store.deref. rewrite H. reflexivity. Qed.

Lemma store_age_of df d w :
  Store.frames w !! df = Some d -> Store.age_of df w = (age_of d, w).
Proof.
  intros H. unfold Store.age_of.
  rewrite (bind_eq _ _ _ _ _ (store_deref Store.frames df d w H)). reflexivity.
Qed.

Lemma store_getitem b k entries w :
  Store.dicts w !! b = Some entries ->
  Store.getitem b k w = (getitem entries k, w).
Proof.
  intros H. unfold Store.getitem.
  rewrite (bind_eq _ _ _ _ _ (store_deref Store.dicts b entries w H)). reflexivity.
Qed.

Lemma store_iter_columns a o w :
  Store.objects w !! a = Some o ->
  Store.iter_columns a w = (iter_columns (obj_of o), w).
Proof.
  intros H. unfold Store.iter_columns.
  rewrite (bind_eq _ _ _ _ _ (store_deref Store.objects a o w H)).
  destruct o; reflexivity.
Qed.

(** A write of what is there already. *)
Lemma put_object_same a o w :
  Store.objects w !! a = Some o ->
  Store.set_objects w (<[a := o]> (Store.objects w)) = w.
Proof.
  intros H. destruct w as [m os ds fs]. unfold Store.set_objects. simpl in *.
  rewrite (insert_id os a o H). reflexivity.
Qed.

(** Under its contract a collaborator's call is the call of a function. *)
Lemma store_call_transform a o cells w :
  Store.objects w !! a = Some o -> Store.settled o ->
  Store.call_transform a cells w = (call_transform (obj_of o) cells, w).
Proof.
  intros H Hs. unfold Store.call_transform.
  rewrite (bind_eq _ _ _ _ _ (store_deref Store.objects a o w H)).
  destruct o as [hidden predict_|hidden transform|names]; try reflexivity.
  simpl in Hs. unfold Store.bind, Store.put_object, Store.lift. rewrite Hs.
  rewrite (put_object_same _ _ _ H). reflexivity.
Qed.

Lemma store_call_predict a o cells w :
  Store.objects w !! a = Some o -> Store.settled o ->
  Store.call_predict (Store.Plain a) cells w
  = (call_predict (Plain (obj_of o)) cells, w).
Proof.
  intros H Hs. unfold Store.call_predict.
  rewrite (bind_eq _ _ _ _ _ (store_deref Store.objects a o w H)).
  destruct o as [hidden predict_|hidden transform|names]; try reflexivity.
  simpl in Hs. unfold Store.bind, Store.put_object, Store.lift. rewrite Hs.
  rewrite (put_object_same _ _ _ H). reflexivity.
Qed.

Lemma holds_inv w a o :
  holds w a o -> exists so, Store.objects w !! a = Some so /\ obj_of so = o.
Proof.
  unfold holds. destruct (Store.objects w !! a) as [so|]; [|discriminate].
  intros [= H]. exists so. split; [reflexivity|exact H].
Qed.

Lemma has_key_entries w (entries : gmap string nat) (d : gmap string obj) k :
  (forall k, option_Forall2 (holds w) (entries !! k) (d !! k)) ->
  has_key k entries = has_key k d.
Proof.
  intros H. unfold has_key. destruct (H k); reflexivity.
Qed.

(** [_ensure_scaler_format] hands back a dict of the store that stands for
    the dict of the functional model. *)
Lemma store_ensure_scaler_format w r loaded :
  represents_ref w r loaded -> Store.stateless w ->
  Store.stateless (snd (Store._ensure_scaler_format r w)) /\
  Store.frames (snd (Store._ensure_scaler_format r w)) = Store.frames w /\
  match _ensure_scaler_format loaded with
  | Ok None => fst (Store._ensure_scaler_format r w) = Ok None
  | Ok (Some d) =>
      exists b entries,
        fst (Store._ensure_scaler_format r w) = Ok (Some b) /\
        Store.dicts (snd (Store._ensure_scaler_format r w)) !! b = Some entries /\
        forall k, option_Forall2 (holds (snd (Store._ensure_scaler_format r w)))
                    (entries !! k) (d !! k)
  | Raise e => fst (Store._ensure_scaler_format r w) = Raise e
  end.
Proof.
  intros Hrep Hs.
  destruct r as [[a|a]|], loaded as [[o|d]|]; simpl in Hrep; try contradiction.
  - (* a bare object: wrapped *)
    apply holds_inv in Hrep. destruct Hrep as (so & Ha & Hso).
    change (Store._ensure_scaler_format (Some (Store.Plain a)) w)
      with (Ok (Some (fresh (dom (Store.dicts w)))),
            Store.set_dicts
              (Store.set_objects w
                 (<[fresh (dom (Store.objects w)) := Store.Columns ["age"; "income_lakhs"]]>
                    (Store.objects w)))
              (<[fresh (dom (Store.dicts w)) :=
                   <["scaler" := a]>
                     (<["cols_to_scale" := fresh (dom (Store.objects w))]> ∅)]>
                 (Store.dicts w))).
    cbn [fst snd]. set (c := fresh (dom (Store.objects w))).
    set (b := fresh (dom (Store.dicts w))).
    assert (Hc : Store.objects w !! c = None).
    { apply not_elem_of_dom, is_fresh. }
    assert (Hac : c <> a) by congruence.
    split; [|split; [reflexivity|]].
    + intros a' o'. cbn [Store.objects Store.set_dicts Store.set_objects].
      intros [[_ <-]|[_ H]]%lookup_insert_Some; [exact I|apply (Hs a' o' H)].
    + cbn [_ensure_scaler_format]. eexists b, _. split; [reflexivity|].
      cbn [Store.dicts Store.set_dicts]. split; [apply lookup_insert_eq|].
      intros k. unfold holds. cbn [Store.objects Store.set_dicts Store.set_objects].
      destruct (decide (k = "scaler")) as [->|Hk1].
      { rewrite !lookup_insert_eq. constructor.
        rewrite lookup_insert_ne by exact Hac. rewrite Ha. simpl. congruence. }
      rewrite (lookup_insert_ne _ "scaler" k) by congruence.
      rewrite (lookup_insert_ne _ "scaler" k) by congruence.
      destruct (decide (k = "cols_to_scale")) as [->|Hk2].
      { rewrite !lookup_insert_eq. constructor.
        rewrite lookup_insert_eq. reflexivity. }
      rewrite !lookup_insert_ne by congruence. rewrite !lookup_empty. constructor.
  - (* a dict: the same dict, once its keys are checked *)
    destruct Hrep as (entries & Ha & Hentries).
    unfold Store._ensure_scaler_format.
    rewrite (bind_eq _ _ _ _ _ (store_deref Store.dicts a entries w Ha)).
    cbn [_ensure_scaler_format].
    rewrite !(has_key_entries w entries d _ Hentries).
    destruct (has_key "scaler" d && has_key "cols_to_scale" d); cbn [fst snd].
    + split; [exact Hs|]. split; [reflexivity|].
      exists a, entries. split; [reflexivity|]. split; assumption.
    + split; [exact Hs|]. split; reflexivity.
  - split; [exact Hs|]. split; reflexivity.
Qed.

(** ** The results are those of the functional model *)

Lemma represents_scaler_for w g age :
  represents w g ->
  represents_ref w (Store.scaler_for age (Store.module_ w)) (scaler_for age g).
Proof.
  intros (_ & _ & Hy & Hr). unfold Store.scaler_for, scaler_for.
  destruct (age <=? 25)%Z; assumption.
Qed.

Lemma represents_model_for w g age :
  represents w g ->
  represents_ref w (Store.model_for age (Store.module_ w)) (model_for age g).
Proof.
  intros (Hy & Hr & _ & _). unfold Store.model_for, model_for.
  destruct (age <=? 25)%Z; assumption.
Qed.

(** The frame at [df] after [apply_scaler] is the frame [apply_scaler] of
    the functional model computes, and the exceptions are the same. *)
Lemma store_apply_scaler df d w g :
  represents w g -> Store.stateless w -> Store.frames w !! df = Some d ->
  match run (apply_scaler d) g with
  | Ok d' =>
      fst (Store.apply_scaler df w) = Ok tt /\
      Store.frames (snd (Store.apply_scaler df w)) !! df = Some d'
  | Raise e => fst (Store.apply_scaler df w) = Raise e
  end.
Proof.
  intros Hrep Hs Hdf. rewrite run_apply_scaler. unfold Store.apply_scaler.
  rewrite (bind_eq _ _ _ _ _ (store_age_of df d w Hdf)).
  destruct (age_of d) as [age|e]; cbn [and_then]; [|reflexivity].
  rewrite bind_read.
  pose proof (store_ensure_scaler_format w _ _
                (represents_scaler_for w g age Hrep) Hs) as (Hs' & Hfs & Hfmt).
  destruct (Store._ensure_scaler_format (Store.scaler_for age (Store.module_ w)) w)
    as [r w'] eqn:Hrun.
  rewrite (bind_eq _ _ _ _ _ Hrun).
  cbn [fst snd] in Hs', Hfs, Hfmt.
  assert (Hdf' : Store.frames w' !! df = Some d) by (rewrite Hfs; exact Hdf).
  destruct (_ensure_scaler_format (scaler_for age g)) as [[bundle|]|e];
    cbn [and_then].
  - destruct Hfmt as (b & entries & -> & Hb & Hentries).
    rewrite (bind_eq _ _ _ _ _ (store_getitem b "cols_to_scale" entries w' Hb)).
    unfold getitem.
    destruct (Hentries "cols_to_scale") as [c cols_obj Hc|]; cbn [and_then];
      [|reflexivity].
    rewrite (bind_eq _ _ _ _ _ (store_getitem b "scaler" entries w' Hb)).
    unfold getitem.
    destruct (Hentries "scaler") as [s scaler Hscaler|]; cbn [and_then];
      [|reflexivity].
    apply holds_inv in Hc. destruct Hc as (co & Hc & <-).
    apply holds_inv in Hscaler. destruct Hscaler as (so & Hso & <-).
    rewrite (bind_eq _ _ _ _ _ (store_iter_columns c co w' Hc)).
    destruct (iter_columns (obj_of co)) as [cols|e]; cbn [and_then]; [|reflexivity].
    rewrite (bind_eq _ _ _ _ _ (store_deref Store.frames df d w' Hdf')).
    destruct (List.filter (fun c => negb (has_key c d)) cols); [|reflexivity].
    rewrite (bind_eq _ _ _ _ _
               (store_call_transform s so (select d cols) w' Hso (Hs' s so Hso))).
    destruct (call_transform (obj_of so) (select d cols)) as [values|e];
      cbn [and_then]; [|reflexivity].
    rewrite (bind_eq _ _ _ _ _ (store_deref Store.frames df d w' Hdf')).
    rewrite bind_lift.
    destruct (assign d cols values) as [scaled|e]; [|reflexivity].
    split; [reflexivity|]. apply lookup_insert_eq.
  - rewrite Hfmt. split; [reflexivity|exact Hdf'].
  - rewrite Hfmt. reflexivity.
Qed.

Lemma represents_ref_keeps w0 w r loaded :
  Store.stateless w0 -> Store.keeps w0 w ->
  represents_ref w0 r loaded -> represents_ref w r loaded.
Proof.
  intros Hs Hk. destruct (Store.keeps_stateless w0 w Hs Hk) as [_ Hsame].
  assert (Hholds : forall a o, holds w0 a o -> holds w a o).
  { intros a o (so & Ha & <-)%holds_inv. unfold holds.
    rewrite (Hsame a so Ha). reflexivity. }
  destruct r as [[a|a]|], loaded as [[o|d]|]; simpl; try (intros H; exact H).
  - apply Hholds.
  - intros (entries & Ha & Hentries). exists entries.
    split; [apply (Store.keeps_dicts _ _ Hk), Ha|].
    intros k. destruct (Hentries k); constructor. apply Hholds. assumption.
Qed.

Lemma represents_keeps w0 w g :
  Store.stateless w0 -> Store.keeps w0 w -> represents w0 g -> represents w g.
Proof.
  intros Hs Hk (Hy & Hr & Hsy & Hsr). unfold represents.
  rewrite (Store.keeps_module _ _ Hk).
  repeat split; eapply represents_ref_keeps; eassumption.
Qed.

Lemma store_preprocess_input py input w g :
  represents w g -> Store.stateless w ->
  match run (preprocess_input py input) g with
  | Ok d =>
      exists df,
        fst (Store.preprocess_input py input w) = Ok df /\
        Store.frames (snd (Store.preprocess_input py input w)) !! df = Some d
  | Raise e => fst (Store.preprocess_input py input w) = Raise e
  end.
Proof.
  intros Hrep Hs. rewrite run_preprocess_input. unfold Store.preprocess_input.
  destruct (store_encode_fields py input w) as (d0 & Henc & Hd0).
  rewrite (bind_eq _ _ _ _ _ Henc).
  destruct (encode_fields py input) as [d|e]; cbn [and_then]; [|reflexivity].
  rewrite <- (Hd0 d eq_refl). clear Henc Hd0 d0.
  set (df := fresh (dom (Store.frames w))).
  set (w1 := Store.set_frames w (<[df := d]> (Store.frames w))).
  assert (Hdf : Store.frames w1 !! df = Some d) by apply lookup_insert_eq.
  pose proof (store_apply_scaler df d w1 g Hrep Hs Hdf) as Hscale.
  destruct (Store.apply_scaler df w1) as [r w2] eqn:Hrun.
  rewrite (bind_eq _ _ _ _ _ Hrun). cbn [fst snd] in Hscale.
  destruct (run (apply_scaler d) g) as [d'|e].
  - destruct Hscale as [-> Hd']. exists df. split; [reflexivity|exact Hd'].
  - rewrite Hscale. reflexivity.
Qed.

(** [predict] over the store returns what [predict] of the functional model
    returns on the globals the store stands for. *)
Lemma store_predict py input w g :
  represents w g -> Store.stateless w ->
  fst (Store.predict py input w) = run (predict py input) g.
Proof.
  intros Hrep Hs. rewrite run_predict. unfold Store.predict.
  rewrite !bind_read.
  assert (Hy : represents_ref w (Store.model_young (Store.module_ w)) (model_young g))
    by apply Hrep.
  assert (Hr : represents_ref w (Store.model_rest (Store.module_ w)) (model_rest g))
    by apply Hrep.
  destruct (Store.model_young (Store.module_ w)) as [ry|], (model_young g) as [my|];
    try (destruct ry; contradiction); try contradiction; [|reflexivity].
  destruct (Store.model_rest (Store.module_ w)) as [rr|], (model_rest g) as [mr|];
    try (destruct rr; contradiction); try contradiction; [|reflexivity].
  clear Hy Hr.
  pose proof (store_preprocess_input py input w g Hrep Hs) as Hpre.
  destruct (Store.local_preprocess_input w py input w (Store.keeps_refl w))
    as [Hkeeps _].
  destruct (Store.preprocess_input py input w) as [r w2] eqn:Hrun.
  rewrite (bind_eq _ _ _ _ _ Hrun). cbn [fst snd] in Hpre, Hkeeps.
  destruct (run (preprocess_input py input) g) as [d|e]; cbn [and_then];
    [|rewrite Hpre; reflexivity].
  destruct Hpre as (df & -> & Hdf).
  destruct (Store.keeps_stateless w w2 Hs Hkeeps) as [Hs2 _].
  pose proof (represents_keeps w w2 g Hs Hkeeps Hrep) as Hrep2.
  rewrite (bind_eq _ _ _ _ _ (store_age_of df d w2 Hdf)).
  destruct (age_of d) as [age|e]; cbn [and_then]; [|reflexivity].
  rewrite bind_read.
  rewrite (bind_eq _ _ _ _ _ (store_deref Store.frames df d w2 Hdf)).
  pose proof (represents_model_for w2 g age Hrep2) as Hmodel.
  destruct (Store.model_for age (Store.module_ w2)) as [[a|a]|],
      (model_for age g) as [[o|bundle]|]; simpl in Hmodel; try contradiction.
  - apply holds_inv in Hmodel. destruct Hmodel as (so & Ha & <-).
    rewrite (bind_eq _ _ _ _ _
               (store_call_predict a so (row d) w2 Ha (Hs2 a so Ha))).
    destruct (call_predict (Plain (obj_of so)) (row d)) as [val|e];
      cbn [and_then]; [|reflexivity].
    rewrite bind_lift. destruct (py_round val); reflexivity.
  - reflexivity.
  - reflexivity.
Qed.

(** ** A store to run on *)

(** A regressor of the store that answers [q] and keeps no state. *)
Definition constant_regressor (q : Q) : Store.object :=
  Store.Regressor 0 (fun hidden _ => (Returns (Finite q), hidden)).

(** Two models, and for the band above 25 a dict with a scaler for the
    income. *)
Definition sample_world : Store.world :=
  {| Store.module_ :=
       {| Store.model_young := Some (Store.Plain 0%nat);
          Store.model_rest := Some (Store.Plain 1%nat);
          Store.scaler_young := None;
          Store.scaler_rest := Some (Store.Dict 0%nat) |};
     Store.objects :=
       <[0%nat := constant_regressor 111]>
       (<[1%nat := constant_regressor 222]>
       (<[2%nat := Store.Scaler 0 (fun hidden cells => (percent cells, hidden))]>
       (<[3%nat := Store.Columns ["income_lakhs"]]> ∅)));
     Store.dicts := <[0%nat := <["scaler" := 2%nat]> (<["cols_to_scale" := 3%nat]> ∅)]> ∅;
     Store.frames := ∅ |}.

(** The globals that store stands for. *)
Definition sample_world_globals : globals :=
  {| model_young := Some (constant_model 111);
     model_rest := Some (constant_model 222);
     scaler_young := None;
     scaler_rest :=
       Some (Dict (<["scaler" := Scaler percent]>
                   (<["cols_to_scale" := Columns ["income_lakhs"]]> ∅))) |}.

(** A regressor that answers the number of calls it has had. *)
Definition counting_regressor : Store.object :=
  Store.Regressor 0 (fun hidden _ => (Returns (Finite (inject_Z hidden)), hidden + 1)).

Definition counting_world : Store.world :=
  {| Store.module_ :=
       {| Store.model_young := Some (Store.Plain 0%nat);
          Store.model_rest := Some (Store.Plain 1%nat);
          Store.scaler_young := None;
          Store.scaler_rest := None |};
     Store.objects :=
       <[0%nat := constant_regressor 111]> (<[1%nat := counting_regressor]> ∅);
     Store.dicts := ∅;
     Store.frames := ∅ |}.

Lemma sample_world_stateless : Store.stateless sample_world.
Proof.
  intros a o. unfold sample_world. cbn [Store.objects].
  intros H. repeat (apply lookup_insert_Some in H; destruct H as [[_ <-]|[_ H]];
                    [simpl; auto|]).
  rewrite lookup_empty in H. discriminate.
Qed.

Lemma sample_world_represents : represents sample_world sample_world_globals.
Proof.
  repeat split.
  exists (<["scaler" := 2%nat]> (<["cols_to_scale" := 3%nat]> ∅)).
  split; [reflexivity|]. intros k.
  destruct (decide (k = "scaler")) as [->|Hk1].
  { rewrite !lookup_insert_eq. constructor. reflexivity. }
  rewrite (lookup_insert_ne _ "scaler" k) by congruence.
  rewrite (lookup_insert_ne _ "scaler" k) by congruence.
  destruct (decide (k = "cols_to_scale")) as [->|Hk2].
  { rewrite !lookup_insert_eq. constructor. reflexivity. }
  rewrite !lookup_insert_ne by congruence. rewrite !lookup_empty. constructor.
Qed.

(** C9. A call of [predict] rebinds no global and writes to no dict and to
    no data frame that existed before it, and an object that existed before
    it has changed only by what its own [predict] or [transform] does to it.
    When the collaborators keep their contract, the objects are unchanged
    too, the result is the one of the functional model, and a second call on
    the same record returns what the first returned. *)
Theorem predict_keeps_shared_state py input w :
  Store.module_ (snd (Store.predict py input w)) = Store.module_ w /\
  (forall a d, Store.dicts w !! a = Some d ->
               Store.dicts (snd (Store.predict py input w)) !! a = Some d) /\
  (forall a d, Store.frames w !! a = Some d ->
               Store.frames (snd (Store.predict py input w)) !! a = Some d) /\
  (forall a o, Store.objects w !! a = Some o ->
               exists o', Store.objects (snd (Store.predict py input w)) !! a = Some o' /\
                          Store.evolves o o') /\
  (Store.stateless w ->
   (forall a o, Store.objects w !! a = Some o ->
                Store.objects (snd (Store.predict py input w)) !! a = Some o) /\
   forall g, represents w g ->
     fst (Store.predict py input w) = run (predict py input) g /\
     fst (Store.predict py input (snd (Store.predict py input w)))
     = fst (Store.predict py input w)).
Proof.
  destruct (Store.local_predict w py input w (Store.keeps_refl w)) as [Hkeeps _].
  split; [apply (Store.keeps_module _ _ Hkeeps)|].
  split; [apply (Store.keeps_dicts _ _ Hkeeps)|].
  split; [apply (Store.keeps_frames _ _ Hkeeps)|].
  split; [apply (Store.keeps_objects _ _ Hkeeps)|].
  intros Hs.
  destruct (Store.keeps_stateless _ _ Hs Hkeeps) as [Hs1 Hsame].
  split; [exact Hsame|]. intros g Hrep.
  rewrite (store_predict py input w g Hrep Hs).
  split; [reflexivity|].
  apply store_predict; [|exact Hs1].
  apply (represents_keeps w); assumption.
Qed.

Lemma predict_keeps_shared_state_witness :
  fst (Store.predict plain_builtins (sample 30) sample_world) = Ok 222 /\
  fst (Store.predict plain_builtins (sample 30)
         (snd (Store.predict plain_builtins (sample 30) sample_world))) = Ok 222.
Proof.
  destruct (predict_keeps_shared_state plain_builtins (sample 30) sample_world)
    as (_ & _ & _ & _ & H).
  destruct (H sample_world_stateless) as [_ Hg].
  destruct (Hg sample_world_globals sample_world_represents) as [H1 H2].
  assert (Hrun : run (predict plain_builtins (sample 30)) sample_world_globals = Ok 222)
    by (vm_compute; reflexivity).
  rewrite H2, H1. split; exact Hrun.
Defined.

Lemma stateful_model_is_seen :
  fst (Store.predict plain_builtins (sample 30) counting_world) = Ok 0 /\
  fst (Store.predict plain_builtins (sample 30)
         (snd (Store.predict plain_builtins (sample 30) counting_world))) = Ok 1.
Proof. vm_compute. split; reflexivity. Qed.


(** * Further properties of the encoder and of the predictor *)

(** ** [float] of an [int] *)

Lemma two53_below_limit : two53 < float_limit.
Proof. vm_compute. reflexivity. Qed.

Lemma nearest_float_two53 : nearest_float two53 = two53.
Proof. vm_compute. reflexivity. Qed.

Lemma nearest_float_small a : a <= two53 -> nearest_float a = a.
Proof.
  intros H. destruct (Z.ltb_spec a two53) as [Hlt|Hge].
  - unfold nearest_float.
    destruct (Z.ltb_spec a two53) as [_|Hge]; [reflexivity|lia].
  - assert (a = two53) by lia. subst a. apply nearest_float_two53.
Qed.

(** Up to [2 ^ 53] in absolute value an [int] is its own float. *)
Lemma float_of_int_exact z :
  Z.abs z <= two53 -> float_of_int z = Ok (Finite (inject_Z z)).
Proof.
  intros H. unfold float_of_int. rewrite (nearest_float_small _ H).
  pose proof two53_below_limit as Hlim.
  destruct (Z.leb_spec float_limit (Z.abs z)) as [Hle|_]; [lia|].
  do 3 f_equal. destruct z; simpl; lia.
Qed.

(** The first integer that is not a float is rounded to its even
    neighbour. *)
Lemma float_of_int_rounds :
  float_of_int (two53 + 1) = Ok (Finite (inject_Z two53)) /\
  float_of_int (two53 + 3) = Ok (Finite (inject_Z (two53 + 4))).
Proof. split; vm_compute; reflexivity. Qed.

(** The largest float is [2 ^ 1024 - 2 ^ 971]: the integers below the tie
    with [2 ^ 1024] are rounded to it, the tie itself and what lies above
    have no float. *)
Lemma float_of_int_largest :
  float_of_int (float_limit - 2 ^ 970 - 1)
  = Ok (Finite (inject_Z (float_limit - 2 ^ 971))) /\
  float_of_int (float_limit - 2 ^ 970) = Raise OverflowError /\
  float_of_int (- (float_limit - 2 ^ 970)) = Raise OverflowError.
Proof. repeat split; vm_compute; reflexivity. Qed.

Lemma nearest_float_large a : float_limit <= a -> float_limit <= nearest_float a.
Proof.
  intros Ha. pose proof two53_below_limit as Hlim.
  unfold nearest_float.
  destruct (Z.ltb_spec a two53) as [Hlt|_]; [lia|].
  assert (Hpos : 0 < a) by (unfold float_limit in Ha; lia).
  destruct (Z.log2_spec a Hpos) as [Hlo _].
  set (k := Z.log2 a) in *.
  assert (Hk : 1024 <= k).
  { unfold k. change 1024 with (Z.log2 float_limit).
    apply Z.log2_le_mono. exact Ha. }
  set (unit := 2 ^ (k - 52)).
  assert (Hunit : 0 < unit) by (apply Z.pow_pos_nonneg; lia).
  assert (Hsplit : 2 ^ k = 2 ^ 52 * unit).
  { unfold unit. rewrite <- Z.pow_add_r by lia. f_equal. lia. }
  assert (Hq : 2 ^ 52 <= a / unit).
  { apply Z.div_le_lower_bound; [exact Hunit|]. rewrite Z.mul_comm. lia. }
  assert (Hfloor : float_limit <= (a / unit) * unit).
  { apply Z.le_trans with (2 ^ k).
    - unfold float_limit. apply Z.pow_le_mono_r; lia.
    - rewrite Hsplit. apply Z.mul_le_mono_nonneg_r; lia. }
  assert (Hceil : float_limit <= (a / unit + 1) * unit) by nia.
  destruct (2 * (a mod unit) ?= unit)%Z; try assumption.
  destruct (Z.even (a / unit)); assumption.
Qed.

(** An [int] of absolute value [2 ^ 1024] or more has no float. *)
Lemma float_of_int_overflow z :
  float_limit <= Z.abs z -> float_of_int z = Raise OverflowError.
Proof.
  intros H. unfold float_of_int.
  destruct (Z.leb_spec float_limit (nearest_float (Z.abs z))) as [_|Hlt];
    [reflexivity|].
  pose proof (nearest_float_large _ H). lia.
Qed.

(** ** When the encoding succeeds *)




(** ** The numeric cells *)

Lemma encoded_dependants py input age dependants income risk gender :
  encoded py input age dependants income risk gender !! "number_of_dependants"
  = Some (NInt dependants).
Proof. unfold encoded. skip_blocks. apply lookup_insert_eq. Qed.

Lemma encoded_income py input age dependants income risk gender :
  encoded py input age dependants income risk gender !! "income_lakhs"
  = Some (NFloat income).
Proof. unfold encoded. skip_blocks. apply lookup_insert_eq. Qed.

Lemma encoded_genetical_risk py input age dependants income risk gender :
  encoded py input age dependants income risk gender !! "genetical_risk"
  = Some (NFloat risk).
Proof. unfold encoded. skip_blocks. apply lookup_insert_eq. Qed.

Lemma encoded_risk_score py input age dependants income risk gender :
  encoded py input age dependants income risk gender !! "normalized_risk_score"
  = Some (NFloat (Finite (calculate_normalized_risk
                            (VStr (py_str py (get input "Medical History"
                                                  (VStr EmptyString))))))).
Proof. unfold encoded. apply lookup_insert_eq. Qed.

(** The four numeric cells of the encoded frame hold the coerced values of
    the record: [int] of the age and of the dependants, [float] of the income
    and of the genetical risk.  An absent field gives 0; an [int] age is
    kept, a finite [float] age is truncated towards zero, and an [int] income
    becomes the nearest float, ties to the even significand: that float is
    below [2 ^ 1024], and it is the income itself when the income is at most
    [2 ^ 53] in absolute value. *)
Theorem numeric_cells py input df :
  encode_fields py input = Ok df ->
  (exists age dependants income risk,
      py_int py (get input "Age" (VInt 0)) = Ok age /\
      py_int py (get input "Number of Dependants" (VInt 0)) = Ok dependants /\
      py_float py (get input "Income in Lakhs" (VFloat (Finite 0))) = Ok income /\
      py_float py (get input "Genetical Risk" (VFloat (Finite 0))) = Ok risk /\
      df !! "age" = Some (NInt age) /\
      df !! "number_of_dependants" = Some (NInt dependants) /\
      df !! "income_lakhs" = Some (NFloat income) /\
      df !! "genetical_risk" = Some (NFloat risk)) /\
  (input !! "Age" = None -> df !! "age" = Some (NInt 0)) /\
  (input !! "Number of Dependants" = None ->
   df !! "number_of_dependants" = Some (NInt 0)) /\
  (input !! "Income in Lakhs" = None ->
   df !! "income_lakhs" = Some (NFloat (Finite 0))) /\
  (input !! "Genetical Risk" = None ->
   df !! "genetical_risk" = Some (NFloat (Finite 0))) /\
  (forall z, input !! "Age" = Some (VInt z) -> df !! "age" = Some (NInt z)) /\
  (forall q, input !! "Age" = Some (VFloat (Finite q)) ->
             df !! "age" = Some (NInt (Qtrunc q))) /\
  (forall z, input !! "Income in Lakhs" = Some (VInt z) ->
             nearest_float (Z.abs z) < float_limit /\
             df !! "income_lakhs" =
             Some (NFloat (Finite (inject_Z (Z.sgn z * nearest_float (Z.abs z)))))) /\
  (forall z, input !! "Income in Lakhs" = Some (VInt z) -> Z.abs z <= two53 ->
             df !! "income_lakhs" = Some (NFloat (Finite (inject_Z z)))).
Proof.
  intros H.
  apply encode_fields_inv in H
    as (a & d & i & r & gd & Ha & Hd & Hi & Hr & _ & ->).
  rewrite encoded_age, encoded_dependants, encoded_income, encoded_genetical_risk.
  split.
  { exists a, d, i, r. repeat (split; [assumption || reflexivity|]). reflexivity. }
  unfold get in Ha, Hd, Hi, Hr.
  split; [intros Hk; rewrite Hk in Ha; simpl in Ha; congruence|].
  split; [intros Hk; rewrite Hk in Hd; simpl in Hd; congruence|].
  split; [intros Hk; rewrite Hk in Hi; simpl in Hi; congruence|].
  split; [intros Hk; rewrite Hk in Hr; simpl in Hr; congruence|].
  split; [intros z Hk; rewrite Hk in Ha; simpl in Ha; congruence|].
  split; [intros q Hk; rewrite Hk in Ha; simpl in Ha; congruence|].
  split.
  - intros z Hk. rewrite Hk in Hi. simpl in Hi.
    revert Hi. unfold float_of_int.
    destruct (Z.leb_spec float_limit (nearest_float (Z.abs z))) as [|Hlt];
      intros Hi; [discriminate|].
    split; [assumption|congruence].
  - intros z Hk Hsmall. rewrite Hk in Hi. simpl in Hi.
    rewrite (float_of_int_exact z Hsmall) in Hi. congruence.
Qed.

Lemma numeric_cells_witness :
  exists df,
    encode_fields plain_builtins (sample 30) = Ok df /\
    df !! "age" = Some (NInt 30) /\
    df !! "income_lakhs" = Some (NFloat (Finite (inject_Z 12))).
Proof.
  eexists. split; [exact sample_encoded|].
  pose proof (numeric_cells plain_builtins (sample 30) _ sample_encoded)
    as (_ & _ & _ & _ & _ & Hint & _ & _ & Hinc).
  split.
  - apply Hint. vm_compute. reflexivity.
  - apply Hinc.
    + vm_compute. reflexivity.
    + vm_compute. discriminate.
Defined.

(** ** The columns of the frame *)

Lemma assign_dom (cols : list string) :
  forall (values : list pyfloat) (df df' : frame),
    assign df cols values = Ok df' ->
    (forall c, c ∈ cols -> is_Some (df !! c)) ->
    dom df' = dom df.
Proof.
  unfold assign. intros values df df'.
  destruct (Nat.eqb (List.length cols) (List.length values)); [|discriminate].
  intros H. apply Ok_inj in H. subst df'. revert values df.
  induction cols as [|c cols IH]; intros values df Hin; [reflexivity|].
  destruct values as [|v values]; [reflexivity|].
  simpl. rewrite IH.
  - rewrite dom_insert_L. apply union_absorbs. apply elem_of_dom. apply Hin. left.
  - intros c' Hc'. rewrite lookup_insert.
    destruct (decide (c = c')); [eauto|]. apply Hin. right. exact Hc'.
Qed.

Lemma filter_nil_all {A} (f : A -> bool) (l : list A) :
  List.filter f l = [] -> forall x, x ∈ l -> f x = false.
Proof.
  intros H x Hx. destruct (f x) eqn:Hf; [|reflexivity].
  assert (Hin : In x (List.filter f l))
    by (apply List.filter_In; split; [apply list_elem_of_In; exact Hx|exact Hf]).
  rewrite H in Hin. destruct Hin.
Qed.

Lemma apply_scaler_dom (df df' : frame) g :
  run (apply_scaler df) g = Ok df' -> dom df' = dom df.
Proof.
  rewrite run_apply_scaler.
  destruct (age_of df) as [age|]; simpl; [|discriminate].
  destruct (_ensure_scaler_format (scaler_for age g)) as [[d|]|]; simpl;
    [| intros H; apply Ok_inj in H; subst; reflexivity | discriminate].
  destruct (getitem d "cols_to_scale") as [cols_obj|]; simpl; [|discriminate].
  destruct (getitem d "scaler") as [scaler|]; simpl; [|discriminate].
  destruct (iter_columns cols_obj) as [cols|]; simpl; [|discriminate].
  destruct (List.filter _ cols) eqn:Hf; [|discriminate].
  destruct (call_transform scaler (select df cols)) as [values|]; simpl;
    [|discriminate].
  intros Hassign. eapply assign_dom; [exact Hassign|].
  intros c Hc. apply has_key_true.
  pose proof (filter_nil_all _ _ Hf c Hc) as Hk. simpl in Hk.
  apply negb_false_iff. exact Hk.
Qed.

Lemma row_lookup (df : frame) :
  dom df = expected_set ->
  row df = map (fun c => default (NInt 0) (df !! c)) _EXPECTED_COLUMNS /\
  forall c, c ∈ _EXPECTED_COLUMNS -> is_Some (df !! c).
Proof.
  intros Hd.
  assert (Hall : forall c, c ∈ _EXPECTED_COLUMNS -> is_Some (df !! c)).
  { intros c Hc. apply elem_of_dom. rewrite Hd. apply in_expected_set, Hc. }
  split; [|exact Hall].
  unfold row. revert Hall. generalize _EXPECTED_COLUMNS as cols.
  induction cols as [|c cols IH]; intros Hall; [reflexivity|].
  simpl. destruct (Hall c ltac:(left)) as [x Hx]. rewrite Hx. simpl.
  f_equal. apply IH. intros c' Hc'. apply Hall. right. exact Hc'.
Qed.

(** Whatever the record and the scalers, a frame that [preprocess_input]
    returns has exactly the 18 expected columns, and the row handed to the
    model lists their cells in the order of [_EXPECTED_COLUMNS]: scaling
    replaces cells, it never adds or drops a column. *)
Theorem frame_schema py input g df :
  run (preprocess_input py input) g = Ok df ->
  (forall c, is_Some (df !! c) <-> c ∈ _EXPECTED_COLUMNS) /\
  List.length (row df) = 18%nat /\
  (forall i c, _EXPECTED_COLUMNS !! i = Some c -> row df !! i = df !! c).
Proof.
  rewrite run_preprocess_input.
  destruct (encode_fields py input) as [df0|] eqn:H0; [|discriminate].
  simpl. intros Hrun.
  apply encode_fields_inv in H0 as (a & d & i & r & gd & _ & _ & _ & _ & _ & ->).
  assert (Hdom : dom df = expected_set).
  { rewrite (apply_scaler_dom _ _ _ Hrun). apply dom_encoded. }
  destruct (row_lookup df Hdom) as [Hrow Hall].
  split; [|split].
  - intros c. rewrite <- elem_of_dom, Hdom. apply elem_of_list_to_set.
  - rewrite Hrow, length_map. reflexivity.
  - intros n c Hn. rewrite Hrow, list_lookup_fmap, Hn. simpl.
    destruct (Hall c) as [x Hx]; [eapply list_elem_of_lookup_2; exact Hn|].
    rewrite Hx. reflexivity.
Qed.

Lemma frame_schema_witness :
  List.length (row (frame_of plain_builtins (sample 30) scaled_globals)) = 18%nat.
Proof.
  apply (frame_schema plain_builtins (sample 30) scaled_globals).
  apply frame_of_ok. vm_compute. reflexivity.
Defined.

(** ** One flag per group *)

Lemma flag_is_one b : Some (flag b) = Some (NInt 1) -> b = true.
Proof. destruct b; [reflexivity|discriminate]. Qed.

(** In the encoded frame every one-hot cell is 0 or 1, and within a group at
    most one cell is 1: two set flags of the same group are the same flag. *)
Theorem one_hot_exclusive py input df :
  encode_fields py input = Ok df ->
  (df !! "gender_Male" = Some (NInt 0) \/ df !! "gender_Male" = Some (NInt 1)) /\
  (forall key prefix names name,
      (key, prefix, names) ∈ one_hot_groups -> name ∈ names ->
      df !! (prefix ++ name) = Some (NInt 0) \/
      df !! (prefix ++ name) = Some (NInt 1)) /\
  (forall key prefix names name1 name2,
      (key, prefix, names) ∈ one_hot_groups ->
      name1 ∈ names -> name2 ∈ names ->
      df !! (prefix ++ name1) = Some (NInt 1) ->
      df !! (prefix ++ name2) = Some (NInt 1) ->
      name1 = name2).
Proof.
  intros H.
  apply encode_fields_inv in H as (a & d & i & r & gd & _ & _ & _ & _ & _ & ->).
  split; [|split].
  - rewrite encoded_gender_flag.
    destruct (String.eqb (Str.lower gd) "male"); [right|left]; reflexivity.
  - intros key prefix names name Hg Hn.
    rewrite (encoded_group_flag _ _ _ _ _ _ _ key prefix names name Hg Hn).
    destruct (String.eqb (category py input key) name); [right|left]; reflexivity.
  - intros key prefix names name1 name2 Hg H1 H2.
    rewrite (encoded_group_flag _ _ _ _ _ _ _ key prefix names name1 Hg H1).
    rewrite (encoded_group_flag _ _ _ _ _ _ _ key prefix names name2 Hg H2).
    intros E1 E2.
    apply flag_is_one in E1. apply flag_is_one in E2.
    apply String.eqb_eq in E1. apply String.eqb_eq in E2. congruence.
Qed.

Lemma one_hot_exclusive_witness :
  encoded plain_builtins (sample 30) 30 0
    (Finite (inject_Z 12)) (Finite (inject_Z 1)) (Str.lower "Male")
    !! "gender_Male" = Some (NInt 0) \/
  encoded plain_builtins (sample 30) 30 0
    (Finite (inject_Z 12)) (Finite (inject_Z 1)) (Str.lower "Male")
    !! "gender_Male" = Some (NInt 1).
Proof.
  exact (proj1 (one_hot_exclusive plain_builtins (sample 30) _ sample_encoded)).
Defined.

(** ** The risk cell *)

Lemma py_clip_bounds (q : Q) : (0 <= py_min (py_max q 0) 1 <= 1)%Q.
Proof.
  unfold py_min, py_max.
  destruct (Qle_bool 0 q) eqn:H0.
  - apply Qle_bool_iff in H0.
    destruct (Qle_bool q 1) eqn:H1.
    + apply Qle_bool_iff in H1. split; assumption.
    + split; discriminate.
  - destruct (Qle_bool 0 1) eqn:H1; split; discriminate.
Qed.

Lemma calculate_normalized_risk_bounds v :
  (0 <= calculate_normalized_risk v <= 1)%Q.
Proof.
  unfold calculate_normalized_risk.
  destruct v; try (split; discriminate).
  destruct (String.eqb (Str.strip s) EmptyString); [split; discriminate|].
  apply py_clip_bounds.
Qed.

(** The risk cell of the encoded frame is the score of [str] of the medical
    history: a finite number between 0 and 1 whatever the record holds, and 0
    when the record has no medical history. *)
Theorem risk_cell py input df :
  encode_fields py input = Ok df ->
  exists q,
    df !! "normalized_risk_score" = Some (NFloat (Finite q)) /\
    q = calculate_normalized_risk
          (VStr (py_str py (get input "Medical History" (VStr EmptyString)))) /\
    (0 <= q <= 1)%Q /\
    (input !! "Medical History" = None -> q = 0%Q).
Proof.
  intros H.
  apply encode_fields_inv in H as (a & d & i & r & gd & _ & _ & _ & _ & _ & ->).
  eexists. split; [apply encoded_risk_score|]. split; [reflexivity|]. split.
  - apply calculate_normalized_risk_bounds.
  - intros Hk. unfold get. rewrite Hk. reflexivity.
Qed.

Lemma risk_cell_witness :
  exists q,
    encoded plain_builtins (sample 30) 30 0
      (Finite (inject_Z 12)) (Finite (inject_Z 1)) (Str.lower "Male")
      !! "normalized_risk_score" = Some (NFloat (Finite q)) /\
    (0 <= q <= 1)%Q.
Proof.
  destruct (risk_cell plain_builtins (sample 30) _ sample_encoded)
    as (q & Hq & _ & Hb & _).
  exists q. split; assumption.
Defined.

(** ** What scaling writes *)

Lemma fold_assign_other (cols : list string) :
  forall (values : list pyfloat) (df : frame) k,
    k ∉ cols ->
    foldl (fun d cv => <[fst cv := NFloat (snd cv)]> d) df (combine cols values) !! k
    = df !! k.
Proof.
  induction cols as [|c cols IH]; intros values df k Hk; [reflexivity|].
  destruct values as [|v values]; [reflexivity|].
  simpl. rewrite IH by (intros Hin; apply Hk; right; exact Hin).
  apply lookup_insert_ne. intros ->. apply Hk. left.
Qed.

Lemma fold_assign_named (cols : list string) :
  forall (values : list pyfloat) (df : frame) i c v,
    NoDup cols -> cols !! i = Some c -> values !! i = Some v ->
    foldl (fun d cv => <[fst cv := NFloat (snd cv)]> d) df (combine cols values) !! c
    = Some (NFloat v).
Proof.
  induction cols as [|c0 cols IH]; intros values df i c v Hnd Hc Hv;
    [discriminate|].
  destruct values as [|v0 values]; [destruct i; discriminate|].
  apply NoDup_cons in Hnd as [Hnotin Hnd].
  destruct i as [|i]; simpl in Hc, Hv.
  - injection Hc as ->. injection Hv as ->. simpl.
    rewrite fold_assign_other by exact Hnotin. apply lookup_insert_eq.
  - simpl. eapply IH; eassumption.
Qed.

(** What a successful [apply_scaler] did, read back from its result. *)
Lemma apply_scaler_inv (df df' : frame) g age d :
  age_of df = Ok age ->
  _ensure_scaler_format (scaler_for age g) = Ok (Some d) ->
  run (apply_scaler df) g = Ok df' ->
  exists cols t values,
    d !! "cols_to_scale" = Some (Columns cols) /\
    d !! "scaler" = Some (Scaler t) /\
    t (select df cols) = Returns values /\
    List.length cols = List.length values /\
    df' = foldl (fun d cv => <[fst cv := NFloat (snd cv)]> d) df
                (combine cols values).
Proof.
  intros Hage Hfmt. rewrite run_apply_scaler, Hage. simpl. rewrite Hfmt. simpl.
  unfold getitem.
  destruct (d !! "cols_to_scale") as [cols_obj|]; simpl; [|discriminate].
  destruct (d !! "scaler") as [scaler|]; simpl; [|discriminate].
  destruct cols_obj as [f|t0|cols]; simpl; try discriminate.
  destruct (List.filter _ cols); [|discriminate].
  destruct scaler as [f|t|c]; simpl; try discriminate.
  destruct (t (select df cols)) as [values|w] eqn:Ht; simpl; [|discriminate].
  unfold assign.
  destruct (Nat.eqb (List.length cols) (List.length values)) eqn:Hlen;
    [|discriminate].
  intros H. apply Ok_inj in H. subst df'.
  exists cols, t, values. apply Nat.eqb_eq in Hlen.
  split; [reflexivity|]. split; [reflexivity|]. split; [exact Ht|].
  split; [exact Hlen|reflexivity].
Qed.

(** What [apply_scaler] has done to a frame [preprocess_input] returns. *)
Lemma scaled_frame_cells py input g df0 df age :
  encode_fields py input = Ok df0 ->
  py_int py (get input "Age" (VInt 0)) = Ok age ->
  run (preprocess_input py input) g = Ok df ->
  (forall k, k ∉ scaled_columns age g -> df !! k = df0 !! k) /\
  (forall d,
      _ensure_scaler_format (scaler_for age g) = Ok (Some d) ->
      exists cols t values,
        d !! "cols_to_scale" = Some (Columns cols) /\
        d !! "scaler" = Some (Scaler t) /\
        t (select df0 cols) = Returns values /\
        List.length values = List.length cols /\
        (NoDup cols ->
         forall i c v, cols !! i = Some c -> values !! i = Some v ->
                       df !! c = Some (NFloat v))).
Proof.
  intros Hdf0 Ha Hrun.
  rewrite run_preprocess_input, Hdf0 in Hrun. simpl in Hrun.
  assert (Hage : age_of df0 = Ok age).
  { apply encode_fields_inv in Hdf0
      as (a & d & i & r & gd & Ha' & _ & _ & _ & _ & ->).
    rewrite age_of_encoded. congruence. }
  split.
  - intros k Hk. eapply apply_scaler_other; eassumption.
  - intros d Hfmt.
    destruct (apply_scaler_inv df0 df g age d Hage Hfmt Hrun)
      as (cols & t & values & Hc & Ht & Hv & Hlen & ->).
    exists cols, t, values. repeat (split; [assumption || (symmetry; assumption)|]).
    intros Hnd i c v Hi Hvi. eapply fold_assign_named; eassumption.
Qed.

(** Scaling rewrites the cells of the columns the selected bundle names and
    no other: a column outside the list keeps its encoded cell; the scaler
    is handed the encoded cells of the named columns, in the order of the
    list, answers one value per column, and the i-th value becomes the cell
    of the i-th column. *)
Theorem scaling_touches_named_columns py input g df0 df age :
  encode_fields py input = Ok df0 ->
  py_int py (get input "Age" (VInt 0)) = Ok age ->
  run (preprocess_input py input) g = Ok df ->
  (forall k, k ∉ scaled_columns age g -> df !! k = df0 !! k) /\
  (forall d,
      _ensure_scaler_format (scaler_for age g) = Ok (Some d) ->
      exists cols t values,
        d !! "cols_to_scale" = Some (Columns cols) /\
        d !! "scaler" = Some (Scaler t) /\
        t (select df0 cols) = Returns values /\
        List.length values = List.length cols /\
        (NoDup cols ->
         forall i c v, cols !! i = Some c -> values !! i = Some v ->
                       df !! c = Some (NFloat v))).
Proof. apply scaled_frame_cells. Qed.

Lemma scaling_touches_named_columns_witness :
  frame_of plain_builtins (sample 30) scaled_globals !! "insurance_plan" =
  encoded plain_builtins (sample 30) 30 0
    (Finite (inject_Z 12)) (Finite (inject_Z 1)) (Str.lower "Male")
    !! "insurance_plan".
Proof.
  pose proof (scaling_touches_named_columns plain_builtins (sample 30)
                scaled_globals
                (encoded plain_builtins (sample 30) 30 0
                   (Finite (inject_Z 12)) (Finite (inject_Z 1)) (Str.lower "Male"))
                (frame_of plain_builtins (sample 30) scaled_globals)
                30 sample_encoded sample_age) as H.
  destruct H as [H _].
  - apply frame_of_ok. vm_compute. reflexivity.
  - apply H. refine (bool_decide_unpack _ _). vm_compute. exact I.
Defined.

(** ** A bare scaler *)

Lemma select_age_income py input age dependants income risk gender :
  select (encoded py input age dependants income risk gender)
         ["age"; "income_lakhs"]
  = [NInt age; NFloat income].
Proof.
  unfold select. cbn [omap list_omap].
  rewrite encoded_age, encoded_income. reflexivity.
Qed.

(** When the scaler of the band is a bare scaler object, a successful
    [preprocess_input] has called it once, on the pair of the integer age and
    the float income, has put the two values it answered in the cells [age]
    and [income_lakhs], and has left the 16 other cells as encoded. *)
Theorem bare_scaler_scales_age_and_income py input g df0 df age income t :
  encode_fields py input = Ok df0 ->
  py_int py (get input "Age" (VInt 0)) = Ok age ->
  py_float py (get input "Income in Lakhs" (VFloat (Finite 0))) = Ok income ->
  scaler_for age g = Some (Plain (Scaler t)) ->
  run (preprocess_input py input) g = Ok df ->
  exists age' income',
    t [NInt age; NFloat income] = Returns [age'; income'] /\
    df !! "age" = Some (NFloat age') /\
    df !! "income_lakhs" = Some (NFloat income') /\
    forall k, k <> "age" -> k <> "income_lakhs" -> df !! k = df0 !! k.
Proof.
  intros Hdf0 Ha Hi Hsel Hrun.
  assert (Hfmt : _ensure_scaler_format (scaler_for age g)
                 = Ok (Some (default_bundle (Scaler t))))
    by (rewrite Hsel; reflexivity).
  destruct (scaled_frame_cells py input g df0 df age Hdf0 Ha Hrun)
    as [Hother Hnamed].
  destruct (Hnamed _ Hfmt) as (cols & t' & values & Hc & Ht & Hv & Hlen & Hcells).
  unfold default_bundle in Hc, Ht.
  rewrite lookup_insert_ne in Hc by discriminate.
  rewrite lookup_insert_eq in Hc. rewrite lookup_insert_eq in Ht.
  injection Hc as <-. injection Ht as <-.
  apply encode_fields_inv in Hdf0
    as (a & d & i & r & gd & Ha' & _ & Hi' & _ & _ & ->).
  assert (a = age) by congruence. assert (i = income) by congruence. subst a i.
  rewrite select_age_income in Hv.
  destruct values as [|age' [|income' [|x values]]]; try discriminate.
  exists age', income'. split; [exact Hv|].
  assert (Hnd : NoDup ["age"; "income_lakhs"]).
  { apply NoDup_cons. split.
    - intros Hin. apply list_elem_of_In in Hin. simpl in Hin.
      destruct Hin as [Hin|[]]. discriminate.
    - apply NoDup_cons. split; [apply not_elem_of_nil|apply NoDup_nil_2]. }
  split; [apply (Hcells Hnd 0%nat); reflexivity|].
  split; [apply (Hcells Hnd 1%nat); reflexivity|].
  intros k Hk1 Hk2. apply Hother.
  unfold scaled_columns. rewrite Hfmt. unfold default_bundle.
  rewrite lookup_insert_ne by discriminate. rewrite lookup_insert_eq.
  intros Hin. apply list_elem_of_In in Hin. simpl in Hin.
  destruct Hin as [Hin|[Hin|[]]]; congruence.
Qed.

Lemma sample_income :
  py_float plain_builtins (get (sample 30) "Income in Lakhs" (VFloat (Finite 0)))
  = Ok (Finite (inject_Z 12)).
Proof. vm_compute. reflexivity. Qed.

Lemma bare_scaler_scales_age_and_income_witness :
  exists age' income',
    percent [NInt 30; NFloat (Finite (inject_Z 12))] = Returns [age'; income'] /\
    frame_of plain_builtins (sample 30) scaled_globals !! "age"
    = Some (NFloat age').
Proof.
  destruct (bare_scaler_scales_age_and_income plain_builtins (sample 30)
              scaled_globals _ (frame_of plain_builtins (sample 30) scaled_globals)
              30 (Finite (inject_Z 12)) percent
              sample_encoded sample_age sample_income eq_refl)
    as (a & i & Ht & Hage & _).
  - apply frame_of_ok. vm_compute. reflexivity.
  - exists a, i. split; assumption.
Defined.

(** ** Dispatch on the age of the record *)

(** When the columns the selected bundle names do not include [age] (in
    particular when the band has no bundle), the age [predict] reads back
    from the frame is the age of the record, and the model consulted is
    [model_young] for an age up to 25 and [model_rest] above. *)
Theorem dispatch_by_record_age py input g age df :
  py_int py (get input "Age" (VInt 0)) = Ok age ->
  "age" ∉ scaled_columns age g ->
  model_young g <> None -> model_rest g <> None ->
  run (preprocess_input py input) g = Ok df ->
  age_of df = Ok age /\
  run (predict py input) g =
  (val <~ match model_for age g with
          | Some m => call_predict m (row df)
          | None => Raise AttributeError
          end ;;
   rounded <~ py_round val ;;
   Ok (Z.max 0 rounded)) /\
  (age <= 25 -> model_for age g = model_young g) /\
  (25 < age -> model_for age g = model_rest g).
Proof.
  intros Ha Hcols Hy Hr Hrun.
  assert (Hage : age_of df = Ok age).
  { pose proof Hrun as Hrun'.
    rewrite run_preprocess_input in Hrun'.
    destruct (encode_fields py input) as [df0|] eqn:Hdf0; [|discriminate].
    simpl in Hrun'.
    destruct (scaled_frame_cells py input g df0 df age Hdf0 Ha Hrun)
      as [Hother _].
    unfold age_of, at_. rewrite (Hother "age" Hcols).
    apply encode_fields_inv in Hdf0
      as (a & d & i & r & gd & Ha' & _ & _ & _ & _ & ->).
    rewrite encoded_age. simpl. congruence. }
  split; [exact Hage|]. split.
  - rewrite run_predict.
    destruct (model_young g); [|congruence].
    destruct (model_rest g); [|congruence].
    rewrite Hrun. simpl. rewrite Hage. reflexivity.
  - unfold model_for. split; intros Hcmp.
    + apply Z.leb_le in Hcmp. rewrite Hcmp. reflexivity.
    + apply Z.leb_gt in Hcmp. rewrite Hcmp. reflexivity.
Qed.

Lemma dispatch_by_record_age_witness :
  age_of (frame_of plain_builtins (sample 30) unscaled_globals) = Ok 30.
Proof.
  apply (dispatch_by_record_age plain_builtins (sample 30) unscaled_globals 30 _
           sample_age).
  - refine (bool_decide_unpack _ _). vm_compute. exact I.
  - discriminate.
  - discriminate.
  - apply frame_of_ok. vm_compute. reflexivity.
Defined.

(** ** Outputs that are not numbers, and collaborators that raise *)

(** A model that answers NaN, or an infinity. *)
Definition nan_globals : globals :=
  {| model_young := Some (Plain (Regressor (fun _ => Returns NaN)));
     model_rest := Some (Plain (Regressor (fun _ => Returns NaN)));
     scaler_young := None;
     scaler_rest := None |}.

(** A model that raises. *)
Definition failing_globals : globals :=
  {| model_young := Some (Plain (Regressor (fun _ => Raises "not fitted")));
     model_rest := Some (Plain (Regressor (fun _ => Raises "not fitted")));
     scaler_young := None;
     scaler_rest := None |}.

(** [predict] turns no model output that is not a finite number into a
    premium: on NaN the [round] of line 220 raises [ValueError], on either
    infinity [OverflowError]. *)
Theorem non_finite_output_raises py input g df age m :
  model_young g <> None -> model_rest g <> None ->
  run (preprocess_input py input) g = Ok df ->
  age_of df = Ok age ->
  model_for age g = Some m ->
  (call_predict m (row df) = Ok NaN ->
   run (predict py input) g =
   Raise (ValueError "cannot convert float NaN to integer" [])) /\
  (forall negative,
      call_predict m (row df) = Ok (Infinity negative) ->
      run (predict py input) g = Raise OverflowError).
Proof.
  intros Hy Hr Hdf Hage Hm.
  assert (Hrun : run (predict py input) g =
                 (val <~ call_predict m (row df) ;;
                  rounded <~ py_round val ;; Ok (Z.max 0 rounded))).
  { rewrite run_predict.
    destruct (model_young g); [|congruence].
    destruct (model_rest g); [|congruence].
    rewrite Hdf. simpl. rewrite Hage. simpl. rewrite Hm. reflexivity. }
  split.
  - intros Hcall. rewrite Hrun, Hcall. reflexivity.
  - intros negative Hcall. rewrite Hrun, Hcall. reflexivity.
Qed.

Lemma non_finite_output_raises_witness :
  run (predict plain_builtins (sample 30)) nan_globals =
  Raise (ValueError "cannot convert float NaN to integer" []).
Proof.
  edestruct (non_finite_output_raises plain_builtins (sample 30) nan_globals
               (frame_of plain_builtins (sample 30) nan_globals) 30
               (Plain (Regressor (fun _ => Returns NaN)))) as [H _].
  - discriminate.
  - discriminate.
  - apply frame_of_ok. vm_compute. reflexivity.
  - vm_compute. reflexivity.
  - reflexivity.
  - apply H. reflexivity.
Defined.

(** An exception of a collaborator reaches the caller of [predict] as it
    is: the one the selected model raises, and the one the scaler of the band
    raises while the frame is being scaled. *)
Theorem collaborator_errors_surface py input g :
  model_young g <> None -> model_rest g <> None ->
  (forall df age f what,
      run (preprocess_input py input) g = Ok df ->
      age_of df = Ok age ->
      model_for age g = Some (Plain (Regressor f)) ->
      f (row df) = Raises what ->
      run (predict py input) g = Raise (Foreign what)) /\
  (forall df0 age d cols t what,
      encode_fields py input = Ok df0 ->
      py_int py (get input "Age" (VInt 0)) = Ok age ->
      _ensure_scaler_format (scaler_for age g) = Ok (Some d) ->
      d !! "cols_to_scale" = Some (Columns cols) ->
      d !! "scaler" = Some (Scaler t) ->
      (forall c, c ∈ cols -> c ∈ _EXPECTED_COLUMNS) ->
      t (select df0 cols) = Raises what ->
      run (preprocess_input py input) g = Raise (Foreign what) /\
      run (predict py input) g = Raise (Foreign what)).
Proof.
  intros Hy Hr. split.
  - intros df age f what Hdf Hage Hm Hf. rewrite run_predict.
    destruct (model_young g); [|congruence].
    destruct (model_rest g); [|congruence].
    rewrite Hdf. simpl. rewrite Hage. simpl. rewrite Hm. simpl.
    rewrite Hf. reflexivity.
  - intros df0 age d cols t what Hdf0 Ha Hfmt Hc Ht Hexp Hraise.
    assert (Hpre : run (preprocess_input py input) g = Raise (Foreign what)).
    { rewrite run_preprocess_input, Hdf0. simpl.
      apply encode_fields_inv in Hdf0
        as (a & dp & i & r & gd & Ha' & _ & _ & _ & _ & ->).
      assert (a = age) by congruence. subst a.
      rewrite run_apply_scaler, age_of_encoded. simpl. rewrite Hfmt. simpl.
      unfold getitem. rewrite Hc, Ht. simpl.
      rewrite filter_missing.
      assert (Hnil : List.filter
                       (fun c => negb (bool_decide (c ∈ _EXPECTED_COLUMNS))) cols
                     = []).
      { clear -Hexp. induction cols as [|c cols IH]; [reflexivity|].
        simpl. rewrite bool_decide_eq_true_2 by (apply Hexp; left). simpl.
        apply IH. intros c' Hc'. apply Hexp. right. exact Hc'. }
      rewrite Hnil. rewrite Hraise. reflexivity. }
    split; [exact Hpre|].
    rewrite run_predict.
    destruct (model_young g); [|congruence].
    destruct (model_rest g); [|congruence].
    rewrite Hpre. reflexivity.
Qed.

Lemma collaborator_errors_surface_witness :
  run (predict plain_builtins (sample 30)) failing_globals
  = Raise (Foreign "not fitted").
Proof.
  edestruct (collaborator_errors_surface plain_builtins (sample 30)
               failing_globals) as [H _].
  - discriminate.
  - discriminate.
  - apply (H (frame_of plain_builtins (sample 30) failing_globals) 30
             (fun _ => Raises "not fitted")).
    + apply frame_of_ok. vm_compute. reflexivity.
    + vm_compute. reflexivity.
    + reflexivity.
    + reflexivity.
Defined.

(** ** What the import leaves in the globals *)

(** After the import the two models are loaded together or not at all: if
    either file fails to load, both globals are [None], also the one whose
    file did load.  Each scaler stands for itself: it is the object of its
    own file when that file loads and [None] otherwise, whatever happens to
    the three other files. *)
Theorem import_module_globals dir :
  let g := import_module dir in
  (model_young g = None <-> model_rest g = None) /\
  (forall my e,
      _load_artifact dir "model_young.joblib" = Ok my ->
      _load_artifact dir "model_rest.joblib" = Raise e ->
      model_young g = None) /\
  (forall my mr,
      _load_artifact dir "model_young.joblib" = Ok my ->
      _load_artifact dir "model_rest.joblib" = Ok mr ->
      model_young g = Some my /\ model_rest g = Some mr) /\
  (forall a, scaler_young g = Some a <->
             _load_artifact dir "scaler_young.joblib" = Ok a) /\
  (forall a, scaler_rest g = Some a <->
             _load_artifact dir "scaler_rest.joblib" = Ok a).
Proof.
  cbv zeta. pose proof (import_module_models dir) as Hm.
  split; [|split; [|split; [|split]]].
  - destruct (_load_artifact dir "model_young.joblib");
      destruct (_load_artifact dir "model_rest.joblib");
      destruct Hm as [-> ->]; split; intros H; try reflexivity; discriminate.
  - intros my e Hy Hr. rewrite Hy, Hr in Hm. apply Hm.
  - intros my mr Hy Hr. rewrite Hy, Hr in Hm. exact Hm.
  - intros a. unfold import_module. simpl.
    destruct (_load_artifact dir "scaler_young.joblib"); split; intros H;
      congruence.
  - intros a. unfold import_module. simpl.
    destruct (_load_artifact dir "scaler_rest.joblib"); split; intros H;
      congruence.
Qed.

(** A directory that holds the young model only. *)
Definition lone_model_directory : directory :=
  <["model_young.joblib" := Returns (constant_model 111)]> ∅.

Lemma import_module_globals_witness :
  model_young (import_module lone_model_directory) = None.
Proof.
  eapply (proj1 (proj2 (import_module_globals lone_model_directory))).
  - vm_compute. reflexivity.
  - vm_compute. reflexivity.
Defined.


(** * The form: [app/app.py] *)

(** [categorical_options] (lines 10-29). *)
Definition categorical_options : gmap string (list string) :=
  <["Gender" := ["Male"; "Female"]]>
  (<["Marital Status" := ["Unmarried"; "Married"]]>
  (<["BMI Category" := ["Normal"; "Obesity"; "Overweight"; "Underweight"]]>
  (<["Smoking Status" := ["No Smoking"; "Regular"; "Occasional"]]>
  (<["Employment Status" := ["Salaried"; "Self-Employed"; "Freelancer"; EmptyString]]>
  (<["Region" := ["Northwest"; "Southeast"; "Northeast"; "Southwest"]]>
  (<["Medical History" :=
       [ "No Disease"; "Diabetes"; "High blood pressure";
         "Diabetes & High blood pressure"; "Thyroid"; "Heart disease";
         "High blood pressure & Heart disease"; "Diabetes & Thyroid";
         "Diabetes & Heart disease" ]]>
  (<["Insurance Plan" := ["Bronze"; "Silver"; "Gold"]]> ∅))))))).

(** What the widgets of lines 31-73 hold when the script runs: the three
    integer inputs, the float input and the eight select boxes. *)
Record widgets : Type := {
  age : Z;
  number_of_dependants : Z;
  income_lakhs : Q;
  genetical_risk : Z;
  insurance_plan : string;
  employment_status : string;
  gender : string;
  marital_status : string;
  bmi_category : string;
  smoking_status : string;
  region : string;
  medical_history : string
}.

(** [input_dict] (lines 75-88). *)
Definition input_dict (w : widgets) : gmap string pyval :=
  <["Age" := VInt (age w)]>
  (<["Number of Dependants" := VInt (number_of_dependants w)]>
  (<["Income in Lakhs" := VFloat (Finite (income_lakhs w))]>
  (<["Genetical Risk" := VInt (genetical_risk w)]>
  (<["Insurance Plan" := VStr (insurance_plan w)]>
  (<["Employment Status" := VStr (employment_status w)]>
  (<["Gender" := VStr (gender w)]>
  (<["Marital Status" := VStr (marital_status w)]>
  (<["BMI Category" := VStr (bmi_category w)]>
  (<["Smoking Status" := VStr (smoking_status w)]>
  (<["Region" := VStr (region w)]>
  (<["Medical History" := VStr (medical_history w)]> ∅))))))))))).

(** A select box holds one of the options it was given. *)
Definition offers (key value : string) : Prop :=
  exists options, categorical_options !! key = Some options /\ value ∈ options.

(** The bounds of the number inputs and the options of the select boxes. *)
Definition in_form (w : widgets) : Prop :=
  18 <= age w <= 100 /\
  0 <= number_of_dependants w <= 20 /\
  (0 <= income_lakhs w <= 1000)%Q /\
  0 <= genetical_risk w <= 5 /\
  offers "Insurance Plan" (insurance_plan w) /\
  offers "Employment Status" (employment_status w) /\
  offers "Gender" (gender w) /\
  offers "Marital Status" (marital_status w) /\
  offers "BMI Category" (bmi_category w) /\
  offers "Smoking Status" (smoking_status w) /\
  offers "Region" (region w) /\
  offers "Medical History" (medical_history w).

(** What the page shows after a click on Predict. *)
Inductive shown : Type :=
| Success (pred : Z)
| Failure (e : exn).

(** Lines 90-100: the [try] around [predict]. *)
Definition on_predict py (w : widgets) (g : globals) : shown :=
  match run (predict py (input_dict w)) g with
  | Ok pred => Success pred
  | Raise e => Failure e
  end.

(** The form as it first appears: the defaults of the number inputs and the
    first option of every select box. *)
Definition initial_widgets : widgets :=
  {| age := 30; number_of_dependants := 0; income_lakhs := 10;
     genetical_risk := 0; insurance_plan := "Bronze";
     employment_status := "Salaried"; gender := "Male";
     marital_status := "Unmarried"; bmi_category := "Normal";
     smoking_status := "No Smoking"; region := "Northwest";
     medical_history := "No Disease" |}.

Lemma input_dict_get (w : widgets) :
  get (input_dict w) "Age" (VInt 0) = VInt (age w) /\
  get (input_dict w) "Number of Dependants" (VInt 0)
  = VInt (number_of_dependants w) /\
  get (input_dict w) "Income in Lakhs" (VFloat (Finite 0))
  = VFloat (Finite (income_lakhs w)) /\
  get (input_dict w) "Genetical Risk" (VFloat (Finite 0))
  = VInt (genetical_risk w) /\
  get (input_dict w) "Gender" (VStr EmptyString) = VStr (gender w) /\
  get (input_dict w) "Insurance Plan" (VStr "Bronze") = VStr (insurance_plan w) /\
  get (input_dict w) "Medical History" (VStr EmptyString)
  = VStr (medical_history w).
Proof.
  unfold get, input_dict.
  repeat split;
    repeat (rewrite lookup_insert_ne by discriminate);
    rewrite lookup_insert_eq; reflexivity.
Qed.

Lemma input_dict_category py (w : widgets) :
  category py (input_dict w) "Region" = Str.strip (region w) /\
  category py (input_dict w) "Marital Status" = Str.strip (marital_status w) /\
  category py (input_dict w) "BMI Category" = Str.strip (bmi_category w) /\
  category py (input_dict w) "Smoking Status" = Str.strip (smoking_status w) /\
  category py (input_dict w) "Employment Status"
  = Str.strip (employment_status w).
Proof.
  repeat split; apply category_of_str; unfold input_dict;
    repeat (rewrite lookup_insert_ne by discriminate);
    apply lookup_insert_eq.
Qed.

Lemma input_dict_encoded py (w : widgets) :
  Z.abs (genetical_risk w) <= two53 ->
  encode_fields py (input_dict w) =
  Ok (encoded py (input_dict w) (age w) (number_of_dependants w)
        (Finite (income_lakhs w)) (Finite (inject_Z (genetical_risk w)))
        (Str.lower (gender w))).
Proof.
  intros Hrisk.
  destruct (input_dict_get w) as (Ha & Hd & Hi & Hr & Hg & _).
  apply encode_fields_complete.
  - rewrite Ha. reflexivity.
  - rewrite Hd. reflexivity.
  - rewrite Hi. reflexivity.
  - rewrite Hr. simpl. apply float_of_int_exact. exact Hrisk.
  - exact Hg.
Qed.

(** Whatever the widgets hold, with a genetical risk that is its own float
    (at most [2 ^ 53] in absolute value; its number input keeps it between 0
    and 5), the record the page builds is encoded without an exception, by
    any reading of numeric literals: the numeric cells are the values of the
    four number inputs, the age as an integer, the income and the genetical
    risk as floats. *)
Theorem form_always_encodes py (w : widgets) :
  Z.abs (genetical_risk w) <= two53 ->
  exists df,
    encode_fields py (input_dict w) = Ok df /\
    df !! "age" = Some (NInt (age w)) /\
    df !! "number_of_dependants" = Some (NInt (number_of_dependants w)) /\
    df !! "income_lakhs" = Some (NFloat (Finite (income_lakhs w))) /\
    df !! "genetical_risk" = Some (NFloat (Finite (inject_Z (genetical_risk w)))) /\
    age_of df = Ok (age w).
Proof.
  intros Hrisk.
  eexists. split; [apply input_dict_encoded; exact Hrisk|].
  rewrite encoded_age, encoded_dependants, encoded_income,
    encoded_genetical_risk, age_of_encoded.
  repeat split.
Qed.

Lemma initial_risk_in_bounds : Z.abs (genetical_risk initial_widgets) <= two53.
Proof. vm_compute. discriminate. Qed.

(** The bounds of the number inputs are well inside that range. *)
Lemma in_form_risk (w : widgets) :
  in_form w -> Z.abs (genetical_risk w) <= two53.
Proof.
  intros Hform. assert (H5 : 5 < two53) by (vm_compute; reflexivity).
  assert (Hrisk : 0 <= genetical_risk w <= 5) by apply Hform. lia.
Qed.

(** A genetical risk beyond the floats, which no number input gives, would
    stop the encoding at [float(...)]. *)
Lemma form_risk_beyond_floats py (w : widgets) :
  float_limit <= Z.abs (genetical_risk w) ->
  encode_fields py (input_dict w) = Raise OverflowError.
Proof.
  intros Hbig.
  destruct (input_dict_get w) as (Ha & Hd & Hi & Hr & _).
  unfold encode_fields. rewrite Ha, Hd, Hi, Hr.
  cbn [py_int py_float and_then].
  rewrite (float_of_int_overflow _ Hbig). reflexivity.
Qed.

Lemma form_always_encodes_witness :
  exists df,
    encode_fields plain_builtins (input_dict initial_widgets) = Ok df /\
    age_of df = Ok 30.
Proof.
  destruct (form_always_encodes plain_builtins initial_widgets
              initial_risk_in_bounds) as (df & Hdf & _ & _ & _ & _ & Hage).
  exists df. split; assumption.
Defined.

(** The keys of the select boxes that feed a one-hot group coerced with
    [str(...).strip()]. *)
Definition group_keys : list string :=
  ["Region"; "Marital Status"; "BMI Category"; "Smoking Status";
   "Employment Status"].

Ltac enumerate_options Ho :=
  let options := fresh "options" in
  let Hk := fresh "Hk" in
  let Hin := fresh "Hin" in
  destruct Ho as (options & Hk & Hin);
  vm_compute in Hk; injection Hk as <-;
  apply list_elem_of_In in Hin; simpl in Hin;
  repeat (destruct Hin as [<-|Hin]; [|]); [..|destruct Hin].

Lemma offered_is_stripped key value :
  key ∈ group_keys -> offers key value -> Str.strip value = value.
Proof.
  intros Hkey Ho. apply list_elem_of_In in Hkey. simpl in Hkey.
  destruct Hkey as [<-|[<-|[<-|[<-|[<-|[]]]]]];
    enumerate_options Ho; vm_compute; reflexivity.
Qed.

Lemma input_dict_exact py (w : widgets) key :
  key ∈ group_keys ->
  (forall k, k ∈ group_keys ->
             offers k (match input_dict w !! k with
                       | Some (VStr s) => s
                       | _ => EmptyString
                       end)) ->
  forall name,
    String.eqb (category py (input_dict w) key) name
    = spec_exact_match (input_dict w) key name.
Proof.
  intros Hkey Hoff name. specialize (Hoff key Hkey).
  unfold spec_exact_match, category, get.
  destruct (input_dict w !! key) as [[| | | |s]|] eqn:Hl.
  1-4,6: (exfalso; revert Hl; apply list_elem_of_In in Hkey; simpl in Hkey;
          destruct Hkey as [<-|[<-|[<-|[<-|[<-|[]]]]]]; unfold input_dict;
          repeat (rewrite lookup_insert_ne by discriminate);
          rewrite lookup_insert_eq; discriminate).
  simpl. rewrite (offered_is_stripped key s Hkey Hoff). reflexivity.
Qed.

Lemma in_form_groups (w : widgets) :
  in_form w ->
  forall k, k ∈ group_keys ->
            offers k (match input_dict w !! k with
                      | Some (VStr s) => s
                      | _ => EmptyString
                      end).
Proof.
  intros (_ & _ & _ & _ & _ & He & _ & Hm & Hb & Hs & Hr & _) k Hk.
  apply list_elem_of_In in Hk. simpl in Hk.
  destruct Hk as [<-|[<-|[<-|[<-|[<-|[]]]]]]; unfold input_dict;
    repeat (rewrite lookup_insert_ne by discriminate);
    rewrite lookup_insert_eq; assumption.
Qed.

Lemma group_key_of key prefix names :
  (key, prefix, names) ∈ one_hot_groups -> key ∈ group_keys.
Proof.
  intros H. apply list_elem_of_In in H. simpl in H.
  destruct H as [H|[H|[H|[H|[H|[]]]]]]; injection H as <- _ _;
    refine (bool_decide_unpack _ _); vm_compute; exact I.
Qed.

(** Every option the form offers is spelled the way the encoder expects it.
    For a form within its bounds, the plan is one of the three plans of
    [_INSURANCE_ENCODING] and the cell holds its code, never the default of
    an unknown plan; the gender flag is set exactly for the option "Male";
    and the flag of every other category is set exactly when the select box
    of its group holds the name of that category, letter for letter. *)
Theorem form_options_recognised py (w : widgets) df :
  in_form w ->
  encode_fields py (input_dict w) = Ok df ->
  ((insurance_plan w = "Bronze" /\ df !! "insurance_plan" = Some (NInt 1)) \/
   (insurance_plan w = "Silver" /\ df !! "insurance_plan" = Some (NInt 2)) \/
   (insurance_plan w = "Gold" /\ df !! "insurance_plan" = Some (NInt 3))) /\
  df !! "gender_Male" = Some (flag (String.eqb (gender w) "Male")) /\
  (forall key prefix names name,
      (key, prefix, names) ∈ one_hot_groups -> name ∈ names ->
      df !! (prefix ++ name) =
      Some (flag (spec_exact_match (input_dict w) key name))).
Proof.
  intros Hform Hdf.
  rewrite input_dict_encoded in Hdf by (apply in_form_risk; exact Hform).
  apply Ok_inj in Hdf. subst df.
  pose proof (in_form_groups w Hform) as Hgroups.
  destruct Hform as (_ & _ & _ & _ & Hplan & _ & Hgender & _).
  destruct (input_dict_get w) as (_ & _ & _ & _ & _ & Hp & _).
  split; [|split].
  - rewrite encoded_insurance_plan, Hp.
    enumerate_options Hplan;
      [left|right; left|right; right]; split; reflexivity.
  - rewrite encoded_gender_flag.
    enumerate_options Hgender; reflexivity.
  - intros key prefix names name Hg Hn.
    rewrite (encoded_group_flag _ _ _ _ _ _ _ key prefix names name Hg Hn).
    rewrite (input_dict_exact py w key (group_key_of _ _ _ Hg) Hgroups).
    reflexivity.
Qed.

Lemma offers_listed key options value :
  categorical_options !! key = Some options ->
  bool_decide (value ∈ options) = true ->
  offers key value.
Proof.
  intros Hk Hv. exists options. split; [exact Hk|].
  apply bool_decide_eq_true in Hv. exact Hv.
Qed.

Lemma initial_widgets_in_form : in_form initial_widgets.
Proof.
  unfold in_form, initial_widgets. simpl.
  split; [lia|]. split; [lia|].
  split; [split; discriminate|]. split; [lia|].
  repeat split; eapply offers_listed; vm_compute; reflexivity.
Qed.

Lemma form_options_recognised_witness :
  encoded plain_builtins (input_dict initial_widgets) 30 0
    (Finite 10) (Finite (inject_Z 0)) (Str.lower "Male") !! "gender_Male"
  = Some (flag (String.eqb (gender initial_widgets) "Male")).
Proof.
  exact (proj1 (proj2 (form_options_recognised plain_builtins initial_widgets _
                         initial_widgets_in_form
                         (input_dict_encoded plain_builtins initial_widgets
                            initial_risk_in_bounds)))).
Defined.

(** The table keys a medical history is cut into. *)
Definition known_tokens (history : string) : Prop :=
  Forall (fun p => is_Some (_RISK_SCORES !! p)) (risk_parts history).

Ltac history_case :=
  split;
  [ unfold known_tokens; vm_compute risk_parts;
    repeat (apply Forall_cons; split; [eexists; vm_compute; reflexivity|]);
    apply Forall_nil_2
  | eexists; split; [vm_compute; reflexivity|];
    split; [split; vm_compute; discriminate|];
    split; [vm_compute; reflexivity|];
    split; intros H; first [reflexivity | discriminate H] ].

(** Every medical history the form offers is cut into tokens that are all
    keys of [_RISK_SCORES], so none is scored 0 for being unknown; their
    scores add up to at most 14, so the score is the sum over 14 and the clip
    never applies; and the sum is 0 for "No Disease" only. *)
Theorem form_history_scores (history : string) :
  offers "Medical History" history ->
  known_tokens history /\
  exists total,
    sum_Z (map (fun p => default 0 (_RISK_SCORES !! p)) (risk_parts history))
    = total /\
    0 <= total <= 14 /\
    calculate_normalized_risk (VStr history) = (total # 14)%Q /\
    (total = 0 <-> history = "No Disease").
Proof.
  intros Ho. enumerate_options Ho; history_case.
Qed.

Lemma form_history_scores_witness :
  calculate_normalized_risk (VStr "Diabetes & Thyroid") = (11 # 14)%Q.
Proof.
  destruct (form_history_scores "Diabetes & Thyroid") as (_ & total & Ht & _ & Hq & _).
  - eapply offers_listed; vm_compute; reflexivity.
  - rewrite Hq. rewrite <- Ht. vm_compute. reflexivity.
Defined.

(** ** Values that are no category *)

Lemma get_insert_ne (input : gmap string pyval) key v k dflt :
  key <> k -> get (<[key := v]> input) k dflt = get input k dflt.
Proof. intros H. unfold get. rewrite lookup_insert_ne by exact H. reflexivity. Qed.

Lemma category_insert_ne py (input : gmap string pyval) key v k :
  key <> k -> category py (<[key := v]> input) k = category py input k.
Proof. intros H. unfold category. rewrite get_insert_ne by exact H. reflexivity. Qed.

Lemma category_insert_eq py (input : gmap string pyval) key v :
  category py (<[key := v]> input) key = Str.strip (py_str py v).
Proof. unfold category, get. rewrite lookup_insert_eq. reflexivity. Qed.

Ltac not_a_name H :=
  repeat match goal with
         | |- context [String.eqb ?v ?name] =>
             destruct (String.eqb_spec v name) as [Heq|_];
             [exfalso; apply H; rewrite Heq;
              refine (bool_decide_unpack _ _); vm_compute; exact I|]
         end;
  reflexivity.

Lemma set_region_noop v (df : frame) :
  v ∉ ["Northwest"; "Southeast"; "Southwest"] -> set_region v df = df.
Proof. intros H. unfold set_region. not_a_name H. Qed.

Lemma set_marital_status_noop v (df : frame) :
  v ∉ ["Unmarried"] -> set_marital_status v df = df.
Proof. intros H. unfold set_marital_status. not_a_name H. Qed.

Lemma set_bmi_category_noop v (df : frame) :
  v ∉ ["Obesity"; "Overweight"; "Underweight"] -> set_bmi_category v df = df.
Proof. intros H. unfold set_bmi_category. not_a_name H. Qed.

Lemma set_smoking_status_noop v (df : frame) :
  v ∉ ["Occasional"; "Regular"] -> set_smoking_status v df = df.
Proof. intros H. unfold set_smoking_status. not_a_name H. Qed.

Lemma set_employment_status_noop v (df : frame) :
  v ∉ ["Salaried"; "Self-Employed"] -> set_employment_status v df = df.
Proof. intros H. unfold set_employment_status. not_a_name H. Qed.

Ltac other_keys :=
  repeat first
    [ rewrite get_insert_ne by discriminate
    | rewrite category_insert_ne by discriminate ].

(** The encoder cannot tell two values apart when neither is a category name
    of its group: replacing one by the other under the key of the group leaves
    the outcome of the encoding, frame or exception, the same.  So the two
    employment options "Freelancer" and the empty one give the same frame. *)
Theorem unrecognised_values_encode_alike py input key prefix names v1 v2 :
  (key, prefix, names) ∈ one_hot_groups ->
  Str.strip (py_str py v1) ∉ names ->
  Str.strip (py_str py v2) ∉ names ->
  encode_fields py (<[key := v1]> input) = encode_fields py (<[key := v2]> input).
Proof.
  intros Hg H1 H2. apply list_elem_of_In in Hg. simpl in Hg.
  destruct Hg as [Hg|[Hg|[Hg|[Hg|[Hg|[]]]]]]; injection Hg as <- <- <-;
    unfold encode_fields; rewrite !category_insert_eq; other_keys;
    (destruct (py_int py (get input "Age" (VInt 0))); [|reflexivity]);
    (destruct (py_int py (get input "Number of Dependants" (VInt 0)));
     [|reflexivity]);
    (destruct (py_float py (get input "Income in Lakhs" (VFloat (Finite 0))));
     [|reflexivity]);
    (destruct (py_float py (get input "Genetical Risk" (VFloat (Finite 0))));
     [|reflexivity]);
    (destruct (method_lower (get input "Gender" (VStr EmptyString)));
     [|reflexivity]);
    cbv beta iota zeta delta [and_then].
  - rewrite !set_region_noop by assumption. reflexivity.
  - rewrite !set_marital_status_noop by assumption. reflexivity.
  - rewrite !set_bmi_category_noop by assumption. reflexivity.
  - rewrite !set_smoking_status_noop by assumption. reflexivity.
  - rewrite !set_employment_status_noop by assumption. reflexivity.
Qed.

Lemma unrecognised_values_encode_alike_witness :
  encode_fields plain_builtins
    (<["Employment Status" := VStr "Freelancer"]> (sample 30))
  = encode_fields plain_builtins
      (<["Employment Status" := VStr EmptyString]> (sample 30)).
Proof.
  apply (unrecognised_values_encode_alike plain_builtins (sample 30)
           "Employment Status" "employment_status_" ["Salaried"; "Self-Employed"]).
  - refine (bool_decide_unpack _ _). vm_compute. exact I.
  - refine (bool_decide_unpack _ _). vm_compute. exact I.
  - refine (bool_decide_unpack _ _). vm_compute. exact I.
Defined.

(** ** From the form to the page *)

(** With a genetical risk that is its own float (at most [2 ^ 53] in absolute
    value; its number input keeps it between 0 and 5), both models loaded as
    regressors and no scaler, a click on Predict shows a
    premium whenever the model of the band answers a finite number:
    the model is the young one for an age up to 25 and the other one above,
    it is given the row of the encoded record, and the premium is its answer
    rounded and clipped at 0.  When that model raises, the page shows the
    exception it raised. *)
Theorem form_prediction py (w : widgets) g fy fr :
  Z.abs (genetical_risk w) <= two53 ->
  model_young g = Some (Plain (Regressor fy)) ->
  model_rest g = Some (Plain (Regressor fr)) ->
  scaler_young g = None -> scaler_rest g = None ->
  exists df,
    encode_fields py (input_dict w) = Ok df /\
    (forall q,
        (if age w <=? 25 then fy else fr)%Z (row df) = Returns (Finite q) ->
        on_predict py w g = Success (Z.max 0 (round_half_even q))) /\
    (forall what,
        (if age w <=? 25 then fy else fr)%Z (row df) = Raises what ->
        on_predict py w g = Failure (Foreign what)).
Proof.
  intros Hrisk Hy Hr Hsy Hsr.
  eexists. split; [apply input_dict_encoded; exact Hrisk|].
  set (df := encoded py (input_dict w) (age w) (number_of_dependants w)
               (Finite (income_lakhs w)) (Finite (inject_Z (genetical_risk w)))
               (Str.lower (gender w))).
  assert (Hnone : scaler_for (age w) g = None).
  { unfold scaler_for. destruct (age w <=? 25)%Z; assumption. }
  assert (Hpre : run (preprocess_input py (input_dict w)) g = Ok df).
  { rewrite run_preprocess_input, input_dict_encoded by exact Hrisk.
    cbn [and_then].
    rewrite run_apply_scaler. fold df.
    unfold df at 1. rewrite age_of_encoded. cbn [and_then]. rewrite Hnone. reflexivity. }
  assert (Hrun : run (predict py (input_dict w)) g =
                 (val <~ lift_outcome ((if age w <=? 25 then fy else fr)%Z (row df)) ;;
                  rounded <~ py_round val ;; Ok (Z.max 0 rounded))).
  { rewrite run_predict, Hy, Hr, Hpre. cbn [and_then].
    unfold df at 1. rewrite age_of_encoded. cbn [and_then].
    unfold model_for. destruct (age w <=? 25)%Z; [rewrite Hy|rewrite Hr];
      reflexivity. }
  split.
  - intros q Hq. unfold on_predict. rewrite Hrun, Hq. reflexivity.
  - intros what Hwhat. unfold on_predict. rewrite Hrun, Hwhat. reflexivity.
Qed.

Lemma form_prediction_witness :
  exists df,
    encode_fields plain_builtins (input_dict initial_widgets) = Ok df /\
    on_predict plain_builtins initial_widgets unscaled_globals = Success 222.
Proof.
  destruct (form_prediction plain_builtins initial_widgets unscaled_globals
              (fun _ => Returns (Finite 111)) (fun _ => Returns (Finite 222))
              initial_risk_in_bounds eq_refl eq_refl eq_refl eq_refl)
    as (df & Hdf & Hok & _).
  exists df. split; [exact Hdf|].
  apply (Hok 222%Q). reflexivity.
Defined.
